(** * website-analyzer: the crawl-and-analyze pipeline of [src/lib/crawler.ts]

    A shallow embedding of [analyzePage] and [crawlSite] and the properties
    of the pipeline that the specification states.

    Conventions of the embedding.
    - A JavaScript string is a sequence of UTF-16 code units.  The model
      uses [string], i.e. code units in the range U+0000..U+00FF.
    - Counts and status codes are integers ([Z]); the other numbers are
      rationals ([Q]), [NaN] or an infinity.  The readability score is
      computed as the code computes it, in binary64: every literal and
      the result of every operation is rounded to the nearest double
      ([Num.b64]); the range of the exponent is not modelled, the values
      at hand lying far inside it.  The text-to-code ratio and the average
      response time are exact quotients of integers.
    - Everything the analyzer obtains from the browser (navigation result,
      values returned by [page.evaluate], clock readings, screenshot
      outcome) is supplied by a record describing the page session.
    - The WHATWG [URL] parser is a parameter of the crawl. *)

From Stdlib Require Import ZArith QArith Qround String Ascii DecimalString.
From Equations Require Import Equations.
From stdpp Require Import gmap strings list.

Close Scope Q_scope.
Local Open Scope string_scope.
Local Open Scope Z_scope.

(* ===================================================================== *)
(** ** JavaScript string primitives used by the crawler *)
(* ===================================================================== *)

Module Js.

Definition code (c : ascii) : N := N_of_ascii c.

Definition in_range (lo hi : N) (c : ascii) : bool :=
  ((lo <=? code c) && (code c <=? hi))%N.

Definition is_upper : ascii -> bool := in_range 65 90.
Definition is_lower : ascii -> bool := in_range 97 122.
Definition is_digit : ascii -> bool := in_range 48 57.
Definition is_alpha (c : ascii) : bool := is_upper c || is_lower c.

(** [\s]: TAB, LF, VT, FF, CR, SPACE and NO-BREAK SPACE. *)
Definition is_space (c : ascii) : bool :=
  in_range 9 13 c || (code c =? 32)%N || (code c =? 160)%N.

(** [\w]: [A-Za-z0-9_]. *)
Definition is_word (c : ascii) : bool :=
  is_alpha c || is_digit c || (code c =? 95)%N.

(** [[\w'-]] *)
Definition is_word_apos_hyphen (c : ascii) : bool :=
  is_word c || (code c =? 39)%N || (code c =? 45)%N.

(** [[.!?]] *)
Definition is_sentence_end (c : ascii) : bool :=
  (code c =? 46)%N || (code c =? 33)%N || (code c =? 63)%N.

(** [[aeiouy]] *)
Definition is_vowel (c : ascii) : bool :=
  match c with
  | "a" | "e" | "i" | "o" | "u" | "y" => true
  | _ => false
  end%char.

(** [[a-zA-Z0-9]] *)
Definition is_alnum (c : ascii) : bool := is_alpha c || is_digit c.

(** [s.length] *)
Definition len (s : string) : Z := Z.of_nat (String.length s).

(** [s.split(/[sep]+/)]: the fields between maximal runs of separator
    characters.  A leading (trailing) run yields a leading (trailing)
    empty field; the empty string yields one empty field. *)
Fixpoint split (sep : ascii -> bool) (s : string) : list string :=
  match s with
  | EmptyString => [EmptyString]
  | String c s' =>
      let r := split sep s' in
      if sep c then
        match s' with
        | String c' _ => if sep c' then r else EmptyString :: r
        | EmptyString => EmptyString :: r
        end
      else
        match r with
        | f :: fs => String c f :: fs
        | [] => [String c EmptyString]
        end
  end.

(** [s.replace(/[^keep]/g, '')] *)
Fixpoint keep (p : ascii -> bool) (s : string) : string :=
  match s with
  | EmptyString => EmptyString
  | String c s' => if p c then String c (keep p s') else keep p s'
  end.

(** [s.replace(/[^keep]/g, '_')] *)
Fixpoint mask (p : ascii -> bool) (s : string) : string :=
  match s with
  | EmptyString => EmptyString
  | String c s' => String (if p c then c else "_"%char) (mask p s')
  end.

(** [/^[p]+$/.test(s)] *)
Fixpoint all (p : ascii -> bool) (s : string) : bool :=
  match s with
  | EmptyString => true
  | String c s' => p c && all p s'
  end.

Definition test_all_plus (p : ascii -> bool) (s : string) : bool :=
  negb (String.eqb s EmptyString) && all p s.

Definition lower_char (c : ascii) : ascii :=
  if is_upper c || (in_range 192 222 c && negb (code c =? 215)%N)
  then ascii_of_N (code c + 32)
  else c.

(** [s.toLowerCase()] *)
Fixpoint toLowerCase (s : string) : string :=
  match s with
  | EmptyString => EmptyString
  | String c s' => String (lower_char c) (toLowerCase s')
  end.

(** [s.replace(/e$/, '')] *)
Fixpoint strip_final_e (s : string) : string :=
  match s with
  | EmptyString => EmptyString
  | String c EmptyString => if Ascii.eqb c "e" then EmptyString else s
  | String c s' => String c (strip_final_e s')
  end.

(** [(s.match(/[p]+/g) || []).length]: the number of maximal runs. *)
Fixpoint runs (p : ascii -> bool) (s : string) : Z :=
  match s with
  | EmptyString => 0
  | String c s' =>
      if p c then
        match s' with
        | String c' _ => if p c' then runs p s' else 1 + runs p s'
        | EmptyString => 1
        end
      else runs p s'
  end.

(** [s.substring(0, n)] *)
Definition substring0 (n : nat) (s : string) : string := String.substring 0 n s.

(** [s.substring(1)] *)
Definition substring1 (s : string) : string :=
  match s with
  | EmptyString => EmptyString
  | String _ s' => s'
  end.

(** [s.startsWith(p)] *)
Definition startsWith (p s : string) : bool := String.prefix p s.

(** [s.endsWith(p)] *)
Definition endsWith (p s : string) : bool :=
  String.prefix (String.rev p) (String.rev s).

(** [s.includes(p)] *)
Fixpoint includes (p s : string) : bool :=
  String.prefix p s ||
  match s with
  | EmptyString => false
  | String _ s' => includes p s'
  end.

(** [s.split('#')[0]]: the text before the first [#]. *)
Fixpoint before_hash (s : string) : string :=
  match s with
  | EmptyString => EmptyString
  | String c s' => if Ascii.eqb c "#" then EmptyString else String c (before_hash s')
  end.

(** [`${n}`] for an integer [n]. *)
Definition of_int (n : Z) : string := NilZero.string_of_int (Z.to_int n).

(** The value of the longest prefix of decimal digits, and whether there
    is one. *)
Fixpoint digits (s : string) (acc : option Z) : option Z :=
  match s with
  | EmptyString => acc
  | String c s' =>
      if is_digit c then
        let d := Z.of_N (code c) - 48 in
        digits s' (Some (match acc with Some a => 10 * a + d | None => d end))
      else acc
  end.

(** The same for hexadecimal digits, of either case. *)
Definition hex_value (c : ascii) : option Z :=
  if is_digit c then Some (Z.of_N (code c) - 48)
  else if in_range 97 102 c then Some (Z.of_N (code c) - 87)
  else if in_range 65 70 c then Some (Z.of_N (code c) - 55)
  else None.

Fixpoint hex_digits (s : string) (acc : option Z) : option Z :=
  match s with
  | EmptyString => acc
  | String c s' =>
      match hex_value c with
      | Some d =>
          hex_digits s' (Some (match acc with Some a => 16 * a + d | None => d end))
      | None => acc
      end
  end.

(** Leading white space removed. *)
Fixpoint skip_space (s : string) : string :=
  match s with
  | EmptyString => EmptyString
  | String c s' => if is_space c then skip_space s' else s
  end.

(** What [parseInt] reads after the sign: hexadecimal digits after a
    [0x] or [0X] prefix, decimal digits otherwise. *)
Definition unsigned (s : string) : option Z :=
  match s with
  | String "0" (String x s') =>
      if Ascii.eqb x "x" || Ascii.eqb x "X" then hex_digits s' None
      else digits s None
  | _ => digits s None
  end.

(** [parseInt(s)], without a radix: leading white space is skipped, one
    sign is read, then the digits; [None] stands for [NaN]. *)
Definition parseInt (s : string) : option Z :=
  match skip_space s with
  | String "-" s' => option_map Z.opp (unsigned s')
  | String "+" s' => unsigned s'
  | s' => unsigned s'
  end.

(** JavaScript truthiness of a string. *)
Definition truthy (s : string) : bool := negb (String.eqb s EmptyString).

End Js.

(* ===================================================================== *)
(** ** JavaScript numbers, as far as the content scoring uses them *)
(* ===================================================================== *)

Module Num.

(** A number is a finite value (an exact rational here), [NaN], or an
    infinity. *)
Inductive number : Type :=
| Fin (q : Q)
| NaN
| Inf (negative : bool).

Definition of_Z (n : Z) : number := Fin (inject_Z n).

(** [a / b] on integer operands: the exact quotient. *)
Definition div (a b : Z) : number :=
  if b =? 0 then
    if a =? 0 then NaN else Inf (a <? 0)
  else Fin (inject_Z a / inject_Z b)%Q.

(** [x || d] *)
Definition or_else (x d : number) : number :=
  match x with
  | Fin q => if Qeq_bool q 0 then d else x
  | NaN => d
  | Inf _ => x
  end.

Definition Qneg_b (q : Q) : bool := (Qnum q <? 0).

(** [x * y] *)
Definition mul (x y : number) : number :=
  match x, y with
  | NaN, _ | _, NaN => NaN
  | Fin a, Fin b => Fin (a * b)%Q
  | Inf s, Inf t => Inf (xorb s t)
  | Inf s, Fin b | Fin b, Inf s =>
      if Qeq_bool b 0 then NaN else Inf (xorb s (Qneg_b b))
  end.

(** [x - y] *)
Definition sub (x y : number) : number :=
  match x, y with
  | NaN, _ | _, NaN => NaN
  | Fin a, Fin b => Fin (a - b)%Q
  | Inf s, Fin _ => Inf s
  | Fin _, Inf t => Inf (negb t)
  | Inf s, Inf t => if Bool.eqb s t then NaN else Inf s
  end.

(** [Math.round(x)]: halves go up. *)
Definition round (x : number) : number :=
  match x with
  | Fin q => of_Z (Qfloor (q + (1 # 2))%Q)
  | _ => x
  end.

(** [Math.max(x, y)] and [Math.min(x, y)]. *)
Definition max (x y : number) : number :=
  match x, y with
  | NaN, _ | _, NaN => NaN
  | Inf false, _ | _, Inf false => Inf false
  | Inf true, z | z, Inf true => z
  | Fin a, Fin b => if Qle_bool a b then y else x
  end.

Definition min (x y : number) : number :=
  match x, y with
  | NaN, _ | _, NaN => NaN
  | Inf true, _ | _, Inf true => Inf true
  | Inf false, z | z, Inf false => z
  | Fin a, Fin b => if Qle_bool a b then x else y
  end.

(** [x > n] for an integer literal [n]. *)
Definition gt (x : number) (n : Z) : bool :=
  match x with
  | Fin q => negb (Qle_bool q (inject_Z n))
  | NaN => false
  | Inf s => negb s
  end.

(** *** Binary64 *)

(** [2^k], for any integer [k]. *)
Definition pow2 (k : Z) : Q :=
  if 0 <=? k then inject_Z (2 ^ k) else 1 # Z.to_pos (2 ^ (- k)).

(** The integer nearest to [n / d], the even one of two equally near,
    for [0 <= n] and [0 < d]. *)
Definition nearest_even (n d : Z) : Z :=
  let fl := n / d in
  let r := n mod d in
  if 2 * r <? d then fl
  else if d <? 2 * r then fl + 1
  else if Z.even fl then fl else fl + 1.

(** The integer [k] with [2^k <= a / d < 2^(k+1)], for positive [a] and
    [d]. *)
Definition ilog2 (a d : Z) : Z :=
  let k := Z.log2 a - Z.log2 d in
  if d * 2 ^ Z.max 0 k <=? a * 2 ^ Z.max 0 (- k) then k else k - 1.

(** The double nearest to [q], ties going to the even significand: the
    significand has 53 bits, so a number between [2^k] and [2^(k+1)] is
    rounded to a multiple of [2^(k-52)]. The exponent is unbounded here:
    overflow and subnormal numbers are not modelled. *)
Definition b64 (q : Q) : Q :=
  let a := Z.abs (Qnum q) in
  let d := Z.pos (Qden q) in
  if a =? 0 then 0%Q
  else
    let e := ilog2 a d - 52 in
    let m := nearest_even (a * 2 ^ Z.max 0 (- e)) (d * 2 ^ Z.max 0 e) in
    (inject_Z (Z.sgn (Qnum q) * m) * pow2 e)%Q.

Definition rounded (x : number) : number :=
  match x with
  | Fin q => Fin (b64 q)
  | _ => x
  end.

(** A decimal literal. *)
Definition literal (q : Q) : number := Fin (b64 q).

(** [a / b], [x * y] and [x - y] as the machine computes them; the
    operands of the quotient are integers that are doubles themselves
    (lengths of arrays). *)
Definition fdiv (a b : Z) : number := rounded (div a b).
Definition fmul (x y : number) : number := rounded (mul x y).
Definition fsub (x y : number) : number := rounded (sub x y).

End Num.

(* ===================================================================== *)
(** ** Data model ([PageAnalysis], [ViewportIssue], [CrawlOptions]) *)
(* ===================================================================== *)

Inductive ViewportName : Type := Desktop | Tablet | Mobile.

Module ViewportIssue.
Record t : Type := mk {
  viewport : ViewportName;
  horizontalScroll : bool;
  overflowingElements : Z;
  smallTapTargets : Z;
  offendingElements : list string;
  screenshotPath : option string
}.
End ViewportIssue.

Module Heading.
Record t : Type := mk { tag : string; text : string }.
End Heading.

(** A value stored in the [wordFreq] object: a number, or the string that
    [+ 1] produces from a non-numeric operand. *)
Inductive jsval : Type :=
| JNum (n : Z)
| JStr (s : string).

Module Keyword.
Record t : Type := mk { word : string; count : jsval }.
End Keyword.

Module ContentMetrics.
Record t : Type := mk {
  wordCount : Z;
  readabilityScore : Num.number;
  structureScore : Z;
  hasSchema : bool;
  seoScore : Z;
  aiScore : Z;
  headings : list Heading.t;
  keywords : list Keyword.t;
  paragraphCount : Z;
  schemaTypes : list string;
  questionHeadings : Z;
  hasAuthor : bool;
  hasDate : bool;
  longParagraphs : Z;
  textToCodeRatio : Num.number
}.
End ContentMetrics.

Module PageAnalysis.
Record t : Type := mk {
  url : string;
  title : string;
  metaDescription : string;
  h1 : option string;
  responseTime : Z;
  statusCode : Z;
  error : option string;
  links : list string;
  (* uxIssues *)
  missingAltTags : Z;
  emptyLinks : Z;
  hasViewport : bool;
  h1Count : Z;
  (* visualIssues *)
  imagesMissingDimensions : Z;
  longWords : Z;
  viewportIssues : list ViewportIssue.t;
  (* contentIssues *)
  possibleTypos : list string;
  contentMetrics : option ContentMetrics.t
}.
End PageAnalysis.

Module CrawlOptions.
Record t : Type := mk { maxPages : Z; maxDepth : Z }.
End CrawlOptions.

(** The object that the static [page.evaluate] call returns. *)
Module StaticAnalysis.
Record t : Type := mk {
  title : string;
  metaDesc : string;
  h1 : option string;
  missingAltTags : Z;
  emptyLinks : Z;
  hasViewport : bool;
  h1Count : Z;
  imagesMissingDimensions : Z;
  textContent : string;
  links : list string;
  hasSchema : bool;
  structureCount : Z;
  paragraphCount : Z;
  headings : list Heading.t;
  longParagraphs : Z;
  htmlSize : Z;
  schemaTypes : list string;
  hasAuthor : bool;
  hasDate : bool
}.
End StaticAnalysis.

(* ===================================================================== *)
(** ** Content scoring (the Node.js side of [analyzePage]) *)
(* ===================================================================== *)

Module Content.

(** [staticAnalysis.textContent.split(/\s+/)] *)
Definition words (textContent : string) : list string :=
  Js.split Js.is_space textContent.

(** *** Long words and possible typos *)

(** [word.replace(/[^\w'-]/g, '')] *)
Definition cleanWord (word : string) : string :=
  Js.keep Js.is_word_apos_hyphen word.

(** [Set.prototype.add] on a set kept in insertion order. *)
Definition set_add (x : string) (s : list string) : list string :=
  if existsb (String.eqb x) s then s else s ++ [x].

(** One iteration of the first loop over [words]; the state is
    [(possibleTypos, longWords)]. *)
Definition scan_word (spell : option (string -> bool))
    (st : list string * Z) (word : string) : list string * Z :=
  let '(possibleTypos, longWords) := st in
  let cw := cleanWord word in
  if negb (Js.truthy cw) then st
  else
    let longWords := if Js.len cw >? 20 then longWords + 1 else longWords in
    let possibleTypos :=
      match spell with
      | Some correct =>
          if Js.test_all_plus Js.is_alpha cw && (Js.len cw >? 3)
          then if negb (correct cw) then set_add cw possibleTypos
               else possibleTypos
          else possibleTypos
      | None => possibleTypos
      end in
    (possibleTypos, longWords).

Definition scan_words (spell : option (string -> bool)) (ws : list string)
  : list string * Z :=
  fold_left (scan_word spell) ws ([], 0).

(** *** Readability *)

Definition wordCount (textContent : string) : Z :=
  Z.of_nat (length (words textContent)).

(** [textContent.split(/[.!?]+/).length || 1] *)
Definition sentenceCount (textContent : string) : Z :=
  let n := Z.of_nat (length (Js.split Js.is_sentence_end textContent)) in
  if n =? 0 then 1 else n.

(** The contribution of one word to [syllableCount]. *)
Definition syllables (word : string) : Z :=
  let clean := Js.strip_final_e (Js.keep Js.is_lower (Js.toLowerCase word)) in
  let n := Js.runs Js.is_vowel clean in
  if n =? 0 then 1 else n.

Definition syllableCount (textContent : string) : Z :=
  fold_left (fun acc word => acc + syllables word) (words textContent) 0.

Definition avgSentenceLength (textContent : string) : Num.number :=
  Num.fdiv (wordCount textContent) (sentenceCount textContent).

Definition avgSyllablesPerWord (textContent : string) : Num.number :=
  Num.or_else (Num.fdiv (syllableCount textContent) (wordCount textContent))
              (Num.of_Z 1).

Definition flesch (asl asw : Num.number) : Num.number :=
  Num.fsub (Num.fsub (Num.literal (206835 # 1000))
                     (Num.fmul (Num.literal (1015 # 1000)) asl))
           (Num.fmul (Num.literal (846 # 10)) asw).

Definition readabilityScore (textContent : string) : Num.number :=
  Num.min (Num.of_Z 100)
    (Num.max (Num.of_Z 0)
       (Num.round (flesch (avgSentenceLength textContent)
                          (avgSyllablesPerWord textContent)))).

(** *** Structure score *)

Definition structureScore (structureCount : Z) : Z :=
  Z.min 100 (50 + structureCount * 5).

(** *** Keyword extraction *)

Definition stopWords : list string :=
  ["the"; "be"; "to"; "of"; "and"; "a"; "in"; "that"; "have"; "i"; "it";
   "for"; "not"; "on"; "with"; "he"; "as"; "you"; "do"; "at"; "this";
   "but"; "his"; "by"; "from"; "they"; "we"; "say"; "her"; "she"; "or";
   "an"; "will"; "my"; "one"; "all"; "would"; "there"; "their"; "what";
   "so"; "up"; "out"; "if"; "about"; "who"; "get"; "which"; "go"; "me";
   "is"; "are"; "was"; "were"].

Definition is_stop (w : string) : bool := existsb (String.eqb w) stopWords.

(** [word.toLowerCase().replace(/[^a-z]/g, '')] *)
Definition normalize (word : string) : string :=
  Js.keep Js.is_lower (Js.toLowerCase word).

(** The own properties of the [wordFreq] object, in creation order. *)
Definition object : Type := list (string * jsval).

Fixpoint own (o : object) (key : string) : option jsval :=
  match o with
  | [] => None
  | (k, v) :: o' => if String.eqb k key then Some v else own o' key
  end.

(** [wordFreq] is created by the literal [{}], so a key that is not an
    own property is looked up on [Object.prototype].  Keys are words over
    [a-z]; the only property of [Object.prototype] with such a name is
    [constructor], the function [Object].  The result is the text that
    the function converts to under [+]. *)
Definition object_prototype (key : string) : option string :=
  if String.eqb key "constructor"
  then Some "function Object() { [native code] }"
  else None.

Inductive property : Type :=
| Own (v : jsval)
| Inherited (source : string)
| Undefined.

(** [wordFreq[key]] *)
Definition get (o : object) (key : string) : property :=
  match own o key with
  | Some v => Own v
  | None =>
      match object_prototype key with
      | Some src => Inherited src
      | None => Undefined
      end
  end.

(** [(p || 0) + 1] *)
Definition or_zero_plus_one (p : property) : jsval :=
  match p with
  | Own (JNum n) => JNum (n + 1)
  | Own (JStr s) => if Js.truthy s then JStr (s +:+ "1") else JNum 1
  | Inherited src => JStr (src +:+ "1")
  | Undefined => JNum 1
  end.

(** [wordFreq[key] = v]: an existing own property keeps its position, a
    new one is created last. *)
Fixpoint set (o : object) (key : string) (v : jsval) : object :=
  match o with
  | [] => [(key, v)]
  | (k, w) :: o' =>
      if String.eqb k key then (k, v) :: o' else (k, w) :: set o' key v
  end.

(** One iteration of the keyword loop. *)
Definition count_word (wordFreq : object) (word : string) : object :=
  let clean := normalize word in
  if (Js.len clean >? 3) && negb (is_stop clean)
  then set wordFreq clean (or_zero_plus_one (get wordFreq clean))
  else wordFreq.

Definition wordFreq (ws : list string) : object :=
  fold_left count_word ws [].

(** [ToNumber]: the strings that [or_zero_plus_one] produces are not
    numeric literals and convert to [NaN] ([None]). *)
Definition to_number (v : jsval) : option Z :=
  match v with
  | JNum n => Some n
  | JStr _ => None
  end.

(** The comparator [([, a], [, b]) => b - a]; [None] is [NaN], which
    [sort] treats as [0]. *)
Definition by_count_desc (x y : string * jsval) : option Z :=
  match to_number (snd y), to_number (snd x) with
  | Some b, Some a => Some (b - a)
  | _, _ => None
  end.

(** [Array.prototype.sort] is stable: under a comparator that orders
    the elements consistently, an element goes after those that the
    comparator does not place behind it, as below. When the comparator
    returns [NaN] for some pairs only (a count that is not a number
    among unequal counts), ECMAScript leaves the order to the
    implementation; the list below is then one of the orders allowed and
    need not be the one a given engine returns. *)
Section Sort.
Context {A : Type} (cmp : A -> A -> option Z).

Definition after (x y : A) : bool :=
  match cmp x y with
  | Some d => d >? 0
  | None => false
  end.

Fixpoint insert (x : A) (sorted : list A) : list A :=
  match sorted with
  | [] => [x]
  | y :: ys => if after x y then y :: insert x ys else x :: y :: ys
  end.

Definition sort (l : list A) : list A := fold_right insert [] l.
End Sort.

(** [Object.entries(wordFreq).sort(...).slice(0, 5).map(...)] *)
Definition keywords_of (ws : list string) : list Keyword.t :=
  map (fun e => Keyword.mk (fst e) (snd e))
      (take 5 (sort by_count_desc (wordFreq ws))).

Definition keywords (textContent : string) : list Keyword.t :=
  keywords_of (words textContent).

(** *** SEO score *)

(** The five base rules. *)
Definition seoScore_base (sa : StaticAnalysis.t) : Z :=
  let title := StaticAnalysis.title sa in
  let metaDesc := StaticAnalysis.metaDesc sa in
  let seoScore := 0 in
  let seoScore :=
    if Js.truthy title && (Js.len title >=? 10) && (Js.len title <=? 60)
    then seoScore + 20
    else if Js.truthy title then seoScore + 10 else seoScore in
  let seoScore :=
    if Js.truthy metaDesc && (Js.len metaDesc >=? 50) && (Js.len metaDesc <=? 160)
    then seoScore + 20
    else if Js.truthy metaDesc then seoScore + 10 else seoScore in
  let seoScore :=
    match StaticAnalysis.h1 sa with
    | Some h => if Js.truthy h then seoScore + 20 else seoScore
    | None => seoScore
    end in
  let seoScore :=
    if StaticAnalysis.missingAltTags sa =? 0 then seoScore + 20 else seoScore in
  let seoScore :=
    if wordCount (StaticAnalysis.textContent sa) >? 300 then seoScore + 20
    else seoScore in
  seoScore.

(** [keywords.filter(k => headings.some(h => h.text.toLowerCase().includes(k.word))).length] *)
Definition keywordsInHeadings (kws : list Keyword.t) (hs : list Heading.t) : Z :=
  Z.of_nat (length
    (List.filter (fun k =>
               existsb (fun h => Js.includes (Keyword.word k)
                                    (Js.toLowerCase (Heading.text h))) hs)
            kws)).

(** One iteration of the heading hierarchy loop; the state is
    [(previousLevel, hierarchyIssues)] and [None] is [NaN]. *)
Definition hierarchy_step (st : option Z * Z) (h : Heading.t) : option Z * Z :=
  let '(previousLevel, hierarchyIssues) := st in
  let level := Js.parseInt (Js.substring1 (Heading.tag h)) in
  let hierarchyIssues :=
    match level, previousLevel with
    | Some l, Some p => if l >? p + 1 then hierarchyIssues + 1 else hierarchyIssues
    | _, _ => hierarchyIssues
    end in
  (level, hierarchyIssues).

Definition hierarchyIssues (hs : list Heading.t) : Z :=
  snd (fold_left hierarchy_step hs (Some 0, 0)).

Definition seoScore (sa : StaticAnalysis.t) : Z :=
  let hs := StaticAnalysis.headings sa in
  let seoScore := seoScore_base sa in
  let seoScore :=
    if keywordsInHeadings (keywords (StaticAnalysis.textContent sa)) hs >? 0
    then Z.min 100 (seoScore + 10) else seoScore in
  let seoScore :=
    if (hierarchyIssues hs =? 0) && (Z.of_nat (length hs) >? 0)
    then Z.min 100 (seoScore + 10) else seoScore in
  seoScore.

(** *** AI optimization score *)

Definition valuableSchemas : list string :=
  ["Article"; "Product"; "FAQPage"; "Organization"; "BreadcrumbList";
   "Recipe"; "Review"].

Definition questionWords : list string :=
  ["who"; "what"; "where"; "when"; "why"; "how"; "can"; "does"; "is"; "are"].

Definition questionHeadings (hs : list Heading.t) : Z :=
  Z.of_nat (length
    (List.filter (fun h =>
               let text := Js.toLowerCase (Heading.text h) in
               existsb (fun w => Js.startsWith w text) questionWords
               || Js.endsWith "?" text)
            hs)).

Definition aiScore (sa : StaticAnalysis.t) : Z :=
  let aiScore := 0 in
  let aiScore :=
    if StaticAnalysis.hasSchema sa then
      let aiScore := aiScore + 10 in
      let foundValuable :=
        existsb (fun t => existsb (String.eqb t) valuableSchemas)
                (StaticAnalysis.schemaTypes sa) in
      if foundValuable then aiScore + 30 else aiScore + 10
    else aiScore in
  let aiScore :=
    if structureScore (StaticAnalysis.structureCount sa) >? 70
    then aiScore + 15 else aiScore in
  let aiScore :=
    if Num.gt (readabilityScore (StaticAnalysis.textContent sa)) 60
    then aiScore + 15 else aiScore in
  let aiScore :=
    if questionHeadings (StaticAnalysis.headings sa) >? 0
    then aiScore + 15 else aiScore in
  let aiScore := if StaticAnalysis.hasAuthor sa then aiScore + 10 else aiScore in
  let aiScore := if StaticAnalysis.hasDate sa then aiScore + 5 else aiScore in
  Z.min 100 aiScore.

(** *** Text to code ratio *)

Definition textToCodeRatio (sa : StaticAnalysis.t) : Num.number :=
  if StaticAnalysis.htmlSize sa >? 0
  then Num.div (Js.len (StaticAnalysis.textContent sa)) (StaticAnalysis.htmlSize sa)
  else Num.of_Z 0.

(** The [contentMetrics] object of the final [return]. *)
Definition contentMetrics (sa : StaticAnalysis.t) : ContentMetrics.t :=
  let text := StaticAnalysis.textContent sa in
  {| ContentMetrics.wordCount := wordCount text;
     ContentMetrics.readabilityScore := readabilityScore text;
     ContentMetrics.structureScore := structureScore (StaticAnalysis.structureCount sa);
     ContentMetrics.hasSchema := StaticAnalysis.hasSchema sa;
     ContentMetrics.seoScore := seoScore sa;
     ContentMetrics.aiScore := aiScore sa;
     ContentMetrics.headings := StaticAnalysis.headings sa;
     ContentMetrics.keywords := keywords text;
     ContentMetrics.paragraphCount := StaticAnalysis.paragraphCount sa;
     ContentMetrics.schemaTypes := StaticAnalysis.schemaTypes sa;
     ContentMetrics.questionHeadings := questionHeadings (StaticAnalysis.headings sa);
     ContentMetrics.hasAuthor := StaticAnalysis.hasAuthor sa;
     ContentMetrics.hasDate := StaticAnalysis.hasDate sa;
     ContentMetrics.longParagraphs := StaticAnalysis.longParagraphs sa;
     ContentMetrics.textToCodeRatio := textToCodeRatio sa |}.

End Content.

(* ===================================================================== *)
(** ** The page analyzer ([analyzePage]) *)
(* ===================================================================== *)

Module Analyzer.

(** A thrown value: an [Error] object with its [name] and [message], or
    any other value. *)
Inductive Thrown : Type :=
| ErrorObject (name message : string)
| NonError.

(** The calls on the rendering surface, and their trace. *)
Inductive Op : Type :=
| SetViewport (width height : Z)
| Goto (url : string)
| EvaluateStatic
| EvaluateViewport (vp : ViewportName)
| Screenshot (filename : string).

Record Event : Type := mkEvent { op : Op; threw : option Thrown }.

(** Computations that may throw and that record the calls they make. *)
Definition M (A : Type) : Type := (Thrown + A) * list Event.

Definition ret {A} (a : A) : M A := (inr a, []).

Definition throw {A} (e : Thrown) : M A := (inl e, []).

Definition bind {A B} (m : M A) (k : A -> M B) : M B :=
  match m with
  | (inl e, log) => (inl e, log)
  | (inr a, log) => let '(r, log') := k a in (r, (log ++ log')%list)
  end.

(** [try { m } catch (e) { h e }] *)
Definition catch {A} (m : M A) (h : Thrown -> M A) : M A :=
  match m with
  | (inl e, log) => let '(r, log') := h e in (r, (log ++ log')%list)
  | (inr a, log) => (inr a, log)
  end.

(** An awaited call whose outcome the session supplies. *)
Definition call {A} (o : Op) (outcome : Thrown + A) : M A :=
  (outcome,
   [mkEvent o (match outcome with inl e => Some e | inr _ => None end)]).

Notation "'let*' x ':=' m 'in' k" := (bind m (fun x => k))
  (at level 10, x name, m at level 100, k at level 200).

(** What [page.goto] resolves to. *)
Record Response : Type := mkResponse { status : Z; ok : bool }.

(** What the per-viewport [page.evaluate] call returns. *)
Record Issues : Type := mkIssues {
  horizontalScroll : bool;
  overflowingElements : Z;
  smallTapTargets : Z;
  offendingElements : list string
}.

(** One page session: the outcome of every call that [analyzePage] makes
    on its [page] argument, on the file system and on the clock. The
    initial [setViewport] and the one of each sweep pass are separate
    calls; [goto] resolves to a response or to none. *)
Record Page : Type := mkPage {
  now_start : Z;
  now_loaded : Z;
  setViewport_initial : Thrown + unit;
  goto : string -> Thrown + option Response;
  evaluate_static : Thrown + StaticAnalysis.t;
  setViewport : ViewportName -> Thrown + unit;
  evaluate_viewport : ViewportName -> Thrown + Issues;
  now_issue : ViewportName -> Z;
  screenshot : string -> Thrown + unit
}.

Definition viewports : list ViewportName := [Desktop; Tablet; Mobile].

Definition name (vp : ViewportName) : string :=
  match vp with Desktop => "Desktop" | Tablet => "Tablet" | Mobile => "Mobile" end.

Definition width (vp : ViewportName) : Z :=
  match vp with Desktop => 1920 | Tablet => 768 | Mobile => 375 end.

Definition height (vp : ViewportName) : Z :=
  match vp with Desktop => 1080 | Tablet => 1024 | Mobile => 667 end.

(** [e instanceof Error && e.name === 'TimeoutError'] *)
Definition isTimeout (e : Thrown) : bool :=
  match e with
  | ErrorObject n _ => String.eqb n "TimeoutError"
  | NonError => false
  end.

(** [error instanceof Error ? error.message : 'Failed to fetch'] *)
Definition message_of (e : Thrown) : string :=
  match e with
  | ErrorObject _ m => m
  | NonError => "Failed to fetch"
  end.

(** The report with empty extraction fields. *)
Definition emptyReport (url : string) (responseTime statusCode : Z)
    (error : string) : PageAnalysis.t :=
  {| PageAnalysis.url := url;
     PageAnalysis.title := EmptyString;
     PageAnalysis.metaDescription := EmptyString;
     PageAnalysis.h1 := None;
     PageAnalysis.responseTime := responseTime;
     PageAnalysis.statusCode := statusCode;
     PageAnalysis.error := Some error;
     PageAnalysis.links := [];
     PageAnalysis.missingAltTags := 0;
     PageAnalysis.emptyLinks := 0;
     PageAnalysis.hasViewport := false;
     PageAnalysis.h1Count := 0;
     PageAnalysis.imagesMissingDimensions := 0;
     PageAnalysis.longWords := 0;
     PageAnalysis.viewportIssues := [];
     PageAnalysis.possibleTypos := [];
     PageAnalysis.contentMetrics := None |}.

(** The [return] of the [response && !response.ok()] branch. *)
Definition httpErrorReport (url : string) (responseTime statusCode : Z)
  : PageAnalysis.t :=
  emptyReport url responseTime statusCode ("HTTP " +:+ Js.of_int statusCode).

(** The [return] of the outer [catch]. *)
Definition failureReport (url : string) (e : Thrown) : PageAnalysis.t :=
  emptyReport url 0 0 (message_of e).

(** The [try] around [page.goto]. *)
Definition load (page : Page) (url : string) : M (option Response) :=
  catch (call (Goto url) (goto page url))
        (fun e => if isTimeout e then ret None else throw e).

Definition screenshotName (page : Page) (url : string) (vp : ViewportName)
  : string :=
  let timestamp := now_issue page vp in
  let safeUrl := Js.substring0 30 (Js.mask Js.is_alnum url) in
  "issue_" +:+ safeUrl +:+ "_" +:+ name vp +:+ "_" +:+ Js.of_int timestamp +:+ ".jpg".

(** One iteration of the viewport loop. The settle delay has no outcome
    and leaves no trace; creating the directory and taking the screenshot
    share one [try], whose outcome is [screenshot]. *)
Definition measure (page : Page) (url : string) (vp : ViewportName)
  : M ViewportIssue.t :=
  let* _ := call (SetViewport (width vp) (height vp)) (setViewport page vp) in
  let* issues := call (EvaluateViewport vp) (evaluate_viewport page vp) in
  let* screenshotPath :=
    if horizontalScroll issues || (overflowingElements issues >? 0) then
      let filename := screenshotName page url vp in
      catch (let* _ := call (Screenshot filename) (screenshot page filename) in
             ret (Some ("/screenshots/" +:+ filename)))
            (fun _ => ret None)
    else ret None in
  ret {| ViewportIssue.viewport := vp;
         ViewportIssue.horizontalScroll := horizontalScroll issues;
         ViewportIssue.overflowingElements := overflowingElements issues;
         ViewportIssue.smallTapTargets := smallTapTargets issues;
         ViewportIssue.offendingElements := offendingElements issues;
         ViewportIssue.screenshotPath := screenshotPath |}.

(** The viewport loop: [viewportIssues] grows by one entry per pass. *)
Fixpoint sweep (page : Page) (url : string) (vps : list ViewportName)
  : M (list ViewportIssue.t) :=
  match vps with
  | [] => ret []
  | vp :: rest =>
      let* issue := measure page url vp in
      let* issues := sweep page url rest in
      ret (issue :: issues)
  end.

(** The final [return]. *)
Definition fullReport (spell : option (string -> bool)) (url : string)
    (responseTime statusCode : Z) (sa : StaticAnalysis.t)
    (viewportIssues : list ViewportIssue.t) : PageAnalysis.t :=
  let '(possibleTypos, longWords) :=
    Content.scan_words spell (Content.words (StaticAnalysis.textContent sa)) in
  {| PageAnalysis.url := url;
     PageAnalysis.title := StaticAnalysis.title sa;
     PageAnalysis.metaDescription := StaticAnalysis.metaDesc sa;
     PageAnalysis.h1 := StaticAnalysis.h1 sa;
     PageAnalysis.responseTime := responseTime;
     PageAnalysis.statusCode := statusCode;
     PageAnalysis.error := None;
     PageAnalysis.links := StaticAnalysis.links sa;
     PageAnalysis.missingAltTags := StaticAnalysis.missingAltTags sa;
     PageAnalysis.emptyLinks := StaticAnalysis.emptyLinks sa;
     PageAnalysis.hasViewport := StaticAnalysis.hasViewport sa;
     PageAnalysis.h1Count := StaticAnalysis.h1Count sa;
     PageAnalysis.imagesMissingDimensions := StaticAnalysis.imagesMissingDimensions sa;
     PageAnalysis.longWords := longWords;
     PageAnalysis.viewportIssues := viewportIssues;
     PageAnalysis.possibleTypos := take 5 possibleTypos;
     PageAnalysis.contentMetrics := Some (Content.contentMetrics sa) |}.

(** The body of the outer [try]. *)
Definition analyzePage_try (spell : option (string -> bool)) (page : Page)
    (url : string) : M PageAnalysis.t :=
  let startTime := now_start page in
  let* _ := call (SetViewport 1920 1080) (setViewport_initial page) in
  let* response := load page url in
  let endTime := now_loaded page in
  let responseTime := endTime - startTime in
  let statusCode := match response with Some r => status r | None => 0 end in
  if match response with Some r => negb (ok r) | None => false end
  then ret (httpErrorReport url responseTime statusCode)
  else
    let* staticAnalysis := call EvaluateStatic (evaluate_static page) in
    let* viewportIssues := sweep page url viewports in
    ret (fullReport spell url responseTime statusCode staticAnalysis viewportIssues).

(** [analyzePage]: the report, and the trace of the calls made. *)
Definition analyzePage_traced (spell : option (string -> bool)) (page : Page)
    (url : string) : PageAnalysis.t * list Event :=
  match analyzePage_try spell page url with
  | (inr report, log) => (report, log)
  | (inl error, log) => (failureReport url error, log)
  end.

Definition analyzePage (spell : option (string -> bool)) (page : Page)
    (url : string) : PageAnalysis.t :=
  fst (analyzePage_traced spell page url).

(** The failures that [analyzePage] absorbs on the spot: a navigation
    timeout, and a failure to write a screenshot. *)
Definition absorbed (ev : Event) : Prop :=
  match threw ev with
  | None => True
  | Some e =>
      match op ev with
      | Goto _ => isTimeout e = true
      | Screenshot _ => True
      | _ => False
      end
  end.

(** A computation is well traced when every failure in its trace was
    absorbed, except the last one when the computation throws. *)
Definition well_traced {A} (m : M A) : Prop :=
  match m with
  | (inr _, log) => Forall absorbed log
  | (inl e, log) =>
      exists earlier o, log = (earlier ++ [mkEvent o (Some e)])%list
                        /\ Forall absorbed earlier
  end.

End Analyzer.

(* ===================================================================== *)
(** ** The crawl frontier controller ([crawlSite]) *)
(* ===================================================================== *)

Module Crawler.

Import Analyzer.

(** The fields of a parsed [URL] that the crawler reads; [href] is what
    [toString()] returns. *)
Record URL : Type := mkURL { href : string; hostname : string; protocol : string }.

(** [new URL(input, base)]; [None] when the constructor throws. *)
Definition Parser : Type := option string -> string -> option URL.

(** The browser: [newPage n] is the outcome of opening (and configuring)
    the page for the analysis number [n], [closePage n] that of closing
    it again, and [close] that of [browser.close()]. *)
Record Browser : Type := mkBrowser {
  newPage : Z -> Thrown + Page;
  closePage : Z -> Thrown + unit;
  close : Thrown + unit
}.

Record Entry : Type := mkEntry { url : string; depth : Z }.

(** The variables of the generator. [yielded] lists the reports handed
    to the consumer so far. *)
Record State : Type := mkState {
  visited : gset string;
  queue : list Entry;
  pagesCrawled : Z;
  yielded : list PageAnalysis.t
}.

(** The result of one pass through the [while] loop. *)
Inductive Iteration : Type :=
| Exit
| Next (st : State)
| Raise (e : Thrown) (st : State).

Section Loop.

Context (parse : Parser) (spell : option (string -> bool))
        (browser : Browser) (options : CrawlOptions.t)
        (allowedDomain : string).

(** The body of [for (const link of analysis.links)]. *)
Definition enqueue_link (pageUrl : string) (pageDepth : Z) (seen : gset string)
    (q : list Entry) (link : string) : list Entry :=
  match parse (Some pageUrl) link with
  | None => q
  | Some resolved =>
      let absoluteUrl := href resolved in
      match parse None absoluteUrl with
      | None => q
      | Some urlObj =>
          if String.eqb (hostname urlObj) allowedDomain
             && (String.eqb (protocol urlObj) "http:"
                 || String.eqb (protocol urlObj) "https:")
          then
            let cleanUrl := Js.before_hash absoluteUrl in
            if decide (cleanUrl ∈ seen) then q
            else (q ++ [mkEntry cleanUrl (pageDepth + 1)])%list
          else q
      end
  end.

Definition enqueue_links (e : Entry) (seen : gset string)
    (analysis : PageAnalysis.t) (q : list Entry) : list Entry :=
  if depth e <? CrawlOptions.maxDepth options
  then fold_left (enqueue_link (url e) (depth e) seen) (PageAnalysis.links analysis) q
  else q.

Definition iteration (st : State) : Iteration :=
  match queue st with
  | [] => Exit
  | e :: rest =>
      if pagesCrawled st <? CrawlOptions.maxPages options then
        if decide (url e ∈ visited st) then
          Next (mkState (visited st) rest (pagesCrawled st) (yielded st))
        else
          let seen := {[url e]} ∪ visited st in
          match newPage browser (pagesCrawled st) with
          | inl err => Raise err (mkState seen rest (pagesCrawled st) (yielded st))
          | inr page =>
              let analysis := analyzePage spell page (url e) in
              match closePage browser (pagesCrawled st) with
              | inl err =>
                  Raise err (mkState seen rest (pagesCrawled st) (yielded st))
              | inr _ =>
                  Next (mkState seen
                                (enqueue_links e seen analysis rest)
                                (pagesCrawled st + 1)
                                (yielded st ++ [analysis])%list)
              end
          end
      else Exit
  end.

(** Pages still allowed, then entries still queued. *)
Definition fuel (st : State) : nat * nat :=
  (Z.to_nat (CrawlOptions.maxPages options - pagesCrawled st),
   length (queue st)).

(** How the generator ends: the final variables and, when it ends with
    an exception, that exception. *)
Record Run : Type := mkRun { final : State; raised : option Thrown }.

Definition inspect {A} (a : A) : {b : A | a = b} := exist _ a eq_refl.

Equations? crawl_loop (st : State) : Run by wf (fuel st) (Subterm.lexprod nat nat lt lt) :=
  crawl_loop st with inspect (iteration st) := {
    | exist _ Exit _ => mkRun st None
    | exist _ (Raise e st') _ => mkRun st' (Some e)
    | exist _ (Next st') H => crawl_loop st'
  }.
Proof.
  revert H. unfold iteration, fuel.
  destruct (queue st) as [|e rest]; [discriminate|].
  destruct (Z.ltb_spec (pagesCrawled st) (CrawlOptions.maxPages options));
    [|discriminate].
  destruct (decide (url e ∈ visited st)).
  - intros [= <-]; cbn. apply Subterm.right_lex. lia.
  - destruct (newPage browser (pagesCrawled st)); [discriminate|].
    destruct (closePage browser (pagesCrawled st)); [discriminate|].
    intros [= <-]; cbn. apply Subterm.left_lex. lia.
Qed.

End Loop.

(** The world outside the generator. *)
Record World : Type := mkWorld {
  launch : Thrown + Browser;
  parse : Parser;
  spell : option (string -> bool)
}.

(** [new URL(startUrl)] throws a [TypeError] on an unparseable input. *)
Definition invalidUrl : Thrown := ErrorObject "TypeError" "Invalid URL".

Definition initial (startUrl : string) : State :=
  mkState ∅ [mkEntry startUrl 0] 0 [].

(** The [try] block: the start URL is parsed, then the loop runs. *)
Definition crawl_try (w : World) (browser : Browser) (startUrl : string)
    (options : CrawlOptions.t) : Run :=
  match parse w None startUrl with
  | None => mkRun (initial startUrl) (Some invalidUrl)
  | Some startUrlObj =>
      crawl_loop (parse w) (spell w) browser options (hostname startUrlObj)
                 (initial startUrl)
  end.

(** The generator, driven to its end. The browser is launched before the
    [try]; the [finally] awaits [browser.close()] however the [try] block
    ended, and an exception of that call replaces the one pending. *)
Definition crawlSite (w : World) (startUrl : string) (options : CrawlOptions.t)
  : Run :=
  match launch w with
  | inl e => mkRun (initial startUrl) (Some e)
  | inr browser =>
      let attempt := crawl_try w browser startUrl options in
      match close browser with
      | inl e => mkRun (final attempt) (Some e)
      | inr _ => attempt
      end
  end.

(** The reports that a crawl delivers. *)
Definition reports (r : Run) : list PageAnalysis.t := yielded (final r).

End Crawler.

(* ===================================================================== *)
(** ** The scoring rules in the words of the specification *)
(* ===================================================================== *)

Module Spec.

(** The Flesch Reading Ease of a text with [w] words, [s] sentences and
    [y] syllables. *)
Definition flesch_ease (w s y : Z) : Q :=
  ((206835 # 1000) - (1015 # 1000) * (inject_Z w / inject_Z s)
                   - (846 # 10) * (inject_Z y / inject_Z w))%Q.

(** The same formula evaluated in binary64, from left to right: the
    three literals and the results of the two quotients, the two
    products and the two differences are each rounded to the nearest
    double. *)
Definition flesch_double (w s y : Z) : Q :=
  let r := Num.b64 in
  r (r (r (206835 # 1000) - r (r (1015 # 1000) * r (inject_Z w / inject_Z s)))
     - r (r (846 # 10) * r (inject_Z y / inject_Z w)))%Q.

(** *** Keyword extraction *)

(** A token, lowercased and with its non-alphabetic characters removed. *)
Definition token (word : string) : string :=
  Js.keep Js.is_alpha (Js.toLowerCase word).

(** Tokens of at most three characters and stop words are discarded. *)
Definition kept (t : string) : bool :=
  negb (Js.len t <=? 3) && negb (existsb (String.eqb t) Content.stopWords).

Definition tokens (text : string) : list string :=
  List.filter kept (map token (Content.words text)).

(** The number of times [t] occurs in [l]. *)
Fixpoint occurrences (t : string) (l : list string) : Z :=
  match l with
  | [] => 0
  | x :: l' => (if String.eqb x t then 1 else 0) + occurrences t l'
  end.

(** The distinct elements of [l], each at its first occurrence. *)
Fixpoint first_seen (l : list string) : list string :=
  match l with
  | [] => []
  | x :: l' => x :: List.filter (fun y => negb (String.eqb y x)) (first_seen l')
  end.

(** Each distinct token with its frequency, in first-encountered order. *)
Definition frequencies (text : string) : list (string * Z) :=
  map (fun t => (t, occurrences t (tokens text))) (first_seen (tokens text)).

(** Descending count; the stable sort keeps first-encountered order among
    equal counts. *)
Definition by_count_desc (x y : string * Z) : option Z := Some (snd y - snd x).

(** The top five keywords, each with its count. *)
Definition keywords (text : string) : list (string * Z) :=
  take 5 (Content.sort by_count_desc (frequencies text)).

(** The update that the keyword loop applies for a token it keeps. *)
Definition bump (o : Content.object) (t : string) : Content.object :=
  Content.set o t (Content.or_zero_plus_one (Content.get o t)).

(** The object that holds the counts of the tokens [seen] so far. *)
Definition tally (seen : list string) : Content.object :=
  map (fun t => (t, JNum (Spec.occurrences t seen))) (Spec.first_seen seen).

End Spec.

(* ===================================================================== *)
(** ** Sample page sessions *)
(* ===================================================================== *)

Module Samples.

Import Analyzer.

Definition document (links : list string) : StaticAnalysis.t :=
  {| StaticAnalysis.title := "Example Domain";
     StaticAnalysis.metaDesc := EmptyString;
     StaticAnalysis.h1 := Some "Example Domain";
     StaticAnalysis.missingAltTags := 0;
     StaticAnalysis.emptyLinks := 0;
     StaticAnalysis.hasViewport := true;
     StaticAnalysis.h1Count := 1;
     StaticAnalysis.imagesMissingDimensions := 0;
     StaticAnalysis.textContent := "Example Domain. This domain is for use in examples.";
     StaticAnalysis.links := links;
     StaticAnalysis.hasSchema := false;
     StaticAnalysis.structureCount := 0;
     StaticAnalysis.paragraphCount := 1;
     StaticAnalysis.headings := [Heading.mk "H1" "Example Domain"];
     StaticAnalysis.longParagraphs := 0;
     StaticAnalysis.htmlSize := 1256;
     StaticAnalysis.schemaTypes := [];
     StaticAnalysis.hasAuthor := false;
     StaticAnalysis.hasDate := false |}.

Definition noIssues : Issues := mkIssues false 0 0 [].

(** A page that loads with status 200 and exposes [links]. *)
Definition healthy (links : list string) : Page :=
  {| now_start := 1000;
     now_loaded := 1250;
     setViewport_initial := inr tt;
     goto := fun _ => inr (Some (mkResponse 200 true));
     evaluate_static := inr (document links);
     setViewport := fun _ => inr tt;
     evaluate_viewport := fun _ => inr noIssues;
     now_issue := fun _ => 2000;
     screenshot := fun _ => inr tt |}.

(** A page that answers 404. *)
Definition missing : Page :=
  {| now_start := 1000;
     now_loaded := 1100;
     setViewport_initial := inr tt;
     goto := fun _ => inr (Some (mkResponse 404 false));
     evaluate_static := inr (document []);
     setViewport := fun _ => inr tt;
     evaluate_viewport := fun _ => inr noIssues;
     now_issue := fun _ => 2000;
     screenshot := fun _ => inr tt |}.

Definition timeout : Thrown :=
  ErrorObject "TimeoutError" "Navigation timeout of 30000 ms exceeded".

(** A page whose navigation times out after the document was parsed. *)
Definition slow : Page :=
  {| now_start := 1000;
     now_loaded := 31000;
     setViewport_initial := inr tt;
     goto := fun _ => inl timeout;
     evaluate_static := inr (document []);
     setViewport := fun _ => inr tt;
     evaluate_viewport := fun _ => inr noIssues;
     now_issue := fun _ => 32000;
     screenshot := fun _ => inr tt |}.

Definition diskFull : Thrown :=
  ErrorObject "Error" "ENOSPC: no space left on device".

(** A page that scrolls horizontally on every viewport while the
    screenshot cannot be written. *)
Definition unwritable : Page :=
  {| now_start := 1000;
     now_loaded := 1250;
     setViewport_initial := inr tt;
     goto := fun _ => inr (Some (mkResponse 200 true));
     evaluate_static := inr (document []);
     setViewport := fun _ => inr tt;
     evaluate_viewport := fun _ => inr (mkIssues true 0 0 []);
     now_issue := fun _ => 2000;
     screenshot := fun _ => inl diskFull |}.

Definition detached : Thrown :=
  ErrorObject "Error" "Execution context was destroyed".

(** A page on which the static evaluation fails with [e]. *)
Definition crashing (e : Thrown) : Page :=
  {| now_start := 1000;
     now_loaded := 1250;
     setViewport_initial := inr tt;
     goto := fun _ => inr (Some (mkResponse 200 true));
     evaluate_static := inl e;
     setViewport := fun _ => inr tt;
     evaluate_viewport := fun _ => inr noIssues;
     now_issue := fun _ => 2000;
     screenshot := fun _ => inr tt |}.

Fixpoint filler (n : nat) : string :=
  match n with
  | O => "end."
  | S n' => "word " +:+ filler n'
  end.

(** [n] times [word], then [rest]. *)
Fixpoint times (n : nat) (word rest : string) : string :=
  match n with
  | O => rest
  | S n' => word +:+ times n' word rest
  end.

(** A text of 520 words in 14 sentences with 637 syllables: 117 words
    of two syllables and 403 of one, 13 of them closing a sentence. *)
Definition halfway : string :=
  times 117 "baba " (times 13 "ba. " (times 389 "ba " "ba")).

(** The scenario page: a 24-character title, an 80-character meta
    description, one H1, no image without alt text, 350 words. *)
Definition productPage : StaticAnalysis.t :=
  {| StaticAnalysis.title := "Great Product Page Title";
     StaticAnalysis.metaDesc :=
       "A short summary of the product page that tells a searcher what is sold here, ok.";
     StaticAnalysis.h1 := Some "Great Product";
     StaticAnalysis.missingAltTags := 0;
     StaticAnalysis.emptyLinks := 0;
     StaticAnalysis.hasViewport := true;
     StaticAnalysis.h1Count := 1;
     StaticAnalysis.imagesMissingDimensions := 0;
     StaticAnalysis.textContent := filler 349;
     StaticAnalysis.links := [];
     StaticAnalysis.hasSchema := false;
     StaticAnalysis.structureCount := 0;
     StaticAnalysis.paragraphCount := 1;
     StaticAnalysis.headings := [Heading.mk "H1" "Great Product"];
     StaticAnalysis.longParagraphs := 0;
     StaticAnalysis.htmlSize := 4000;
     StaticAnalysis.schemaTypes := [];
     StaticAnalysis.hasAuthor := false;
     StaticAnalysis.hasDate := false |}.

End Samples.

(* ===================================================================== *)
(** ** Notions used to state the crawl properties *)
(* ===================================================================== *)

Module Frontier.

Import Crawler.

(** The loop unrolled at most [n] times; [None] when [n] passes do not
    reach the end. Used to evaluate [crawl_loop] on given worlds. *)
Fixpoint crawl_steps (parse : Parser) (spell : option (string -> bool))
    (browser : Browser) (options : CrawlOptions.t) (allowedDomain : string)
    (n : nat) (st : State) : option Run :=
  match n with
  | O => None
  | S n' =>
      match iteration parse spell browser options allowedDomain st with
      | Exit => Some (mkRun st None)
      | Raise e st' => Some (mkRun st' (Some e))
      | Next st' => crawl_steps parse spell browser options allowedDomain n' st'
      end
  end.

(** [v] is the fragment-stripped absolute form of a link that the report
    [r] lists, resolved against the report's own URL. *)
Definition resolves (parse : Parser) (r : PageAnalysis.t) (v : string) : Prop :=
  exists link resolved,
    In link (PageAnalysis.links r)
    /\ parse (Some (PageAnalysis.url r)) link = Some resolved
    /\ v = Js.before_hash (href resolved).

(** The test that a link of the page at [pageUrl] passes before it is
    pushed as [v], [seen] being the visited set. *)
Definition passes (parse : Parser) (allowedDomain : string)
    (pageUrl : string) (seen : gset string) (link v : string) : Prop :=
  exists resolved urlObj,
    parse (Some pageUrl) link = Some resolved
    /\ parse None (href resolved) = Some urlObj
    /\ hostname urlObj = allowedDomain
    /\ (protocol urlObj = "http:" \/ protocol urlObj = "https:")
    /\ v = Js.before_hash (href resolved)
    /\ v ∉ seen.

(** [v] was admitted to the frontier as a link of the report [r]. *)
Definition admitted (parse : Parser) (allowedDomain : string)
    (r : PageAnalysis.t) (v : string) : Prop :=
  exists link seen,
    In link (PageAnalysis.links r)
    /\ passes parse allowedDomain (PageAnalysis.url r) seen link v.

(** [reachable parse startUrl rs d v]: there is a path of [d] links from
    the start URL to [v] through pages whose reports are among [rs]. *)
Inductive reachable (parse : Parser) (startUrl : string)
    (rs : list PageAnalysis.t) : nat -> string -> Prop :=
| reach_start : reachable parse startUrl rs O startUrl
| reach_link d r v :
    reachable parse startUrl rs d (PageAnalysis.url r) ->
    In r rs -> resolves parse r v ->
    reachable parse startUrl rs (S d) v.

(** *** Invariants of the generator's variables *)

Section Invariants.

Context (parse : Parser) (options : CrawlOptions.t)
        (allowedDomain : string) (startUrl : string).

(** The page counter counts the reports and respects the cap. *)
Definition counted (st : State) : Prop :=
  pagesCrawled st = Z.of_nat (length (yielded st))
  /\ pagesCrawled st <= Z.max 0 (CrawlOptions.maxPages options).

(** No URL was reported twice, and every reported URL is marked visited. *)
Definition unique (st : State) : Prop :=
  NoDup (map PageAnalysis.url (yielded st))
  /\ forall r, In r (yielded st) -> PageAnalysis.url r ∈ visited st.

(** Every URL queued or reported carries no fragment. *)
Definition stripped (st : State) : Prop :=
  (forall e, In e (queue st) -> Js.before_hash (url e) = url e)
  /\ forall r, In r (yielded st) ->
       Js.before_hash (PageAnalysis.url r) = PageAnalysis.url r.

(** [u] is the start URL or was admitted as a link of a reported page. *)
Definition origin (rs : list PageAnalysis.t) (u : string) : Prop :=
  u = startUrl \/ exists page, In page rs /\ admitted parse allowedDomain page u.

Definition confined (st : State) : Prop :=
  (forall e, In e (queue st) -> origin (yielded st) (url e))
  /\ forall r, In r (yielded st) -> origin (yielded st) (PageAnalysis.url r).

(** [u] is reachable by a path of [k] links, and [k] is within the depth
    limit, or is 0 when the limit is negative. *)
Definition within (rs : list PageAnalysis.t) (u : string) (k : Z) : Prop :=
  exists d, k = Z.of_nat d /\ k <= Z.max 0 (CrawlOptions.maxDepth options)
            /\ reachable parse startUrl rs d u.

Definition bounded (st : State) : Prop :=
  (forall e, In e (queue st) -> within (yielded st) (url e) (depth e))
  /\ forall r, In r (yielded st) ->
       exists k, within (yielded st) (PageAnalysis.url r) k.

End Invariants.

End Frontier.

(* ===================================================================== *)
(** ** Sample sites *)
(* ===================================================================== *)

Module Sites.

Import Analyzer Crawler.

Definition example_com (href : string) : URL := mkURL href "example.com" "https:".

(** What [new URL(input, base)] yields on the URLs of the sample sites;
    every other input is rejected. *)
Definition parseSample : Parser := fun base input =>
  if String.eqb input "https://example.com/#top" then Some (example_com input)
  else if String.eqb input "https://example.com/" then Some (example_com input)
  else if String.eqb input "https://example.com/about#team" then Some (example_com input)
  else if String.eqb input "https://example.com/about" then Some (example_com input)
  else if String.eqb input "https://example.com/deep" then Some (example_com input)
  else if String.eqb input "https://other.org/" then Some (mkURL input "other.org" "https:")
  else if String.eqb input "mailto:info@example.com" then Some (mkURL input EmptyString "mailto:")
  else None.

(** A site whose every page links to the home page. *)
Definition homeLinked : World :=
  {| launch := inr {| newPage := fun _ => inr (Samples.healthy ["https://example.com/"]);
                      closePage := fun _ => inr tt;
                      close := inr tt |};
     parse := parseSample;
     spell := None |}.

(** A site whose home page links to a page of its own (with a fragment),
    to another host, to a mail address and to an unparseable address, and
    whose second page links further down. *)
Definition mixed : World :=
  {| launch :=
       inr {| newPage := fun n =>
                if n =? 0 then
                  inr (Samples.healthy
                         ["https://example.com/about#team"; "https://other.org/";
                          "mailto:info@example.com"; "http://[";
                          "https://example.com/about"])
                else inr (Samples.healthy ["https://example.com/deep"]);
              closePage := fun _ => inr tt;
              close := inr tt |};
     parse := parseSample;
     spell := None |}.

End Sites.


(* ===================================================================== *)
(** ** Further samples *)
(* ===================================================================== *)

Module MoreSamples.

(** A document without any heading. *)
Definition plainText : StaticAnalysis.t :=
  {| StaticAnalysis.title := "Notes";
     StaticAnalysis.metaDesc := EmptyString;
     StaticAnalysis.h1 := None;
     StaticAnalysis.missingAltTags := 2;
     StaticAnalysis.emptyLinks := 0;
     StaticAnalysis.hasViewport := false;
     StaticAnalysis.h1Count := 0;
     StaticAnalysis.imagesMissingDimensions := 0;
     StaticAnalysis.textContent := "Some notes about the crawl, without any heading.";
     StaticAnalysis.links := [];
     StaticAnalysis.hasSchema := false;
     StaticAnalysis.structureCount := 0;
     StaticAnalysis.paragraphCount := 1;
     StaticAnalysis.headings := [];
     StaticAnalysis.longParagraphs := 0;
     StaticAnalysis.htmlSize := 300;
     StaticAnalysis.schemaTypes := [];
     StaticAnalysis.hasAuthor := false;
     StaticAnalysis.hasDate := false |}.

(** The browser of [Sites.mixed]. *)
Definition mixedBrowser : Crawler.Browser :=
  {| Crawler.newPage := fun n =>
       if n =? 0 then
         inr (Samples.healthy
                ["https://example.com/about#team"; "https://other.org/";
                 "mailto:info@example.com"; "http://[";
                 "https://example.com/about"])
       else inr (Samples.healthy ["https://example.com/deep"]);
     Crawler.closePage := fun _ => inr tt;
     Crawler.close := inr tt |}.

(** The same browser when it cannot be closed in the end, and a site
    served by it. *)
Definition targetClosed : Analyzer.Thrown :=
  Analyzer.ErrorObject "Error" "Protocol error: Target closed".

Definition stuckBrowser : Crawler.Browser :=
  {| Crawler.newPage := Crawler.newPage mixedBrowser;
     Crawler.closePage := Crawler.closePage mixedBrowser;
     Crawler.close := inl targetClosed |}.

Definition stuck : Crawler.World :=
  {| Crawler.launch := inr stuckBrowser;
     Crawler.parse := Sites.parseSample;
     Crawler.spell := None |}.

(** The crawl of [Sites.mixed] with a cap of two pages, by unrolling. *)
Definition mixedRun : Crawler.Run :=
  match Frontier.crawl_steps Sites.parseSample None mixedBrowser
          (CrawlOptions.mk 2 2) "example.com" 5
          (Crawler.initial "https://example.com/") with
  | Some run => run
  | None => Crawler.mkRun (Crawler.initial "https://example.com/") None
  end.

(** A serialization that keeps the URL only, and its inverse on a given
    list of reports. *)
Definition byUrl (rs : list PageAnalysis.t) (line : string)
  : option PageAnalysis.t :=
  find (fun r => String.eqb (PageAnalysis.url r) line) rs.

(** A clean page and a page that was not found. *)
Definition cleanReport : PageAnalysis.t :=
  Analyzer.analyzePage None (Samples.healthy []) "https://example.com/".

Definition notFoundReport : PageAnalysis.t :=
  Analyzer.analyzePage None Samples.missing "https://example.com/gone".

End MoreSamples.

(* ===================================================================== *)
(** ** Notions used to state further properties *)
(* ===================================================================== *)

Module Outline.

(** The level that the hierarchy check reads off a heading. *)
Definition level (h : Heading.t) : option Z :=
  Js.parseInt (Js.substring1 (Heading.tag h)).

(** No heading is more than one level deeper than the one before it,
    [prev] being the level before the first. *)
Fixpoint no_skip (prev : Z) (levels : list Z) : Prop :=
  match levels with
  | [] => True
  | l :: ls => l <= prev + 1 /\ no_skip l ls
  end.

(** What makes a cleaned word a possible typo. *)
Definition suspect (spell : option (string -> bool)) (t : string) : Prop :=
  exists correct,
    spell = Some correct
    /\ correct t = false
    /\ Js.test_all_plus Js.is_alpha t = true
    /\ 3 < Js.len t.

(** What the keyword loop requires of a key. *)
Definition keyword_of (ws : list string) (k : string) : Prop :=
  3 < Js.len k
  /\ Js.all Js.is_lower k = true
  /\ Content.is_stop k = false
  /\ exists w, In w ws /\ Content.normalize w = k.

(** Whether a measurement calls for a screenshot. *)
Definition flagged (i : Analyzer.Issues) : bool :=
  Analyzer.horizontalScroll i || (Analyzer.overflowingElements i >? 0).

(** The entry that a successful pass of the viewport loop records. *)
Definition recorded (page : Analyzer.Page) (url : string)
    (vp : ViewportName) (issue : ViewportIssue.t) : Prop :=
  exists i,
    Analyzer.evaluate_viewport page vp = inr i
    /\ issue
       = {| ViewportIssue.viewport := vp;
            ViewportIssue.horizontalScroll := Analyzer.horizontalScroll i;
            ViewportIssue.overflowingElements := Analyzer.overflowingElements i;
            ViewportIssue.smallTapTargets := Analyzer.smallTapTargets i;
            ViewportIssue.offendingElements := Analyzer.offendingElements i;
            ViewportIssue.screenshotPath :=
              if flagged i then
                match Analyzer.screenshot page (Analyzer.screenshotName page url vp) with
                | inr _ => Some ("/screenshots/" +:+ Analyzer.screenshotName page url vp)
                | inl _ => None
                end
              else None |}.

End Outline.

(* ===================================================================== *)
(** ** The states of a crawl *)
(* ===================================================================== *)

Module Traversal.

Import Crawler.

Section Reached.

Context (parse : Parser) (spell : option (string -> bool))
        (browser : Browser) (options : CrawlOptions.t)
        (allowedDomain : string) (startUrl : string).

(** The values that the generator's variables take at the head of the
    loop. *)
Inductive reached : State -> Prop :=
| reached_initial : reached (initial startUrl)
| reached_next st st' :
    reached st ->
    iteration parse spell browser options allowedDomain st = Next st' ->
    reached st'.

End Reached.

(** The queue holds entries of one depth followed by entries of the next
    depth. *)
Definition layered (q : list Entry) : Prop :=
  exists d front back,
    q = (front ++ back)%list
    /\ (forall e, In e front -> depth e = d)
    /\ (forall e, In e back -> depth e = d + 1).

End Traversal.

(* ===================================================================== *)
(** ** String primitives of the in-page check, the route and the form *)
(* ===================================================================== *)

Module Text.

(** The line feed, and the one-character string ['\n']. *)
Definition LF : ascii := "010"%char.
Definition newline : string := String LF EmptyString.

(** [s.split(c)] for a one-character separator: every occurrence
    separates two fields, so there is one field more than separators. *)
Fixpoint split_on (sep : ascii) (s : string) : list string :=
  match s with
  | EmptyString => [EmptyString]
  | String c s' =>
      if Ascii.eqb c sep then EmptyString :: split_on sep s'
      else
        match split_on sep s' with
        | f :: fs => String c f :: fs
        | [] => [String c EmptyString]
        end
  end.

(** [fields.join(sep)] *)
Fixpoint join (sep : string) (fields : list string) : string :=
  match fields with
  | [] => EmptyString
  | [f] => f
  | f :: fs => f +:+ sep +:+ join sep fs
  end.

(** [s.trimStart()] *)
Fixpoint trimStart (s : string) : string :=
  match s with
  | EmptyString => EmptyString
  | String c s' => if Js.is_space c then trimStart s' else s
  end.

(** [s.trim()] *)
Definition trim (s : string) : string :=
  String.rev (trimStart (String.rev (trimStart s))).

(** A text that [trimStart] leaves alone: empty, or starting with a
    character that is not white space. *)
Definition headed (s : string) : Prop :=
  match s with
  | EmptyString => True
  | String c _ => Js.is_space c = false
  end.

(** The value of the longest prefix of decimal digits, and whether there
    is one. *)
Fixpoint digits (s : string) (acc : option Z) : option Z :=
  match s with
  | EmptyString => acc
  | String c s' =>
      if Js.is_digit c then
        let d := Z.of_N (Js.code c) - 48 in
        digits s' (Some (match acc with Some a => 10 * a + d | None => d end))
      else acc
  end.

(** [parseInt(s, 10)]: leading white space is skipped, one sign is read,
    then the longest prefix of decimal digits; [None] stands for [NaN].
    The result is the mathematical integer: beyond 2^53 the double that
    JavaScript returns is the nearest one, which lies on the same side of
    every smaller integer. *)
Definition parseInt10 (s : string) : option Z :=
  match trimStart s with
  | String "-" s' => option_map Z.opp (digits s' None)
  | String "+" s' => digits s' None
  | s' => digits s' None
  end.

End Text.

(* ===================================================================== *)
(** ** The per-viewport check that runs in the page *)
(* ===================================================================== *)

Module Dom.

Local Open Scope Q_scope.

(** The computed style properties that the check reads. *)
Record Style : Type := mkStyle {
  display : string;
  visibility : string;
  opacity : string;
  overflowX : string;
  overflow : string;
  padding : string;
  backgroundColor : string;
  borderWidth : string
}.

(** [getBoundingClientRect()] *)
Record Rect : Type := mkRect { left : Q; right : Q; width : Q; height : Q }.

(** An element, as far as the check reads it. [className] is [None]
    where it is not a string (as on SVG elements); [parentStyle] is
    [None] where there is no parent element. *)
Record Element : Type := mkElement {
  tagName : string;
  id : string;
  className : option string;
  scrollWidth : Z;
  clientWidth : Z;
  rect : Rect;
  style : Style;
  parentStyle : option Style
}.

(** The document at one viewport size: the window width, the root
    element's widths and the results of the four selector queries. *)
Record Document : Type := mkDocument {
  innerWidth : Z;
  rootScrollWidth : Z;
  rootClientWidth : Z;
  controls : list Element;
  images : list Element;
  blocks : list Element;
  tapTargets : list Element
}.

(** [a > b] and [a < b] on a rectangle coordinate and an integer. *)
Definition gt (a : Q) (b : Z) : bool := negb (Qle_bool a (inject_Z b)).
Definition lt (a : Q) (b : Z) : bool := negb (Qle_bool (inject_Z b) a).

Definition getIdentifier (el : Element) : string :=
  let id := Js.toLowerCase (tagName el) in
  let id := if Js.truthy (Dom.id el) then id +:+ "#" +:+ Dom.id el else id in
  let id :=
    match className el with
    | Some c =>
        if Js.truthy c
        then id +:+ "." +:+ Text.join "." (Text.split_on " " c)
        else id
    | None => id
    end in
  Js.substring0 50 id.

Definition isVisible (el : Element) (style : Style) : bool :=
  if String.eqb (display style) "none"
     || String.eqb (visibility style) "hidden"
     || String.eqb (opacity style) "0"
  then false
  else gt (width (rect el)) 0 && gt (height (rect el)) 0.

(** The three [forEach] bodies that push onto [offendingElements]. *)
Definition check_control (offending : list string) (el : Element) : list string :=
  if (scrollWidth el >? clientWidth el + 2)%Z then
    if isVisible el (style el) then (offending ++ [getIdentifier el])%list
    else offending
  else offending.

Definition check_image (w : Z) (offending : list string) (el : Element)
  : list string :=
  if gt (right (rect el)) (w + 5) && lt (left (rect el)) w
     && isVisible el (style el)
  then (offending ++ [getIdentifier el])%list
  else offending.

Definition check_block (w : Z) (offending : list string) (el : Element)
  : list string :=
  if gt (width (rect el)) (w + 10) && lt (left (rect el)) 5
     && isVisible el (style el)
  then
    let parentHidesOverflow :=
      match parentStyle el with
      | Some p => String.eqb (overflowX p) "hidden" || String.eqb (overflow p) "hidden"
      | None => false
      end in
    if negb parentHidesOverflow then
      if gt (width (rect el)) (w + 20)
      then (offending ++ [getIdentifier el])%list
      else offending
    else offending
  else offending.

(** [Array.from(new Set(xs))] *)
Definition distinct (xs : list string) : list string :=
  fold_left (fun s x => Content.set_add x s) xs [].

(** The [forEach] body of the tap-target count. *)
Definition check_tap (smallTapTargets : Z) (el : Element) : Z :=
  if Qeq_bool (width (rect el)) 0 || Qeq_bool (height (rect el)) 0
  then smallTapTargets
  else if lt (width (rect el)) 44 || lt (height (rect el)) 44 then
    if String.eqb (display (style el)) "inline"
       || (String.eqb (display (style el)) "inline-block"
           && String.eqb (padding (style el)) "0px")
    then smallTapTargets
    else if negb (String.eqb (backgroundColor (style el)) "rgba(0, 0, 0, 0)")
            || negb (String.eqb (borderWidth (style el)) "0px")
    then (smallTapTargets + 1)%Z
    else smallTapTargets
  else smallTapTargets.

(** The function passed to [page.evaluate] in the viewport loop. *)
Definition check (doc : Document) : Analyzer.Issues :=
  let w := innerWidth doc in
  let hasHorizontalScroll :=
    ((rootScrollWidth doc >? w + 10) && (rootScrollWidth doc >? rootClientWidth doc + 10))%Z in
  let offendingElements := fold_left check_control (controls doc) [] in
  let offendingElements := fold_left (check_image w) (images doc) offendingElements in
  let offendingElements := fold_left (check_block w) (blocks doc) offendingElements in
  let unique := take 5 (distinct offendingElements) in
  let smallTapTargets :=
    if (w <? 768)%Z then fold_left check_tap (tapTargets doc) 0%Z else 0%Z in
  {| Analyzer.horizontalScroll := hasHorizontalScroll;
     Analyzer.overflowingElements := Z.of_nat (length unique);
     Analyzer.smallTapTargets := smallTapTargets;
     Analyzer.offendingElements := unique |}.

(** Every element that one of the three overflow checks reads. *)
Definition examined (doc : Document) : list Element :=
  (controls doc ++ images doc ++ blocks doc)%list.

End Dom.

(* ===================================================================== *)
(** ** The streaming endpoint ([GET] of [src/app/api/analyze/route.ts]) *)
(* ===================================================================== *)

Module Route.

Import Analyzer Crawler.

(** What the handler answers: a plain response with a status and a text,
    or status 200 with a body stream, given by what [start] does with
    the stream's controller: the chunks that it enqueues, in order, and
    the error that it passes to [controller.error], if it does. *)
Inductive Response : Type :=
| Plain (status : Z) (text : string)
| Ndjson (chunks : list string) (failure : option Thrown).

(** The stream's controller: [enqueue i] is the outcome of the call of
    [controller.enqueue] for the chunk number [i] (it throws once the
    stream was cancelled or has failed), [closeStream] that of
    [controller.close()]. *)
Record Controller : Type := mkController {
  enqueue : nat -> Thrown + unit;
  closeStream : Thrown + unit
}.

(** A controller whose every call succeeds. *)
Definition steady : Controller :=
  {| enqueue := fun _ => inr tt; closeStream := inr tt |}.

(** The controller of a stream that is cancelled once [n] chunks were
    enqueued. *)
Definition invalidState : Thrown :=
  ErrorObject "TypeError" "Invalid state: Controller is already closed".

Definition cancelledAfter (n : nat) : Controller :=
  {| enqueue := fun i => if (i <? n)%nat then inr tt else inl invalidState;
     closeStream := inl invalidState |}.

(** [Math.max] and [Math.min] on integers or [NaN] ([None]). *)
Definition math_max (a b : option Z) : option Z :=
  match a, b with
  | Some x, Some y => Some (Z.max x y)
  | _, _ => None
  end.

Definition math_min (a b : option Z) : option Z :=
  match a, b with
  | Some x, Some y => Some (Z.min x y)
  | _, _ => None
  end.

(** [p || d] on a query parameter, which is a string or [null]. *)
Definition or_default (p : option string) (d : string) : string :=
  match p with
  | Some s => if Js.truthy s then s else d
  | None => d
  end.

Definition maxPages (maxPagesParam : option string) : option Z :=
  math_min (math_max (Text.parseInt10 (or_default maxPagesParam "20")) (Some 1))
           (Some 100).

(** [options.maxPages] as [crawlSite] reads it. The generator uses it in
    [pagesCrawled < options.maxPages] only, which is false for [NaN] on
    every operand, as it is for 0 on the counter, which is never
    negative. *)
Definition limit (maxPages : option Z) : Z :=
  match maxPages with
  | Some n => n
  | None => 0
  end.

Section Handler.

Context (w : World) (stringify : PageAnalysis.t -> string)
        (controller : Controller).

Definition targetUrl (url : string) : string :=
  if negb (Js.startsWith "http" url) then "https://" +:+ url else url.

(** The [for await] loop over the reports still to come, [i] chunks
    having been enqueued: the chunks enqueued from here on, and the
    exception with which an [enqueue] leaves the loop. The generator is
    then abandoned; what its [finally] does no longer reaches the
    handler. *)
Fixpoint pump (i : nat) (results : list PageAnalysis.t)
  : list string * option Thrown :=
  match results with
  | [] => ([], None)
  | result :: rest =>
      let data := stringify result +:+ Text.newline in
      match enqueue controller i with
      | inl e => ([], Some e)
      | inr _ =>
          let '(sent, thrown) := pump (S i) rest in
          (data :: sent, thrown)
      end
  end.

(** [start]: the loop; then, when the generator ended normally,
    [controller.close()]; the [catch] passes to [controller.error] what
    the loop, the generator or [controller.close()] threw. *)
Definition start (run : Run) : Response :=
  let '(sent, thrown) := pump 0 (reports run) in
  Ndjson sent
    match thrown with
    | Some e => Some e
    | None =>
        match raised run with
        | Some e => Some e
        | None =>
            match closeStream controller with
            | inl e => Some e
            | inr _ => None
            end
        end
    end.

Definition GET (url maxPagesParam : option string) : Response :=
  let maxPages := maxPages maxPagesParam in
  match url with
  | None => Plain 400 "URL is required"
  | Some url =>
      if negb (Js.truthy url) then Plain 400 "URL is required"
      else
        let targetUrl := targetUrl url in
        match parse w None targetUrl with
        | None => Plain 400 "Invalid URL"
        | Some _ =>
            start (crawlSite w targetUrl
                     {| CrawlOptions.maxPages := limit maxPages;
                        CrawlOptions.maxDepth := 2 |})
        end
  end.

End Handler.

End Route.

(* ===================================================================== *)
(** ** The form that reads the stream ([handleSubmit] of [AnalyzerForm]) *)
(* ===================================================================== *)

Module Client.

Import Analyzer.

(** The body of a response as the reader sees it: the decoded text of the
    chunks that [reader.read()] delivers, in order, and the error with
    which a later [read()] rejects, if the stream fails. *)
Record Stream : Type := mkStream {
  chunks : list string;
  failure : option Thrown
}.

(** A response: [response.ok], the outcome of [response.text()] and
    [response.body]. *)
Record HttpResponse : Type := mkHttpResponse {
  ok : bool;
  text : Thrown + string;
  body : option Stream
}.

(** [err instanceof Error ? err.message : 'Analysis failed'] *)
Definition message (err : Thrown) : string :=
  match err with
  | ErrorObject _ m => m
  | NonError => "Analysis failed"
  end.

Section Form.

(** The results are whatever [JSON.parse] makes of a line; [None] stands
    for a [SyntaxError]. *)
Context {R : Type} (JSON_parse : string -> option R).

(** The component's state. *)
Record View : Type := mkView {
  isLoading : bool;
  results : list R;
  error : option string
}.

(** The handling of one line: blank lines are skipped, a line that does
    not parse is logged and skipped, a parsed result is appended. *)
Definition take_line (results : list R) (line : string) : list R :=
  if negb (Js.truthy (Text.trim line)) then results
  else
    match JSON_parse line with
    | Some result => (results ++ [result])%list
    | None => results
    end.

(** One pass of the read loop; the state is [(buffer, results)]. *)
Definition read_chunk (st : string * list R) (chunk : string)
  : string * list R :=
  let '(buffer, results) := st in
  let buffer := buffer +:+ chunk in
  let lines := Text.split_on Text.LF buffer in
  let buffer := List.last lines EmptyString in
  let lines := removelast lines in
  (buffer, fold_left take_line lines results).

(** The request is [/api/analyze?url=...&maxPages=...]; [fetch] is given
    the two parameters it carries. *)
Definition handleSubmit (fetch : string -> Z -> Thrown + HttpResponse)
    (url : option string) (maxPages : Z) : View :=
  if negb (match url with Some u => Js.truthy u | None => false end)
  then mkView true [] None
  else
    let url := match url with Some u => u | None => EmptyString end in
    match fetch url maxPages with
    | inl err => mkView false [] (Some (message err))
    | inr response =>
        if negb (ok response) then
          match text response with
          | inl err => mkView false [] (Some (message err))
          | inr t => mkView false [] (Some t)
          end
        else
          match body response with
          | None => mkView false [] None
          | Some stream =>
              let '(buffer, results) :=
                fold_left read_chunk (chunks stream) (EmptyString, []) in
              match failure stream with
              | Some err => mkView false results (Some (message err))
              | None => mkView false (take_line results buffer) None
              end
          end
    end.

(** What one line contributes, and what a whole text does. *)
Definition line_results (line : string) : list R := take_line [] line.

Definition text_results (text : string) : list R :=
  flat_map line_results (Text.split_on Text.LF text).

End Form.

(** Sample responses: a line-delimited text that arrives in three chunks
    cut inside the lines, and a parser that accepts the lines that start
    with a brace. *)
Module Example.

Definition braced (line : string) : option string :=
  if Js.startsWith "{" line then Some line else None.

Definition threeChunks : Stream :=
  {| chunks := ["{a"; "}" +:+ Text.newline +:+ "oops" +:+ Text.newline +:+ " "
                  +:+ Text.newline +:+ "{b";
                "}" +:+ Text.newline +:+ "{c}"];
     failure := None |}.

Definition answers : string -> Z -> Thrown + HttpResponse :=
  fun _ _ => inr (mkHttpResponse true (inr EmptyString) (Some threeChunks)).

(** The text of [MoreSamples.mixedRun], cut inside its two lines. *)
Definition mixedChunks : Stream :=
  {| chunks := ["https://exam";
                "ple.com/" +:+ Text.newline +:+ "https://example.com/about";
                Text.newline];
     failure := None |}.

Definition mixedAnswers : string -> Z -> Thrown + HttpResponse :=
  fun _ _ => inr (mkHttpResponse true (inr EmptyString) (Some mixedChunks)).

End Example.

End Client.

(* ===================================================================== *)
(** ** The summary of the results ([ResultsDisplay]) *)
(* ===================================================================== *)

Module Display.

(** [curr.error] as a condition. *)
Definition has_error (curr : PageAnalysis.t) : bool :=
  match PageAnalysis.error curr with
  | Some m => Js.truthy m
  | None => false
  end.

(** [n && n > 0] on a number. *)
Definition positive (n : Z) : bool := negb (n =? 0) && (n >? 0).

(** The body of the [forEach] over the viewport issues. *)
Definition viewport_issues (issues : Z) (vp : ViewportIssue.t) : Z :=
  let issues := if ViewportIssue.horizontalScroll vp then issues + 1 else issues in
  let issues := if ViewportIssue.overflowingElements vp >? 0 then issues + 1 else issues in
  let issues := if positive (ViewportIssue.smallTapTargets vp) then issues + 1 else issues in
  issues.

(** The issues that the reducer of [totalIssues] counts for one page.
    The three issue groups are present in every report. *)
Definition page_issues (curr : PageAnalysis.t) : Z :=
  let issues := 0 in
  let issues :=
    if (PageAnalysis.statusCode curr >=? 400) || has_error curr
    then issues + 1 else issues in
  let issues := if PageAnalysis.missingAltTags curr >? 0 then issues + 1 else issues in
  let issues := if negb (PageAnalysis.hasViewport curr) then issues + 1 else issues in
  let issues :=
    if (PageAnalysis.h1Count curr =? 0) || (PageAnalysis.h1Count curr >? 1)
    then issues + 1 else issues in
  let issues :=
    if PageAnalysis.imagesMissingDimensions curr >? 0 then issues + 1 else issues in
  let issues := if PageAnalysis.longWords curr >? 0 then issues + 1 else issues in
  let issues := fold_left viewport_issues (PageAnalysis.viewportIssues curr) issues in
  let issues :=
    if Z.of_nat (length (PageAnalysis.possibleTypos curr)) >? 0
    then issues + 1 else issues in
  issues.

Definition totalIssues (results : list PageAnalysis.t) : Z :=
  fold_left (fun acc curr => acc + page_issues curr) results 0.

Definition avgResponseTime (results : list PageAnalysis.t) : Num.number :=
  let totalPages := Z.of_nat (length results) in
  Num.round
    (Num.div (fold_left (fun acc curr => acc + PageAnalysis.responseTime curr) results 0)
             totalPages).

(** The three summary figures; [None] where the component renders
    nothing. *)
Record Summary : Type := mkSummary {
  pagesScanned : Z;
  avgResponse : Num.number;
  issuesFound : Z
}.

Definition summary (results : list PageAnalysis.t) : option Summary :=
  if Z.of_nat (length results) =? 0 then None
  else Some {| pagesScanned := Z.of_nat (length results);
               avgResponse := avgResponseTime results;
               issuesFound := totalIssues results |}.

(** The flags of one entry of the detailed list. *)
Definition hasUxIssues (result : PageAnalysis.t) : bool :=
  (PageAnalysis.missingAltTags result >? 0)
  || negb (PageAnalysis.hasViewport result)
  || negb (PageAnalysis.h1Count result =? 1).

Definition hasViewportIssues (result : PageAnalysis.t) : bool :=
  existsb (fun vp =>
             ViewportIssue.horizontalScroll vp
             || (ViewportIssue.overflowingElements vp >? 0)
             || (ViewportIssue.smallTapTargets vp >? 0))
          (PageAnalysis.viewportIssues result).

Definition hasVisualIssues (result : PageAnalysis.t) : bool :=
  (PageAnalysis.imagesMissingDimensions result >? 0)
  || (PageAnalysis.longWords result >? 0)
  || hasViewportIssues result.

Definition hasContentIssues (result : PageAnalysis.t) : bool :=
  Z.of_nat (length (PageAnalysis.possibleTypos result)) >? 0.

End Display.

(* ===================================================================== *)
(** ** The single-page server action ([analyzeUrl]) *)
(* ===================================================================== *)

Module Action.

Import Analyzer.

Record AnalysisResult : Type := mkResult {
  url : string;
  title : string;
  metaDescription : string;
  h1 : option string;
  responseTime : Z;
  statusCode : Z;
  error : option string
}.

(** A response of [fetch]: its status and the outcome of [text()]. *)
Record Fetched : Type := mkFetched {
  status : Z;
  text : Thrown + string
}.

(** What the action obtains from outside: the outcome of [fetch] on a
    URL, the two clock readings, and what the four cheerio queries give
    on a document ([None] where [attr] finds no attribute). *)
Record Env : Type := mkEnv {
  fetch : string -> Thrown + Fetched;
  startTime : Z;
  endTime : Z;
  titleText : string -> string;
  description : string -> option string;
  ogDescription : string -> option string;
  firstH1Text : string -> string
}.

(** [error instanceof Error ? error.message : 'Failed to analyze URL'] *)
Definition message (e : Thrown) : string :=
  match e with
  | ErrorObject _ m => m
  | NonError => "Failed to analyze URL"
  end.

(** [a || b] on an attribute value and a string. *)
Definition attr_or (a : option string) (b : string) : string :=
  match a with
  | Some s => if Js.truthy s then s else b
  | None => b
  end.

Definition failed (url error : string) : AnalysisResult :=
  {| url := url;
     title := EmptyString;
     metaDescription := EmptyString;
     h1 := None;
     responseTime := 0;
     statusCode := 0;
     error := Some error |}.

Definition analyzeUrl (env : Env) (url : option string) : AnalysisResult :=
  if negb (match url with Some u => Js.truthy u | None => false end)
  then failed EmptyString "URL is required"
  else
    let url := match url with Some u => u | None => EmptyString end in
    let targetUrl := if Js.startsWith "http" url then url else "https://" +:+ url in
    match fetch env targetUrl with
    | inl e => failed targetUrl (message e)
    | inr response =>
        let responseTime := endTime env - startTime env in
        let statusCode := status response in
        match text response with
        | inl e => failed targetUrl (message e)
        | inr html =>
            let title := Text.trim (titleText env html) in
            let metaDescription :=
              attr_or (description env html)
                      (attr_or (ogDescription env html) EmptyString) in
            let h1 :=
              let t := Text.trim (firstH1Text env html) in
              if Js.truthy t then Some t else None in
            {| url := targetUrl;
               title := title;
               metaDescription := metaDescription;
               h1 := h1;
               responseTime := responseTime;
               statusCode := statusCode;
               error := None |}
        end
    end.

End Action.

(* ===================================================================== *)
(** ** Properties of the content scoring *)
(* ===================================================================== *)

(** *** The string primitives on small inputs *)

Example split_whitespace :
  Js.split Js.is_space " a  b " = [EmptyString; "a"; "b"; EmptyString].
Proof. reflexivity. Qed.

Example split_empty : Js.split Js.is_space EmptyString = [EmptyString].
Proof. reflexivity. Qed.

Example split_sentences :
  Js.split Js.is_sentence_end "One. Two?! Three" = ["One"; " Two"; " Three"].
Proof. reflexivity. Qed.

Example vowel_runs : Js.runs Js.is_vowel "beautiful" = 3.
Proof. reflexivity. Qed.

Example status_text : Js.of_int 404 = "404".
Proof. reflexivity. Qed.

Example ends_with_question_mark : Js.endsWith "?" "why?" = true.
Proof. reflexivity. Qed.

Example final_e_only : Js.strip_final_e "eee" = "ee".
Proof. reflexivity. Qed.

Example heading_level : Js.parseInt (Js.substring1 "H2") = Some 2.
Proof. reflexivity. Qed.

Example parseInt_prefixes :
  Js.parseInt "0x3" = Some 3 /\ Js.parseInt " -12px" = Some (-12)
  /\ Js.parseInt "0x" = None /\ Js.parseInt "x1" = None.
Proof. repeat split. Qed.

Example keywords_of_a_text :
  Content.keywords
    "Crawl the site. The crawl visits each page; each page is scored, Page by page."
  = [Keyword.mk "page" (JNum 4); Keyword.mk "crawl" (JNum 2);
     Keyword.mk "each" (JNum 2); Keyword.mk "site" (JNum 1);
     Keyword.mk "visits" (JNum 1)].
Proof. vm_compute. reflexivity. Qed.

(** *** Counts and quotients *)

Lemma split_nonempty sep s : Js.split sep s <> [].
Proof.
  induction s as [|c s IH]; cbn; [discriminate|].
  destruct (sep c).
  - destruct s as [|c' s']; [discriminate|].
    destruct (sep c'); [exact IH|discriminate].
  - destruct (Js.split sep s); discriminate.
Qed.

Lemma split_length sep s : (1 <= length (Js.split sep s))%nat.
Proof.
  pose proof (split_nonempty sep s).
  destruct (Js.split sep s); [congruence|cbn; lia].
Qed.

Lemma wordCount_ge_1 text : 1 <= Content.wordCount text.
Proof.
  unfold Content.wordCount, Content.words.
  pose proof (split_length Js.is_space text). lia.
Qed.

Lemma sentenceCount_ge_1 text : 1 <= Content.sentenceCount text.
Proof.
  unfold Content.sentenceCount.
  pose proof (split_length Js.is_sentence_end text).
  destruct (Z.eqb_spec (Z.of_nat (length (Js.split Js.is_sentence_end text))) 0); lia.
Qed.

Lemma runs_nonneg p s : 0 <= Js.runs p s.
Proof.
  induction s as [|c s IH]; cbn; [lia|].
  destruct (p c); [|exact IH].
  destruct s as [|c' s']; [lia|].
  destruct (p c'); lia.
Qed.

Lemma syllables_ge_1 word : 1 <= Content.syllables word.
Proof.
  unfold Content.syllables.
  match goal with
  | |- context [Js.runs ?p ?s] =>
      pose proof (runs_nonneg p s); destruct (Z.eqb_spec (Js.runs p s) 0)
  end; lia.
Qed.

Lemma syllable_sum_ge ws acc :
  acc + Z.of_nat (length ws)
  <= fold_left (fun a w => a + Content.syllables w) ws acc.
Proof.
  revert acc; induction ws as [|w ws IH]; intros acc; cbn [fold_left length].
  - lia.
  - specialize (IH (acc + Content.syllables w)).
    pose proof (syllables_ge_1 w). lia.
Qed.

Lemma syllableCount_ge_wordCount text :
  Content.wordCount text <= Content.syllableCount text.
Proof.
  unfold Content.syllableCount, Content.wordCount.
  pose proof (syllable_sum_ge (Content.words text) 0). lia.
Qed.

Lemma div_finite a b :
  b <> 0 -> Num.div a b = Num.Fin (inject_Z a / inject_Z b)%Q.
Proof.
  intros Hb. unfold Num.div.
  destruct (Z.eqb_spec b 0); [contradiction|reflexivity].
Qed.

Lemma quotient_nonzero a b :
  1 <= b -> b <= a -> Qeq_bool (inject_Z a / inject_Z b) 0 = false.
Proof.
  intros Hb Hab.
  destruct (Qeq_bool (inject_Z a / inject_Z b) 0) eqn:E; [|reflexivity].
  apply Qeq_bool_eq in E.
  assert (Hnz : ~ (inject_Z b == 0)%Q).
  { intros H. unfold Qeq in H. cbn in H. lia. }
  pose proof (Qmult_div_r (inject_Z a) (inject_Z b) Hnz) as Hm.
  rewrite E, Qmult_0_r in Hm.
  unfold Qeq in Hm. cbn in Hm. lia.
Qed.

Lemma max_of_Z a b : Num.max (Num.of_Z a) (Num.of_Z b) = Num.of_Z (Z.max a b).
Proof.
  unfold Num.max, Num.of_Z.
  destruct (Qle_bool (inject_Z a) (inject_Z b)) eqn:E.
  - apply Qle_bool_iff in E. rewrite <- Zle_Qle in E.
    rewrite Z.max_r; [reflexivity|exact E].
  - assert (~ a <= b) as H.
    { intros H. rewrite Zle_Qle in H. apply Qle_bool_iff in H. congruence. }
    rewrite Z.max_l; [reflexivity|lia].
Qed.

Lemma min_of_Z a b : Num.min (Num.of_Z a) (Num.of_Z b) = Num.of_Z (Z.min a b).
Proof.
  unfold Num.min, Num.of_Z.
  destruct (Qle_bool (inject_Z a) (inject_Z b)) eqn:E.
  - apply Qle_bool_iff in E. rewrite <- Zle_Qle in E.
    rewrite Z.min_l; [reflexivity|exact E].
  - assert (~ a <= b) as H.
    { intros H. rewrite Zle_Qle in H. apply Qle_bool_iff in H. congruence. }
    rewrite Z.min_r; [reflexivity|lia].
Qed.

(** *** Rounding to binary64 *)

Lemma ilog2_le a d :
  0 < a -> 0 < d ->
  d * 2 ^ Z.max 0 (Num.ilog2 a d) <= a * 2 ^ Z.max 0 (- Num.ilog2 a d).
Proof.
  intros Ha Hd. unfold Num.ilog2.
  set (k := Z.log2 a - Z.log2 d).
  destruct (Z.leb_spec (d * 2 ^ Z.max 0 k) (a * 2 ^ Z.max 0 (- k))) as [H|H];
    [exact H|].
  pose proof (Z.log2_spec a Ha) as [Hla Hua].
  pose proof (Z.log2_spec d Hd) as [Hld Hud].
  pose proof (Z.log2_nonneg a) as Hna.
  pose proof (Z.log2_nonneg d) as Hnd.
  unfold Z.succ in *.
  destruct (Z.le_gt_cases 1 k) as [Hk|Hk].
  - rewrite (Z.max_r 0 (k - 1)), (Z.max_l 0 (- (k - 1))) by lia.
    rewrite Z.pow_0_r, Z.mul_1_r.
    assert (Heq : 2 ^ Z.log2 a = 2 ^ (Z.log2 d + 1) * 2 ^ (k - 1)).
    { rewrite <- Z.pow_add_r by lia. f_equal. unfold k. lia. }
    assert (0 < 2 ^ (k - 1)) by (apply Z.pow_pos_nonneg; lia).
    nia.
  - rewrite (Z.max_l 0 (k - 1)), (Z.max_r 0 (- (k - 1))) by lia.
    rewrite Z.pow_0_r, Z.mul_1_r.
    assert (Heq : 2 ^ (Z.log2 d + 1) = 2 ^ Z.log2 a * 2 ^ (- (k - 1))).
    { rewrite <- Z.pow_add_r by lia. f_equal. unfold k. lia. }
    assert (0 < 2 ^ (- (k - 1))) by (apply Z.pow_pos_nonneg; lia).
    nia.
Qed.

Lemma scaled_le a d L e :
  0 < a -> 0 < d -> e <= L ->
  d * 2 ^ Z.max 0 L <= a * 2 ^ Z.max 0 (- L) ->
  d * 2 ^ Z.max 0 e <= a * 2 ^ Z.max 0 (- e).
Proof.
  intros Ha Hd Hle H.
  assert (Hmono : forall x y, 0 <= x <= y -> 2 ^ x <= 2 ^ y)
    by (intros; apply Z.pow_le_mono_r; lia).
  assert (Hpos : forall x, 0 <= x -> 0 < 2 ^ x)
    by (intros; apply Z.pow_pos_nonneg; lia).
  pose proof (Hmono (Z.max 0 e) (Z.max 0 L) ltac:(lia)).
  pose proof (Hmono (Z.max 0 (- L)) (Z.max 0 (- e)) ltac:(lia)).
  pose proof (Hpos (Z.max 0 e) ltac:(lia)).
  pose proof (Hpos (Z.max 0 (- L)) ltac:(lia)).
  apply Z.le_trans with (d * 2 ^ Z.max 0 L); [nia|].
  apply Z.le_trans with (a * 2 ^ Z.max 0 (- L)); [exact H|nia].
Qed.

Lemma nearest_even_ge n d : n / d <= Num.nearest_even n d.
Proof.
  unfold Num.nearest_even.
  destruct (2 * (n mod d) <? d); [lia|].
  destruct (d <? 2 * (n mod d)); [lia|].
  destruct (Z.even (n / d)); lia.
Qed.

(** Rounding a positive number gives a positive number: nothing is
    flushed to zero. *)
Lemma b64_pos q : (0 < q)%Q -> (0 < Num.b64 q)%Q.
Proof.
  destruct q as [n d]. unfold Qlt. cbn [Qnum Qden]. intros Hn.
  assert (Hpos : 0 < n) by lia.
  unfold Num.b64. cbn [Qnum Qden].
  rewrite (Z.abs_eq n) by lia.
  destruct (Z.eqb_spec n 0); [lia|].
  set (e := Num.ilog2 n (Z.pos d) - 52).
  set (N := n * 2 ^ Z.max 0 (- e)).
  set (D := Z.pos d * 2 ^ Z.max 0 e).
  assert (HD : 0 < D).
  { unfold D. apply Z.mul_pos_pos; [lia|apply Z.pow_pos_nonneg; lia]. }
  assert (HND : D <= N).
  { unfold D, N. apply (scaled_le n (Z.pos d) (Num.ilog2 n (Z.pos d)) e);
      [lia|lia|unfold e; lia|apply ilog2_le; lia]. }
  assert (Hm : 1 <= Num.nearest_even N D).
  { pose proof (nearest_even_ge N D).
    assert (1 <= N / D) by (apply Z.div_le_lower_bound; lia). lia. }
  rewrite (Z.sgn_pos n) by lia. rewrite Z.mul_1_l.
  assert (Hp : (0 < Num.pow2 e)%Q).
  { unfold Num.pow2. destruct (0 <=? e) eqn:He.
    - unfold Qlt. cbn. apply Z.leb_le in He.
      pose proof (Z.pow_pos_nonneg 2 e ltac:(lia) He). lia.
    - reflexivity. }
  apply Qmult_lt_0_compat; [|exact Hp].
  unfold Qlt, inject_Z. cbn [Qnum Qden]. lia.
Qed.

Lemma fdiv_finite a b :
  b <> 0 -> Num.fdiv a b = Num.Fin (Num.b64 (inject_Z a / inject_Z b)).
Proof. intros Hb. unfold Num.fdiv. rewrite div_finite by exact Hb. reflexivity. Qed.

Lemma rounded_quotient_nonzero a b :
  1 <= b -> b <= a ->
  Qeq_bool (Num.b64 (inject_Z a / inject_Z b)) 0 = false.
Proof.
  intros Hb Hab.
  assert (Hq : (0 < inject_Z a / inject_Z b)%Q).
  { apply Qlt_shift_div_l; unfold Qlt; cbn; lia. }
  apply b64_pos in Hq.
  destruct (Qeq_bool _ 0) eqn:E; [|reflexivity].
  apply Qeq_bool_eq in E. rewrite E in Hq. discriminate Hq.
Qed.

(** C7, as the code has it. For every body text the readability score is
    the Flesch Reading Ease
    [206.835 - 1.015 (words / sentences) - 84.6 (syllables / words)]
    evaluated in binary64 arithmetic, rounded to the nearest integer and
    then clamped into [0, 100]. The sentence count is at least 1, every
    word contributes at least one syllable, and both quotients are
    finite and the second is not zero: no divisor is zero and no default
    takes effect, whatever the text. *)
Theorem readabilityScore_is_flesch (text : string) :
  let w := Content.wordCount text in
  let s := Content.sentenceCount text in
  let y := Content.syllableCount text in
  1 <= s /\ 1 <= w /\ (forall word, 1 <= Content.syllables word) /\ w <= y
  /\ Content.avgSentenceLength text
     = Num.Fin (Num.b64 (inject_Z w / inject_Z s))
  /\ Content.avgSyllablesPerWord text
     = Num.Fin (Num.b64 (inject_Z y / inject_Z w))
  /\ Content.readabilityScore text
     = Num.of_Z (Z.min 100 (Z.max 0 (Qfloor (Spec.flesch_double w s y + (1 # 2))%Q)))
  /\ exists n, 0 <= n <= 100 /\ Content.readabilityScore text = Num.of_Z n.
Proof.
  intros w s y.
  pose proof (sentenceCount_ge_1 text) as Hs.
  pose proof (wordCount_ge_1 text) as Hw.
  pose proof (syllableCount_ge_wordCount text) as Hy.
  fold w in Hw, Hy. fold s in Hs. fold y in Hy.
  assert (Hasl : Content.avgSentenceLength text
                 = Num.Fin (Num.b64 (inject_Z w / inject_Z s))).
  { unfold Content.avgSentenceLength. apply fdiv_finite. lia. }
  assert (Hasw : Content.avgSyllablesPerWord text
                 = Num.Fin (Num.b64 (inject_Z y / inject_Z w))).
  { unfold Content.avgSyllablesPerWord. fold w y. rewrite fdiv_finite by lia.
    unfold Num.or_else. rewrite rounded_quotient_nonzero by lia. reflexivity. }
  assert (Hr : Content.readabilityScore text
     = Num.of_Z (Z.min 100 (Z.max 0 (Qfloor (Spec.flesch_double w s y + (1 # 2))%Q)))).
  { unfold Content.readabilityScore. rewrite Hasl, Hasw.
    unfold Content.flesch, Num.literal, Num.fmul, Num.fsub.
    cbn [Num.mul Num.sub Num.round Num.rounded].
    rewrite max_of_Z, min_of_Z. reflexivity. }
  repeat split; try assumption.
  - apply syllables_ge_1.
  - eexists; split; [|exact Hr]. lia.
Qed.

(** C7, as stated, fails where the exact value of the formula is halfway
    between two integers: for 520 words in 14 sentences with 637
    syllables it is 65.5, which rounds to 66, while the code's doubles
    give a value just below it and the score 65. *)
Lemma readability_rounding_differs :
  Content.wordCount Samples.halfway = 520
  /\ Content.sentenceCount Samples.halfway = 14
  /\ Content.syllableCount Samples.halfway = 637
  /\ Content.readabilityScore Samples.halfway = Num.of_Z 65
  /\ (Spec.flesch_ease 520 14 637 == 131 # 2)%Q
  /\ Z.min 100 (Z.max 0 (Qfloor (Spec.flesch_ease 520 14 637 + (1 # 2))%Q)) = 66
  /\ (Spec.flesch_double 520 14 637 < 131 # 2)%Q.
Proof. vm_compute. repeat split. Qed.

Example readabilityScore_single_word :
  Content.wordCount "Hello" = 1 /\ Content.sentenceCount "Hello" = 1
  /\ Content.syllableCount "Hello" = 2
  /\ Content.readabilityScore "Hello" = Num.of_Z 37.
Proof. vm_compute. repeat split. Qed.

(** C10. For every body text, the empty one included, [wordCount] is at
    least 1: the split on whitespace always yields a token, the empty
    string yields the single empty token, and a token whose cleaned form
    is empty is skipped by the long-word and typo checks while it still
    counts as a word. Hence the syllables-per-word quotient is finite,
    before and after its rounding to a double. *)
Theorem wordCount_at_least_one (text : string) :
  1 <= Content.wordCount text
  /\ Content.words EmptyString = [EmptyString]
  /\ Content.wordCount EmptyString = 1
  /\ (forall spell st word,
        Content.cleanWord word = EmptyString ->
        Content.scan_word spell st word = st)
  /\ (forall spell, Content.scan_words spell (Content.words EmptyString) = ([], 0))
  /\ (exists q,
       Num.div (Content.syllableCount text) (Content.wordCount text) = Num.Fin q)
  /\ exists q,
       Num.fdiv (Content.syllableCount text) (Content.wordCount text) = Num.Fin q.
Proof.
  pose proof (wordCount_ge_1 text) as Hw.
  repeat split; try reflexivity; try assumption.
  - intros spell [typos long] word Hc. unfold Content.scan_word. rewrite Hc.
    reflexivity.
  - eexists. apply div_finite. lia.
  - eexists. apply fdiv_finite. lia.
Qed.

(** C8. When the title has 10 to 60 characters, the meta description has
    50 to 160, an H1 text was extracted, no image lacks alt text and the
    text has more than 300 words, the five base rules add up to 100, and
    the final score, bonuses and cap applied, is 100; in particular the
    score is at least 80. *)
Theorem seoScore_scenario (sa : StaticAnalysis.t) (h : string) :
  10 <= Js.len (StaticAnalysis.title sa) <= 60 ->
  50 <= Js.len (StaticAnalysis.metaDesc sa) <= 160 ->
  StaticAnalysis.h1 sa = Some h -> h <> EmptyString ->
  StaticAnalysis.missingAltTags sa = 0 ->
  300 < Content.wordCount (StaticAnalysis.textContent sa) ->
  Content.seoScore_base sa = 20 + 20 + 20 + 20 + 20
  /\ 80 <= Content.seoScore_base sa
  /\ 80 <= Content.seoScore sa <= 100
  /\ ContentMetrics.seoScore (Content.contentMetrics sa) = 100.
Proof.
  intros Ht Hm Hh Hne Halt Hw.
  assert (Htruthy : forall s, 1 <= Js.len s -> Js.truthy s = true).
  { intros [|c s] H; [unfold Js.len in H; cbn in H; lia|reflexivity]. }
  assert (Hbase : Content.seoScore_base sa = 100).
  { unfold Content.seoScore_base.
    rewrite (Htruthy (StaticAnalysis.title sa)) by lia.
    rewrite (Htruthy (StaticAnalysis.metaDesc sa)) by lia.
    rewrite Hh, Halt.
    replace (Js.truthy h) with true
      by (destruct h; [contradiction|reflexivity]).
    repeat match goal with
           | |- context [?a >=? ?b] => destruct (Z.geb_spec a b); [|lia]
           | |- context [?a <=? ?b] => destruct (Z.leb_spec a b); [|lia]
           | |- context [?a >? ?b] => destruct (Z.gtb_spec a b); [|lia]
           end.
    reflexivity. }
  assert (Hfinal : Content.seoScore sa = 100).
  { unfold Content.seoScore. rewrite Hbase.
    destruct (Content.keywordsInHeadings _ _ >? 0); destruct (_ && _); reflexivity. }
  cbn [Content.contentMetrics ContentMetrics.seoScore].
  rewrite Hbase, Hfinal. repeat split; lia.
Qed.

Lemma seoScore_scenario_product_page :
  let sa := Samples.productPage in
  10 <= Js.len (StaticAnalysis.title sa) <= 60
  /\ 50 <= Js.len (StaticAnalysis.metaDesc sa) <= 160
  /\ Content.wordCount (StaticAnalysis.textContent sa) = 350
  /\ 80 <= Content.seoScore_base sa
  /\ 80 <= Content.seoScore sa <= 100
  /\ ContentMetrics.seoScore (Content.contentMetrics sa) = 100.
Proof.
  cbn zeta.
  split; [vm_compute; split; discriminate|].
  split; [vm_compute; split; discriminate|].
  split; [vm_compute; reflexivity|].
  refine (proj2 (seoScore_scenario Samples.productPage "Great Product" _ _ eq_refl _ eq_refl _)).
  - vm_compute; split; discriminate.
  - vm_compute; split; discriminate.
  - discriminate.
  - vm_compute; reflexivity.
Defined.

(** C9 at a text that contains the word [constructor]. The specification
    pairs the word with its count, 1. The code looks the word up in an
    object created by [{}], finds the inherited [Object] function, and
    stores the text of that function followed by [1] in place of a
    count. *)
Theorem keywords_constructor :
  Spec.keywords "The constructor builds the object"
  = [("constructor", 1); ("builds", 1); ("object", 1)]
  /\ Content.keywords "The constructor builds the object"
     = [Keyword.mk "constructor" (JStr "function Object() { [native code] }1");
        Keyword.mk "builds" (JNum 1);
        Keyword.mk "object" (JNum 1)].
Proof. vm_compute. split; reflexivity. Qed.

Section KeywordRefinement.

Import Spec.

Local Open Scope list_scope.

Lemma lower_char_alpha c :
  Js.is_alpha (Js.lower_char c) = Js.is_lower (Js.lower_char c).
Proof. destruct c as [[] [] [] [] [] [] [] []]; vm_compute; reflexivity. Qed.

Lemma token_normalize word : Spec.token word = Content.normalize word.
Proof.
  unfold Spec.token, Content.normalize.
  induction word as [|c word IH]; cbn; [reflexivity|].
  rewrite lower_char_alpha, IH. reflexivity.
Qed.

Lemma kept_filter t :
  Spec.kept t = (Js.len t >? 3) && negb (Content.is_stop t).
Proof.
  unfold Spec.kept, Content.is_stop. f_equal.
  unfold Z.gtb, Z.leb. destruct (Js.len t ?= 3); reflexivity.
Qed.

Lemma wordFreq_tokens ws o :
  fold_left Content.count_word ws o
  = fold_left bump (List.filter Spec.kept (map Spec.token ws)) o.
Proof.
  revert o; induction ws as [|w ws IH]; intros o;
    cbn [fold_left map List.filter]; [reflexivity|].
  unfold Content.count_word at 2. rewrite <- token_normalize, <- kept_filter.
  destruct (Spec.kept (Spec.token w)); cbn [fold_left]; apply IH.
Qed.

Lemma first_seen_In t l : In t (Spec.first_seen l) <-> In t l.
Proof.
  induction l as [|x l IH]; cbn; [tauto|].
  rewrite <- IH. split.
  - intros [->|Hin%filter_In]; [auto|]. tauto.
  - intros [->|Hin]; [auto|].
    destruct (String.eqb_spec t x) as [->|Hne]; [auto|].
    right. apply filter_In. split; [exact Hin|].
    destruct (String.eqb_spec t x); [contradiction|reflexivity].
Qed.

Lemma first_seen_NoDup l : NoDup (Spec.first_seen l).
Proof.
  induction l as [|x l IH]; cbn; constructor.
  - intros [_ Hx]%list_elem_of_In%filter_In.
    rewrite String.eqb_refl in Hx. discriminate.
  - apply NoDup_ListNoDup, List.NoDup_filter, NoDup_ListNoDup, IH.
Qed.

Lemma occurrences_snoc u l t :
  Spec.occurrences u (l ++ [t])
  = Spec.occurrences u l + (if String.eqb t u then 1 else 0).
Proof. induction l as [|x l IH]; cbn; [|rewrite IH]; lia. Qed.

Lemma occurrences_absent t l : ~ In t l -> Spec.occurrences t l = 0.
Proof.
  induction l as [|x l IH]; cbn; [reflexivity|]. intros Hn.
  destruct (String.eqb_spec x t); [tauto|]. rewrite IH; tauto.
Qed.

Lemma first_seen_snoc l t :
  Spec.first_seen (l ++ [t])
  = if existsb (String.eqb t) l then Spec.first_seen l
    else Spec.first_seen l ++ [t].
Proof.
  induction l as [|x l IH]; cbn; [reflexivity|].
  rewrite IH. destruct (String.eqb_spec t x) as [->|Hne]; cbn.
  - destruct (existsb (String.eqb x) l); [reflexivity|].
    rewrite List.filter_app. cbn. rewrite String.eqb_refl. cbn.
    rewrite app_nil_r. reflexivity.
  - destruct (existsb (String.eqb t) l); [reflexivity|].
    rewrite List.filter_app. cbn.
    destruct (String.eqb_spec t x); [contradiction|reflexivity].
Qed.

Lemma existsb_In t l : existsb (String.eqb t) l = true <-> In t l.
Proof.
  rewrite existsb_exists. split.
  - intros (x & Hx & ->%String.eqb_eq). exact Hx.
  - intros Hin. exists t. split; [exact Hin|apply String.eqb_refl].
Qed.

Section Tabulate.

Context (f : string -> jsval).

Lemma own_tabulate keys t :
  Content.own (map (fun u => (u, f u)) keys) t
  = if existsb (String.eqb t) keys then Some (f t) else None.
Proof.
  induction keys as [|k keys IH]; cbn; [reflexivity|].
  rewrite (String.eqb_sym t k).
  destruct (String.eqb_spec k t) as [->|]; [reflexivity|exact IH].
Qed.

Lemma set_tabulate_present keys t v :
  In t keys -> NoDup keys ->
  Content.set (map (fun u => (u, f u)) keys) t v
  = map (fun u => (u, if String.eqb u t then v else f u)) keys.
Proof.
  induction keys as [|k keys IH]; cbn; [tauto|].
  intros Hin [Hk Hnd]%NoDup_cons.
  destruct (String.eqb_spec k t) as [->|Hne].
  - f_equal. apply map_ext_in. intros u Hu.
    destruct (String.eqb_spec u t) as [->|]; [|reflexivity].
    exfalso. apply Hk, list_elem_of_In, Hu.
  - f_equal. apply IH; [|exact Hnd]. destruct Hin; [contradiction|assumption].
Qed.

Lemma set_tabulate_absent keys t v :
  ~ In t keys ->
  Content.set (map (fun u => (u, f u)) keys) t v
  = map (fun u => (u, f u)) keys ++ [(t, v)].
Proof.
  induction keys as [|k keys IH]; cbn; [reflexivity|]. intros Hn.
  destruct (String.eqb_spec k t); [tauto|]. f_equal. apply IH. tauto.
Qed.

End Tabulate.

Lemma bump_tally seen t :
  t <> "constructor" -> bump (tally seen) t = tally (seen ++ [t]).
Proof.
  intros Hc. unfold bump, tally, Content.get.
  rewrite own_tabulate, first_seen_snoc.
  destruct (existsb (String.eqb t) seen) eqn:E.
  - assert (Hin : In t seen) by (apply existsb_In, E).
    replace (existsb (String.eqb t) (Spec.first_seen seen)) with true.
    2:{ symmetry. apply existsb_In, (proj2 (first_seen_In t seen)), Hin. }
    cbn [Content.or_zero_plus_one].
    rewrite set_tabulate_present;
      [|apply (proj2 (first_seen_In t seen)), Hin|apply first_seen_NoDup].
    apply map_ext. intros u. rewrite occurrences_snoc, (String.eqb_sym t u).
    destruct (String.eqb_spec u t) as [->|]; [reflexivity|].
    rewrite Z.add_0_r. reflexivity.
  - assert (Hn : ~ In t seen).
    { intros Hin%existsb_In. congruence. }
    replace (existsb (String.eqb t) (Spec.first_seen seen)) with false.
    2:{ symmetry. apply not_true_is_false.
        intros Hin. apply Hn, (proj1 (first_seen_In t seen)), existsb_In, Hin. }
    unfold Content.object_prototype.
    destruct (String.eqb_spec t "constructor"); [contradiction|].
    cbn [Content.or_zero_plus_one].
    rewrite set_tabulate_absent
      by (intros Hin; apply Hn, (proj1 (first_seen_In t seen)), Hin).
    rewrite map_app. cbn [map].
    rewrite occurrences_snoc, String.eqb_refl, (occurrences_absent t seen Hn).
    f_equal. apply map_ext_in. intros u Hu.
    apply (proj1 (first_seen_In u seen)) in Hu.
    rewrite occurrences_snoc.
    destruct (String.eqb_spec t u) as [->|]; [contradiction|].
    rewrite Z.add_0_r. reflexivity.
Qed.

Lemma fold_bump_tally rest seen :
  ~ In "constructor" rest ->
  fold_left bump rest (tally seen) = tally (seen ++ rest).
Proof.
  revert seen; induction rest as [|t rest IH]; intros seen Hn; cbn [fold_left].
  - rewrite app_nil_r. reflexivity.
  - rewrite bump_tally by (intros ->; apply Hn; left; reflexivity).
    rewrite IH by (intros Hin; apply Hn; right; exact Hin).
    rewrite <- app_assoc. reflexivity.
Qed.

Section SortMap.

Context {A B : Type} (g : A -> B)
        (cmpA : A -> A -> option Z) (cmpB : B -> B -> option Z)
        (Hcmp : forall x y, cmpB (g x) (g y) = cmpA x y).

Lemma insert_map x l :
  Content.insert cmpB (g x) (map g l) = map g (Content.insert cmpA x l).
Proof.
  induction l as [|y l IH]; cbn; [reflexivity|].
  unfold Content.after. rewrite Hcmp.
  destruct (cmpA x y) as [d|]; [destruct (d >? 0)|]; cbn; congruence.
Qed.

Lemma sort_map l :
  Content.sort cmpB (map g l) = map g (Content.sort cmpA l).
Proof.
  unfold Content.sort. induction l as [|x l IH]; cbn; [reflexivity|].
  rewrite IH. apply insert_map.
Qed.

End SortMap.

(** On every text in which no token is the word [constructor], the
    keywords are those of the specification: tokens lowercased and
    stripped of non-alphabetic characters, those of at most three
    characters and the stop words dropped, frequencies counted, and the
    five most frequent kept in descending order of count, ties in
    first-encountered order, each with its count. *)
Theorem keywords_refine_spec (text : string) :
  ~ In "constructor" (Spec.tokens text) ->
  Content.keywords text
  = map (fun p => Keyword.mk (fst p) (JNum (snd p))) (Spec.keywords text).
Proof.
  intros Hn.
  unfold Content.keywords, Content.keywords_of, Content.wordFreq, Spec.keywords.
  rewrite wordFreq_tokens.
  change (@nil (string * jsval)) with (tally []).
  rewrite fold_bump_tally by exact Hn. cbn [app].
  unfold tally. fold (Spec.tokens text).
  set (g := fun p : string * Z => (fst p, JNum (snd p))).
  replace (map (fun t => (t, JNum (Spec.occurrences t (Spec.tokens text))))
               (Spec.first_seen (Spec.tokens text)))
    with (map g (Spec.frequencies text))
    by (unfold Spec.frequencies; rewrite map_map; reflexivity).
  rewrite (sort_map g Spec.by_count_desc Content.by_count_desc)
    by (intros [a x] [b y]; reflexivity).
  rewrite firstn_map, map_map. reflexivity.
Qed.

End KeywordRefinement.

Lemma keywords_refine_spec_crawl_text :
  let text := "Crawl the site. The crawl visits each page; each page is scored, Page by page." in
  Spec.keywords text
  = [("page", 4); ("crawl", 2); ("each", 2); ("site", 1); ("visits", 1)]
  /\ Content.keywords text
     = map (fun p => Keyword.mk (fst p) (JNum (snd p))) (Spec.keywords text).
Proof.
  cbn zeta. split; [vm_compute; reflexivity|].
  apply keywords_refine_spec. vm_compute.
  intros H; repeat (destruct H as [H|H]; [discriminate H|]); exact H.
Defined.

(* ===================================================================== *)
(** ** Properties of the page analyzer *)
(* ===================================================================== *)

Section AnalyzerFacts.

Import Analyzer.

Context (spell : option (string -> bool)) (page : Page) (url : string).

(** The two shapes of a report that the [try] body returns. *)
Lemma analyzePage_try_returns report log :
  analyzePage_try spell page url = (inr report, log) ->
  (exists resp, goto page url = inr (Some resp) /\ ok resp = false
      /\ report = httpErrorReport url (now_loaded page - now_start page) (status resp))
  \/ (exists sa issues,
        evaluate_static page = inr sa
        /\ report = fullReport spell url (now_loaded page - now_start page)
                      (match goto page url with
                       | inr (Some r) => status r
                       | _ => 0
                       end) sa issues).
Proof.
  unfold analyzePage_try, load, call, catch, bind, ret, throw.
  destruct (setViewport_initial page) as [e|[]]; [discriminate|].
  destruct (goto page url) as [e|[resp|]].
  - destruct (isTimeout e); [|discriminate].
    destruct (evaluate_static page) as [e'|sa]; [discriminate|].
    destruct (sweep page url viewports) as [[e'|issues] l]; [discriminate|].
    intros [= <- _]. right. eauto.
  - destruct (ok resp) eqn:Hok; cbn [negb].
    + destruct (evaluate_static page) as [e'|sa]; [discriminate|].
      destruct (sweep page url viewports) as [[e'|issues] l]; [discriminate|].
      intros [= <- _]. right. eauto.
    + intros [= <- _]. left. eauto.
  - destruct (evaluate_static page) as [e'|sa]; [discriminate|].
    destruct (sweep page url viewports) as [[e'|issues] l]; [discriminate|].
    intros [= <- _]. right. eauto.
Qed.

Lemma fullReport_fields responseTime statusCode sa issues :
  let r := fullReport spell url responseTime statusCode sa issues in
  PageAnalysis.url r = url
  /\ PageAnalysis.statusCode r = statusCode
  /\ PageAnalysis.error r = None
  /\ PageAnalysis.links r = StaticAnalysis.links sa
  /\ PageAnalysis.contentMetrics r = Some (Content.contentMetrics sa).
Proof.
  unfold fullReport.
  destruct (Content.scan_words spell _) as [typos long]. cbn. auto.
Qed.

(** Every report carries the URL it was asked to analyze. *)
Lemma analyzePage_url : PageAnalysis.url (analyzePage spell page url) = url.
Proof.
  unfold analyzePage, analyzePage_traced.
  destruct (analyzePage_try spell page url) as [[e|report] log] eqn:H;
    [reflexivity|].
  apply analyzePage_try_returns in H as [(resp & _ & _ & ->)|(sa & issues & _ & ->)].
  - reflexivity.
  - apply fullReport_fields.
Qed.

End AnalyzerFacts.

Section AnalyzerClaims.

Import Analyzer.

Context (spell : option (string -> bool)) (page : Page) (url : string).

(** C2. A navigation that resolves to a response whose [ok()] is false
    makes [analyzePage] return at once: the report has
    [error = "HTTP <status>"], the response's status code, empty title
    and meta description, no h1, no links, zero issue counts, no viewport
    issues and no content metrics; the only calls made on the page are
    the initial [setViewport] and the [goto], so neither the viewport
    sweep nor the static evaluation that feeds the content scoring ran. *)
Theorem non_ok_response_short_circuits (resp : Response) :
  setViewport_initial page = inr tt ->
  goto page url = inr (Some resp) ->
  ok resp = false ->
  analyzePage_traced spell page url =
  ({| PageAnalysis.url := url;
      PageAnalysis.title := EmptyString;
      PageAnalysis.metaDescription := EmptyString;
      PageAnalysis.h1 := None;
      PageAnalysis.responseTime := now_loaded page - now_start page;
      PageAnalysis.statusCode := status resp;
      PageAnalysis.error := Some ("HTTP " +:+ Js.of_int (status resp));
      PageAnalysis.links := [];
      PageAnalysis.missingAltTags := 0;
      PageAnalysis.emptyLinks := 0;
      PageAnalysis.hasViewport := false;
      PageAnalysis.h1Count := 0;
      PageAnalysis.imagesMissingDimensions := 0;
      PageAnalysis.longWords := 0;
      PageAnalysis.viewportIssues := [];
      PageAnalysis.possibleTypos := [];
      PageAnalysis.contentMetrics := None |},
   [mkEvent (SetViewport 1920 1080) None; mkEvent (Goto url) None]).
Proof.
  intros Hv Hg Hok.
  unfold analyzePage_traced, analyzePage_try, load, call, catch, bind, ret.
  rewrite Hv, Hg, Hok. reflexivity.
Qed.

End AnalyzerClaims.

Lemma non_ok_response_short_circuits_404 :
  let page := Samples.missing in
  let url := "https://example.com/gone" in
  Analyzer.setViewport_initial page = inr tt
  /\ Analyzer.goto page url = inr (Some (Analyzer.mkResponse 404 false))
  /\ PageAnalysis.error (Analyzer.analyzePage None page url) = Some "HTTP 404"
  /\ PageAnalysis.statusCode (Analyzer.analyzePage None page url) = 404
  /\ PageAnalysis.links (Analyzer.analyzePage None page url) = []
  /\ PageAnalysis.contentMetrics (Analyzer.analyzePage None page url) = None.
Proof.
  intros page url.
  pose proof (non_ok_response_short_circuits None page url
                (Analyzer.mkResponse 404 false) eq_refl eq_refl eq_refl) as H.
  unfold Analyzer.analyzePage. rewrite H.
  repeat split; reflexivity.
Defined.

Section Timeouts.

Import Analyzer.

Context (spell : option (string -> bool)) (page : Page) (url : string).

Lemma sweep_succeeds vps :
  (forall vp, setViewport page vp = inr tt) ->
  (forall vp, exists i, evaluate_viewport page vp = inr i) ->
  exists issues log, sweep page url vps = (inr issues, log).
Proof.
  intros Hset Heval.
  induction vps as [|vp vps (issues & log & IH)]; cbn [sweep].
  - unfold ret. eauto.
  - unfold measure, call, bind, catch, ret.
    rewrite Hset. destruct (Heval vp) as [i ->].
    destruct (horizontalScroll i || (overflowingElements i >? 0)).
    + destruct (screenshot page _); rewrite IH; eauto.
    + rewrite IH; eauto.
Qed.

(** C3, as the code has it. The report lacks [contentMetrics] exactly when
    it carries an [error], that is, when the response was not ok or a
    failure reached the outer [catch]. A navigation timeout is not such a
    failure: when the remaining calls succeed, the report has
    [statusCode = 0], no [error], and the content metrics of the document
    that was extracted. *)
Theorem contentMetrics_absent_iff_error :
  let report := analyzePage spell page url in
  (PageAnalysis.contentMetrics report = None <-> PageAnalysis.error report <> None)
  /\ (forall e sa,
        setViewport_initial page = inr tt ->
        goto page url = inl e ->
        isTimeout e = true ->
        evaluate_static page = inr sa ->
        (forall vp, setViewport page vp = inr tt) ->
        (forall vp, exists i, evaluate_viewport page vp = inr i) ->
        PageAnalysis.statusCode report = 0
        /\ PageAnalysis.error report = None
        /\ PageAnalysis.contentMetrics report = Some (Content.contentMetrics sa)).
Proof.
  cbn zeta. split.
  - unfold analyzePage, analyzePage_traced.
    destruct (analyzePage_try spell page url) as [[e|report] log] eqn:H; cbn.
    + split; [discriminate|reflexivity].
    + apply analyzePage_try_returns in H
        as [(resp & _ & _ & ->)|(sa & issues & _ & ->)].
      * cbn. split; [discriminate|reflexivity].
      * pose proof (fullReport_fields spell url
                      (now_loaded page - now_start page)
                      (match goto page url with inr (Some r) => status r | _ => 0 end)
                      sa issues) as (_ & _ & -> & _ & ->).
        split; [discriminate|congruence].
  - intros e sa Hv Hg Ht Hs Hset Heval.
    destruct (sweep_succeeds viewports Hset Heval) as (issues & log & Hsw).
    unfold analyzePage, analyzePage_traced, analyzePage_try, load, call, catch,
      bind, ret.
    rewrite Hv, Hg, Ht, Hs, Hsw. cbn [fst].
    pose proof (fullReport_fields spell url (now_loaded page - now_start page) 0
                  sa issues) as (_ & -> & -> & _ & ->).
    auto.
Qed.

End Timeouts.

Lemma contentMetrics_after_timeout :
  let page := Samples.slow in
  let url := "https://example.com/" in
  let report := Analyzer.analyzePage None page url in
  Analyzer.goto page url = inl Samples.timeout
  /\ Analyzer.isTimeout Samples.timeout = true
  /\ PageAnalysis.statusCode report = 0
  /\ PageAnalysis.error report = None
  /\ PageAnalysis.contentMetrics report
     = Some (Content.contentMetrics (Samples.document [])).
Proof.
  cbn zeta. split; [reflexivity|]. split; [reflexivity|].
  refine (proj2 (contentMetrics_absent_iff_error None Samples.slow
                   "https://example.com/")
                Samples.timeout (Samples.document [])
                eq_refl eq_refl eq_refl eq_refl (fun _ => eq_refl) _).
  intros vp. exists Samples.noIssues. reflexivity.
Defined.

(** C3, as stated, fails: a navigation that times out yields a report with
    the sentinel [statusCode = 0] that does carry [contentMetrics]. *)
Lemma timeout_report_has_contentMetrics :
  exists e,
    Analyzer.goto Samples.slow "https://example.com/" = inl e
    /\ Analyzer.isTimeout e = true
    /\ PageAnalysis.statusCode
         (Analyzer.analyzePage None Samples.slow "https://example.com/") = 0
    /\ PageAnalysis.contentMetrics
         (Analyzer.analyzePage None Samples.slow "https://example.com/") <> None.
Proof.
  exists Samples.timeout. repeat split. vm_compute. discriminate.
Qed.

Section Failures.

Import Analyzer.

Lemma well_traced_ret {A} (a : A) : well_traced (ret a).
Proof. constructor. Qed.

Lemma well_traced_call {A} (o : Op) (r : Thrown + A) :
  well_traced (call o r).
Proof.
  destruct r as [e|a]; cbn.
  - exists [], o. split; [reflexivity|constructor].
  - repeat constructor.
Qed.

Lemma well_traced_bind {A B} (m : M A) (k : A -> M B) :
  well_traced m -> (forall a, well_traced (k a)) -> well_traced (bind m k).
Proof.
  destruct m as [[e|a] log]; cbn; intros Hm Hk; [exact Hm|].
  specialize (Hk a). destruct (k a) as [[e|b] log']; cbn in *.
  - destruct Hk as (earlier & o & -> & He).
    exists (log ++ earlier)%list, o. split.
    + apply app_assoc.
    + apply Forall_app; auto.
  - apply Forall_app; auto.
Qed.

Lemma well_traced_load page url : well_traced (load page url).
Proof.
  unfold load, call, catch.
  destruct (goto page url) as [e|r]; cbn.
  - destruct (isTimeout e) eqn:Ht; cbn.
    + repeat constructor. exact Ht.
    + exists [], (Goto url). split; [reflexivity|constructor].
  - repeat constructor.
Qed.

Lemma well_traced_measure page url vp : well_traced (measure page url vp).
Proof.
  unfold measure.
  apply well_traced_bind; [apply well_traced_call|intros _].
  apply well_traced_bind; [apply well_traced_call|intros issues].
  apply well_traced_bind; [|intros p; apply well_traced_ret].
  destruct (horizontalScroll issues || (overflowingElements issues >? 0));
    [|apply well_traced_ret].
  unfold catch, bind, call, ret.
  destruct (screenshot page _); repeat constructor.
Qed.

Lemma well_traced_sweep page url vps : well_traced (sweep page url vps).
Proof.
  induction vps as [|vp vps IH]; cbn [sweep]; [apply well_traced_ret|].
  apply well_traced_bind; [apply well_traced_measure|intros issue].
  apply well_traced_bind; [exact IH|intros issues; apply well_traced_ret].
Qed.

Lemma well_traced_analyzePage_try spell page url :
  well_traced (analyzePage_try spell page url).
Proof.
  unfold analyzePage_try.
  apply well_traced_bind; [apply well_traced_call|intros _].
  apply well_traced_bind; [apply well_traced_load|intros response].
  destruct (match response with Some r => negb (ok r) | None => false end);
    [apply well_traced_ret|].
  apply well_traced_bind; [apply well_traced_call|intros sa].
  apply well_traced_bind; [apply well_traced_sweep|intros issues].
  apply well_traced_ret.
Qed.

(** C6, as the code has it. [analyzePage] always returns a report. When a
    call made during the analysis failed, and the failure is neither a
    navigation timeout nor a failure to write a screenshot (both let the
    analysis continue), the report is the one with empty extraction
    fields, no links and zero issue counts whose [error] is the failure's
    message if the failure is an [Error] object and ["Failed to fetch"]
    otherwise. *)
Theorem analyzePage_converts_failures spell page url ev e :
  In ev (snd (analyzePage_traced spell page url)) ->
  threw ev = Some e ->
  ~ absorbed ev ->
  analyzePage spell page url =
  {| PageAnalysis.url := url;
     PageAnalysis.title := EmptyString;
     PageAnalysis.metaDescription := EmptyString;
     PageAnalysis.h1 := None;
     PageAnalysis.responseTime := 0;
     PageAnalysis.statusCode := 0;
     PageAnalysis.error :=
       Some (match e with
             | ErrorObject _ message => message
             | NonError => "Failed to fetch"
             end);
     PageAnalysis.links := [];
     PageAnalysis.missingAltTags := 0;
     PageAnalysis.emptyLinks := 0;
     PageAnalysis.hasViewport := false;
     PageAnalysis.h1Count := 0;
     PageAnalysis.imagesMissingDimensions := 0;
     PageAnalysis.longWords := 0;
     PageAnalysis.viewportIssues := [];
     PageAnalysis.possibleTypos := [];
     PageAnalysis.contentMetrics := None |}.
Proof.
  intros Hin Hthrew Hnot.
  pose proof (well_traced_analyzePage_try spell page url) as Hwt.
  unfold analyzePage, analyzePage_traced in *.
  destruct (analyzePage_try spell page url) as [[e'|report] log]; cbn in *.
  - destruct Hwt as (earlier & o & -> & Hearlier).
    apply in_app_or in Hin as [Hin|[<-|[]]].
    + rewrite Forall_forall in Hearlier. apply list_elem_of_In in Hin. 
      exfalso. apply Hnot, Hearlier, Hin.
    + cbn in Hthrew. injection Hthrew as <-. reflexivity.
  - rewrite Forall_forall in Hwt. apply list_elem_of_In in Hin.
    exfalso. apply Hnot, Hwt, Hin.
Qed.

End Failures.

Lemma analyzePage_converts_failures_crash :
  let page := Samples.crashing Samples.detached in
  let url := "https://example.com/" in
  let ev := Analyzer.mkEvent Analyzer.EvaluateStatic (Some Samples.detached) in
  In ev (snd (Analyzer.analyzePage_traced None page url))
  /\ Analyzer.threw ev = Some Samples.detached
  /\ PageAnalysis.error (Analyzer.analyzePage None page url)
     = Some "Execution context was destroyed"
  /\ PageAnalysis.links (Analyzer.analyzePage None page url) = []
  /\ PageAnalysis.contentMetrics (Analyzer.analyzePage None page url) = None.
Proof.
  cbn zeta.
  assert (Hin : In (Analyzer.mkEvent Analyzer.EvaluateStatic (Some Samples.detached))
                   (snd (Analyzer.analyzePage_traced None
                           (Samples.crashing Samples.detached)
                           "https://example.com/"))).
  { vm_compute. auto. }
  split; [exact Hin|]. split; [reflexivity|].
  rewrite (analyzePage_converts_failures None
             (Samples.crashing Samples.detached) "https://example.com/"
             _ Samples.detached Hin eq_refl (fun H => H)).
  repeat split.
Defined.

(** C6, as stated, fails twice. A failure to write a screenshot is raised
    inside the protocol and is not a navigation timeout, yet the report
    carries no [error] and keeps its content metrics; and a thrown value
    that is not an [Error] object has no message to report, so the report
    says ["Failed to fetch"]. *)
Lemma screenshot_failure_is_not_reported :
  (exists filename,
     In (Analyzer.mkEvent (Analyzer.Screenshot filename) (Some Samples.diskFull))
        (snd (Analyzer.analyzePage_traced None Samples.unwritable
                "https://example.com/")))
  /\ PageAnalysis.error
       (Analyzer.analyzePage None Samples.unwritable "https://example.com/") = None
  /\ PageAnalysis.title
       (Analyzer.analyzePage None Samples.unwritable "https://example.com/")
     = "Example Domain"
  /\ (exists m, PageAnalysis.contentMetrics
                  (Analyzer.analyzePage None Samples.unwritable "https://example.com/")
                = Some m)
  /\ PageAnalysis.error
       (Analyzer.analyzePage None (Samples.crashing Analyzer.NonError)
          "https://example.com/")
     = Some "Failed to fetch".
Proof.
  split.
  - exists "issue_https___example_com__Desktop_2000.jpg". vm_compute. auto 10.
  - split; [vm_compute; reflexivity|]. split; [vm_compute; reflexivity|].
    split; [eexists; vm_compute; reflexivity|vm_compute; reflexivity].
Qed.

(* ===================================================================== *)
(** ** Properties of the crawl frontier controller *)
(* ===================================================================== *)

Section LoopFacts.

Import Analyzer Crawler Frontier.

Context (parse : Parser) (spell : option (string -> bool))
        (browser : Browser) (options : CrawlOptions.t)
        (allowedDomain : string).

Local Abbreviation iteration := (iteration parse spell browser options allowedDomain).
Local Abbreviation crawl_loop := (crawl_loop parse spell browser options allowedDomain).
Local Abbreviation enqueue_link := (enqueue_link parse allowedDomain).
Local Abbreviation enqueue_links := (enqueue_links parse options allowedDomain).

Lemma crawl_loop_eqn st :
  crawl_loop st =
  match iteration st with
  | Exit => mkRun st None
  | Raise e st' => mkRun st' (Some e)
  | Next st' => crawl_loop st'
  end.
Proof.
  funelim (crawl_loop st).
  - rewrite e. reflexivity.
  - rewrite H. reflexivity.
  - rewrite e1. reflexivity.
Qed.

Lemma crawl_steps_sound n st run :
  crawl_steps parse spell browser options allowedDomain n st = Some run ->
  crawl_loop st = run.
Proof.
  revert st; induction n as [|n IH]; intros st; cbn [crawl_steps];
    [discriminate|].
  rewrite crawl_loop_eqn.
  destruct (iteration st); [congruence| apply IH |congruence].
Qed.

(** What one pass through the loop does. *)
Lemma iteration_next st st' :
  iteration st = Next st' ->
  exists e rest,
    queue st = e :: rest
    /\ pagesCrawled st < CrawlOptions.maxPages options
    /\ (((url e ∈ visited st)
         /\ st' = mkState (visited st) rest (pagesCrawled st) (yielded st))
        \/ ((url e ∉ visited st)
            /\ exists page,
                newPage browser (pagesCrawled st) = inr page
                /\ st' = mkState ({[url e]} ∪ visited st)
                           (enqueue_links e ({[url e]} ∪ visited st)
                              (analyzePage spell page (url e)) rest)
                           (pagesCrawled st + 1)
                           (yielded st ++ [analyzePage spell page (url e)]))).
Proof.
  unfold Crawler.iteration.
  destruct (queue st) as [|e rest]; [discriminate|].
  destruct (Z.ltb_spec (pagesCrawled st) (CrawlOptions.maxPages options));
    [|discriminate].
  intros Hit. exists e, rest. split; [reflexivity|]. split; [assumption|].
  destruct (decide (url e ∈ visited st)).
  - left. split; [assumption|congruence].
  - right. split; [assumption|].
    destruct (newPage browser (pagesCrawled st)) as [|page]; [discriminate|].
    destruct (closePage browser (pagesCrawled st)); [discriminate|].
    exists page. split; [reflexivity|congruence].
Qed.

Lemma iteration_raise st err st' :
  iteration st = Raise err st' ->
  exists e rest,
    queue st = e :: rest
    /\ (url e ∉ visited st)
    /\ st' = mkState ({[url e]} ∪ visited st) rest (pagesCrawled st) (yielded st).
Proof.
  unfold Crawler.iteration.
  destruct (queue st) as [|e rest]; [discriminate|].
  destruct (pagesCrawled st <? CrawlOptions.maxPages options); [|discriminate].
  destruct (decide (url e ∈ visited st)); [discriminate|].
  intros Hit. exists e, rest. split; [reflexivity|]. split; [assumption|].
  destruct (newPage browser (pagesCrawled st)) as [|page]; [congruence|].
  destruct (closePage browser (pagesCrawled st)); [congruence|discriminate].
Qed.

(** A property of the generator's variables that every pass preserves
    holds when the generator ends, however it ends. *)
Lemma crawl_loop_invariant (I : State -> Prop) :
  (forall st st', I st -> iteration st = Next st' -> I st') ->
  (forall st err st', I st -> iteration st = Raise err st' -> I st') ->
  forall st, I st -> I (final (crawl_loop st)).
Proof.
  intros Hnext Hraise st.
  funelim (crawl_loop st); intros HI; cbn [final].
  - exact HI.
  - match goal with IH : forall I : State -> Prop, _ |- _ => apply IH end; eauto.
  - eauto.
Qed.

End LoopFacts.

Section Admission.

Import Analyzer Crawler Frontier.

Context (parse : Parser) (spell : option (string -> bool))
        (browser : Browser) (options : CrawlOptions.t)
        (allowedDomain : string).

Local Abbreviation iteration := (iteration parse spell browser options allowedDomain).
Local Abbreviation crawl_loop := (crawl_loop parse spell browser options allowedDomain).
Local Abbreviation enqueue_link := (enqueue_link parse allowedDomain).
Local Abbreviation enqueue_links := (enqueue_links parse options allowedDomain).

Local Abbreviation passes := (passes parse allowedDomain).

Lemma enqueue_link_pushes pageUrl pageDepth seen q link :
  enqueue_link pageUrl pageDepth seen q link = q
  \/ exists v, passes pageUrl seen link v
               /\ enqueue_link pageUrl pageDepth seen q link
                  = (q ++ [mkEntry v (pageDepth + 1)])%list.
Proof.
  unfold Crawler.enqueue_link.
  destruct (parse (Some pageUrl) link) as [resolved|] eqn:Hr; [|auto].
  destruct (parse None (href resolved)) as [urlObj|] eqn:Hu; [|auto].
  destruct (String.eqb_spec (hostname urlObj) allowedDomain) as [Hh|]; [|auto].
  cbn [andb].
  destruct (_ || _) eqn:Hp; [|auto].
  destruct (decide (Js.before_hash (href resolved) ∈ seen)); [auto|].
  right. eexists. split; [|reflexivity].
  exists resolved, urlObj. repeat split; try assumption.
  apply orb_true_iff in Hp as [Hp|Hp]; apply String.eqb_eq in Hp; auto.
Qed.

Lemma fold_enqueue_link pageUrl pageDepth seen links q entry :
  In entry (fold_left (enqueue_link pageUrl pageDepth seen) links q) ->
  In entry q
  \/ exists link, In link links
       /\ passes pageUrl seen link (url entry)
       /\ depth entry = pageDepth + 1.
Proof.
  revert q; induction links as [|link links IH]; intros q; cbn [fold_left].
  - auto.
  - intros Hin. apply IH in Hin as [Hin|(l & Hl & Hp & Hd)].
    + destruct (enqueue_link_pushes pageUrl pageDepth seen q link)
        as [Heq|(v & Hv & Heq)]; rewrite Heq in Hin; [auto|].
      apply in_app_or in Hin as [Hin|[<-|[]]]; [auto|].
      right. exists link. cbn. auto.
    + right. exists l. cbn. auto.
Qed.

Lemma enqueue_links_pushes e seen analysis q entry :
  In entry (enqueue_links e seen analysis q) ->
  In entry q
  \/ (depth e < CrawlOptions.maxDepth options
      /\ depth entry = depth e + 1
      /\ exists link, In link (PageAnalysis.links analysis)
                      /\ passes (url e) seen link (url entry)).
Proof.
  unfold Crawler.enqueue_links.
  destruct (Z.ltb_spec (depth e) (CrawlOptions.maxDepth options)); [|auto].
  intros Hin. apply fold_enqueue_link in Hin as [Hin|(l & Hl & Hp & Hd)];
    [auto|]. right. eauto.
Qed.

(** A link that the parser rejects leaves the queue as it is. *)
Lemma malformed_link_discarded pageUrl pageDepth seen q link :
  parse (Some pageUrl) link = None ->
  enqueue_link pageUrl pageDepth seen q link = q.
Proof. unfold Crawler.enqueue_link. intros ->. reflexivity. Qed.

(** The entries that a pass through the loop adds to the queue. *)
Lemma iteration_pushes st st' entry :
  iteration st = Next st' ->
  In entry (queue st') ->
  In entry (queue st)
  \/ exists e page link,
       head (queue st) = Some e
       /\ newPage browser (pagesCrawled st) = inr page
       /\ In link (PageAnalysis.links (analyzePage spell page (url e)))
       /\ passes (url e) (visited st') link (url entry)
       /\ depth e < CrawlOptions.maxDepth options
       /\ depth entry = depth e + 1.
Proof.
  intros H Hin.
  apply iteration_next in H
    as (e & rest & Hq & _ & [[_ ->]|[_ (page & Hpage & ->)]]); cbn in Hin.
  - left. rewrite Hq. right. exact Hin.
  - apply enqueue_links_pushes in Hin as [Hin|(Hlt & Hd & link & Hl & Hp)].
    + left. rewrite Hq. right. exact Hin.
    + right. exists e, page, link. rewrite Hq. cbn. auto 10.
Qed.

End Admission.

Section CrawlInvariants.

Import Analyzer Crawler Frontier.

Context (parse : Parser) (spell : option (string -> bool))
        (browser : Browser) (options : CrawlOptions.t)
        (allowedDomain : string) (startUrl : string).

Local Abbreviation iteration := (iteration parse spell browser options allowedDomain).
Local Abbreviation crawl_loop := (crawl_loop parse spell browser options allowedDomain).
Local Abbreviation reachable := (reachable parse startUrl).
Local Abbreviation admitted := (admitted parse allowedDomain).
Local Abbreviation counted := (counted options).
Local Abbreviation origin := (origin parse allowedDomain startUrl).
Local Abbreviation confined := (confined parse allowedDomain startUrl).
Local Abbreviation within := (within parse options startUrl).
Local Abbreviation bounded := (bounded parse options startUrl).

Lemma reachable_mono rs rs' d v :
  (forall r, In r rs -> In r rs') -> reachable rs d v -> reachable rs' d v.
Proof.
  intros Hsub. induction 1 as [|d r v _ IH Hr Hres].
  - constructor.
  - econstructor; eauto.
Qed.

Lemma passes_resolves pageUrl seen link v r :
  PageAnalysis.url r = pageUrl ->
  In link (PageAnalysis.links r) ->
  passes parse allowedDomain pageUrl seen link v ->
  resolves parse r v.
Proof.
  intros Hu Hl (resolved & urlObj & Hr & _ & _ & _ & Hv & _).
  exists link, resolved. rewrite Hu. auto.
Qed.

(** *** Page cap *)

Lemma counted_next st st' : counted st -> iteration st = Next st' -> counted st'.
Proof.
  intros [Hc Hle] H.
  apply iteration_next in H
    as (e & rest & Hq & Hlt & [[_ ->]|[_ (page & _ & ->)]]); unfold counted; cbn.
  - auto.
  - rewrite length_app. cbn. lia.
Qed.

Lemma counted_raise st err st' :
  counted st -> iteration st = Raise err st' -> counted st'.
Proof.
  intros Hc H. apply iteration_raise in H as (e & rest & _ & _ & ->). exact Hc.
Qed.

(** *** Visited set *)

Lemma unique_next st st' : unique st -> iteration st = Next st' -> unique st'.
Proof.
  intros [Hnd Hvis] H.
  apply iteration_next in H
    as (e & rest & Hq & Hlt & [[_ ->]|[Hnew (page & _ & ->)]]); unfold unique; cbn.
  - auto.
  - split.
    + rewrite map_app. cbn [map]. rewrite analyzePage_url.
      apply NoDup_app. split; [exact Hnd|]. split.
      * intros u Hu ->%list_elem_of_singleton.
        apply list_elem_of_In, in_map_iff in Hu as (r & Hu & Hr).
        apply Hnew. rewrite <- Hu. apply Hvis, Hr.
      * apply NoDup_singleton.
    + intros r [Hr|[<-|[]]]%in_app_or.
      * apply elem_of_union_r, Hvis, Hr.
      * rewrite analyzePage_url. apply elem_of_union_l, elem_of_singleton. reflexivity.
Qed.

Lemma unique_raise st err st' :
  unique st -> iteration st = Raise err st' -> unique st'.
Proof.
  intros [Hnd Hvis] H. apply iteration_raise in H as (e & rest & _ & _ & ->).
  split; cbn; [exact Hnd|]. intros r Hr. apply elem_of_union_r, Hvis, Hr.
Qed.

(** *** Fragments *)

Lemma before_hash_idempotent s : Js.before_hash (Js.before_hash s) = Js.before_hash s.
Proof.
  induction s as [|c s IH]; cbn; [reflexivity|].
  destruct (Ascii.eqb c "#") eqn:E; cbn; [reflexivity|].
  rewrite E, IH. reflexivity.
Qed.

Lemma stripped_next st st' : stripped st -> iteration st = Next st' -> stripped st'.
Proof.
  intros [Hq Hy] H.
  apply iteration_next in H
    as (e & rest & Hqe & Hlt & [[_ ->]|[Hnew (page & _ & ->)]]); unfold stripped; cbn.
  - rewrite Hqe in Hq. split; [|exact Hy]. intros e' He'. apply Hq. right. exact He'.
  - rewrite Hqe in Hq. split.
    + intros e' [He'|(_ & _ & link & _ & Hp)]%enqueue_links_pushes.
      * apply Hq. right. exact He'.
      * destruct Hp as (resolved & urlObj & _ & _ & _ & _ & -> & _).
        apply before_hash_idempotent.
    + intros r [Hr|[<-|[]]]%in_app_or; [auto|].
      rewrite analyzePage_url. apply Hq. left. reflexivity.
Qed.

Lemma stripped_raise st err st' :
  stripped st -> iteration st = Raise err st' -> stripped st'.
Proof.
  intros [Hq Hy] H. apply iteration_raise in H as (e & rest & Hqe & _ & ->).
  rewrite Hqe in Hq. split; cbn; [|exact Hy]. intros e' He'. apply Hq. right. exact He'.
Qed.

(** *** Domain *)

Lemma origin_mono rs rs' u :
  (forall r, In r rs -> In r rs') -> origin rs u -> origin rs' u.
Proof. intros Hsub [->|(page & Hp & Ha)]; [left|right]; eauto. Qed.

Lemma confined_next st st' : confined st -> iteration st = Next st' -> confined st'.
Proof.
  intros [Hq Hy] H.
  apply iteration_next in H
    as (e & rest & Hqe & Hlt & [[_ ->]|[Hnew (page & _ & ->)]]); unfold confined; cbn.
  - rewrite Hqe in Hq. split; [|exact Hy]. intros e' He'. apply Hq. right. exact He'.
  - rewrite Hqe in Hq.
    assert (Hsub : forall r, In r (yielded st) ->
                             In r (yielded st ++ [analyzePage spell page (url e)])).
    { intros r Hr. apply in_or_app. auto. }
    split.
    + intros e' [He'|(_ & _ & link & Hl & Hp)]%enqueue_links_pushes.
      * eapply origin_mono; [exact Hsub|]. apply Hq. right. exact He'.
      * right. exists (analyzePage spell page (url e)). split.
        -- apply in_or_app. right. left. reflexivity.
        -- exists link, ({[url e]} ∪ visited st). rewrite analyzePage_url. auto.
    + intros r [Hr|[<-|[]]]%in_app_or.
      * eapply origin_mono; [exact Hsub|]. auto.
      * rewrite analyzePage_url. eapply origin_mono; [exact Hsub|].
        apply Hq. left. reflexivity.
Qed.

Lemma confined_raise st err st' :
  confined st -> iteration st = Raise err st' -> confined st'.
Proof.
  intros [Hq Hy] H. apply iteration_raise in H as (e & rest & Hqe & _ & ->).
  rewrite Hqe in Hq. split; cbn; [|exact Hy]. intros e' He'. apply Hq. right. exact He'.
Qed.

(** *** Depth *)

Lemma within_mono rs rs' u k :
  (forall r, In r rs -> In r rs') -> within rs u k -> within rs' u k.
Proof.
  intros Hsub (d & Hk & Hle & Hr). exists d. eauto using reachable_mono.
Qed.

Lemma bounded_next st st' : bounded st -> iteration st = Next st' -> bounded st'.
Proof.
  intros [Hq Hy] H.
  apply iteration_next in H
    as (e & rest & Hqe & Hlt & [[_ ->]|[Hnew (page & _ & ->)]]); unfold bounded; cbn.
  - rewrite Hqe in Hq. split; [|exact Hy]. intros e' He'. apply Hq. right. exact He'.
  - rewrite Hqe in Hq.
    set (analysis := analyzePage spell page (url e)).
    assert (Hsub : forall r, In r (yielded st) -> In r (yielded st ++ [analysis])).
    { intros r Hr. apply in_or_app. auto. }
    assert (He : within (yielded st ++ [analysis]) (url e) (depth e)).
    { eapply within_mono; [exact Hsub|]. apply Hq. left. reflexivity. }
    split.
    + intros e' [He'|(Hlt' & Hd & link & Hl & Hp)]%enqueue_links_pushes.
      * eapply within_mono; [exact Hsub|]. apply Hq. right. exact He'.
      * destruct He as (d & Hk & Hle & Hr).
        exists (S d). split; [lia|]. split; [lia|].
        apply reach_link with (r := analysis).
        -- unfold analysis. rewrite analyzePage_url. exact Hr.
        -- apply in_or_app. right. left. reflexivity.
        -- eapply passes_resolves; [apply analyzePage_url|exact Hl|exact Hp].
    + intros r [Hr|[<-|[]]]%in_app_or.
      * destruct (Hy r Hr) as (k & Hk). exists k. eapply within_mono; eauto.
      * exists (depth e). unfold analysis. rewrite analyzePage_url. exact He.
Qed.

Lemma bounded_raise st err st' :
  bounded st -> iteration st = Raise err st' -> bounded st'.
Proof.
  intros [Hq Hy] H. apply iteration_raise in H as (e & rest & Hqe & _ & ->).
  rewrite Hqe in Hq. split; cbn; [|exact Hy]. intros e' He'. apply Hq. right. exact He'.
Qed.

End CrawlInvariants.

Section CrawlClaims.

Import Analyzer Crawler Frontier.

Context (w : World) (startUrl : string) (options : CrawlOptions.t).

Lemma crawlSite_cases :
  final (crawlSite w startUrl options) = initial startUrl
  \/ exists browser start,
       launch w = inr browser
       /\ Crawler.parse w None startUrl = Some start
       /\ final (crawlSite w startUrl options)
          = final (crawl_loop (Crawler.parse w) (spell w) browser options
                              (hostname start) (initial startUrl)).
Proof.
  unfold crawlSite, crawl_try.
  destruct (launch w) as [e|browser]; [left; reflexivity|].
  destruct (Crawler.parse w None startUrl) as [start|].
  - right. exists browser, start. destruct (close browser); auto.
  - left. destruct (close browser); reflexivity.
Qed.

(** The page cap and the visited set: a crawl delivers at most
    [maxPages] reports, no URL string is reported twice, every reported
    URL is in the visited set, and when the start URL has no fragment no
    two reports agree after their fragments are stripped. *)
Lemma crawlSite_cap_and_uniqueness :
  let run := crawlSite w startUrl options in
  Z.of_nat (length (reports run)) <= Z.max 0 (CrawlOptions.maxPages options)
  /\ NoDup (map PageAnalysis.url (reports run))
  /\ (forall r, In r (reports run) -> PageAnalysis.url r ∈ visited (final run))
  /\ (Js.before_hash startUrl = startUrl ->
      NoDup (map (fun r => Js.before_hash (PageAnalysis.url r)) (reports run))).
Proof.
  cbn zeta. unfold reports.
  destruct crawlSite_cases as [->|(browser & start & _ & _ & ->)].
  - cbn. split; [lia|]. split; [constructor|]. split; [intros r []|].
    intros _; constructor.
  - set (loop := crawl_loop (Crawler.parse w) (spell w) browser options (hostname start)).
    assert (Hc : counted options (final (loop (initial startUrl)))).
    { apply crawl_loop_invariant;
        [intros; eapply counted_next; eauto
        |intros; eapply counted_raise; eauto|].
      split; cbn; lia. }
    assert (Hu : unique (final (loop (initial startUrl)))).
    { apply crawl_loop_invariant;
        [intros; eapply unique_next; eauto
        |intros; eapply unique_raise; eauto|].
      split; cbn; [constructor|intros r []]. }
    destruct Hc as [Hc Hle], Hu as [Hnd Hvis].
    split; [lia|]. split; [exact Hnd|]. split; [exact Hvis|].
    intros Hstart.
    assert (Hs : stripped (final (loop (initial startUrl)))).
    { apply crawl_loop_invariant;
        [intros; eapply stripped_next; eauto
        |intros; eapply stripped_raise; eauto|].
      split; cbn; [intros e [<-|[]]; exact Hstart|intros r []]. }
    destruct Hs as [_ Hs].
    erewrite map_ext_in; [exact Hnd|]. intros r Hr. apply Hs, Hr.
Qed.

(** C4. In every pass through the loop, an entry is added to the queue
    only for a link of the page just analyzed that resolves against the
    page's own URL to an absolute URL that parses, whose hostname is
    exactly the allowed one (the start URL's) and whose scheme is [http:]
    or [https:], and whose fragment-stripped form is not in the visited
    set; the entry holds that form. Consequently every report of a crawl
    is for the start URL or for a URL so admitted from a reported page,
    so a link to another host never leads to a report. A link that does
    not parse leaves the queue unchanged, and so does one whose hostname
    differs. *)
Theorem domain_confinement :
  let run := crawlSite w startUrl options in
  (forall browser dom st st' entry,
      iteration (Crawler.parse w) (spell w) browser options dom st = Next st' ->
      In entry (queue st') ->
      In entry (queue st)
      \/ exists e page link,
           head (queue st) = Some e
           /\ newPage browser (pagesCrawled st) = inr page
           /\ In link (PageAnalysis.links (analyzePage (spell w) page (url e)))
           /\ passes (Crawler.parse w) dom (url e) (visited st') link (url entry))
  /\ (forall r, In r (reports run) ->
        PageAnalysis.url r = startUrl
        \/ exists start page,
             Crawler.parse w None startUrl = Some start
             /\ In page (reports run)
             /\ admitted (Crawler.parse w) (hostname start) page (PageAnalysis.url r))
  /\ (forall dom pageUrl pageDepth seen q link,
        Crawler.parse w (Some pageUrl) link = None ->
        enqueue_link (Crawler.parse w) dom pageUrl pageDepth seen q link = q)
  /\ (forall dom pageUrl pageDepth seen q link resolved urlObj,
        Crawler.parse w (Some pageUrl) link = Some resolved ->
        Crawler.parse w None (href resolved) = Some urlObj ->
        hostname urlObj <> dom ->
        enqueue_link (Crawler.parse w) dom pageUrl pageDepth seen q link = q).
Proof.
  cbn zeta. split; [|split; [|split]].
  - intros browser dom st st' entry Hit Hin.
    destruct (iteration_pushes _ _ _ _ _ _ _ _ Hit Hin)
      as [Hold|(e & page & link & He & Hpage & Hl & Hp & _)]; [auto|].
    right. exists e, page, link. auto.
  - unfold reports.
    destruct crawlSite_cases as [->|(browser & start & _ & Hstart & ->)].
    + intros r [].
    + assert (Hc : confined (Crawler.parse w) (hostname start) startUrl
                     (final (crawl_loop (Crawler.parse w) (spell w) browser options
                                        (hostname start) (initial startUrl)))).
      { apply crawl_loop_invariant;
          [intros; eapply confined_next; eauto
          |intros; eapply confined_raise; eauto|].
        split; cbn; [intros e [<-|[]]; left; reflexivity|intros r []]. }
      destruct Hc as [_ Hc]. intros r Hr.
      destruct (Hc r Hr) as [Heq|(page & Hp & Ha)]; [auto|].
      right. exists start, page. auto.
  - intros. apply malformed_link_discarded. assumption.
  - intros dom pageUrl pageDepth seen q link resolved urlObj Hr Hu Hne.
    unfold enqueue_link. rewrite Hr, Hu.
    destruct (String.eqb_spec (hostname urlObj) dom); [contradiction|reflexivity].
Qed.


End CrawlClaims.

Section CrawlSamples.

Import Analyzer Crawler Frontier.

Lemma crawlSite_steps_closing w startUrl options browser start n run :
  launch w = inr browser ->
  Crawler.parse w None startUrl = Some start ->
  crawl_steps (Crawler.parse w) (spell w) browser options (hostname start) n
              (initial startUrl) = Some run ->
  crawlSite w startUrl options
  = match close browser with
    | inl e => mkRun (final run) (Some e)
    | inr _ => run
    end.
Proof.
  intros Hl Hp Hs. unfold crawlSite, crawl_try. rewrite Hl, Hp.
  rewrite (crawl_steps_sound _ _ _ _ _ _ _ _ Hs). reflexivity.
Qed.

Lemma crawlSite_steps w startUrl options browser start n run :
  launch w = inr browser ->
  Crawler.parse w None startUrl = Some start ->
  close browser = inr tt ->
  crawl_steps (Crawler.parse w) (spell w) browser options (hostname start) n
              (initial startUrl) = Some run ->
  crawlSite w startUrl options = run.
Proof.
  intros Hl Hp Hc Hs. unfold crawlSite, crawl_try. rewrite Hl, Hp, Hc.
  eapply crawl_steps_sound, Hs.
Qed.

(** C1 at a start URL that carries a fragment. The crawl of a site whose
    page links to its own address, started at that address with [#top]
    appended, completes with two reports: one for the start URL as given
    and one for the address without the fragment. Both have the same
    fragment-stripped URL, which was thus analyzed twice. *)
Theorem crawlSite_start_fragment_analyzed_twice :
  let run := crawlSite Sites.homeLinked "https://example.com/#top"
                       (CrawlOptions.mk 20 2) in
  raised run = None
  /\ map PageAnalysis.url (reports run)
     = ["https://example.com/#top"; "https://example.com/"]
  /\ map (fun r => Js.before_hash (PageAnalysis.url r)) (reports run)
     = ["https://example.com/"; "https://example.com/"].
Proof.
  cbn zeta.
  erewrite (crawlSite_steps Sites.homeLinked _ _ _ _ 5);
    [|reflexivity|reflexivity|reflexivity|vm_compute; reflexivity].
  vm_compute. repeat split.
Qed.



Lemma domain_confinement_mixed_site :
  let run := Crawler.crawlSite Sites.mixed "https://example.com/"
               (CrawlOptions.mk 20 2) in
  map PageAnalysis.url (Crawler.reports run)
  = ["https://example.com/"; "https://example.com/about"; "https://example.com/deep"]
  /\ forall r, In r (Crawler.reports run) ->
       PageAnalysis.url r = "https://example.com/"
       \/ exists start page,
            Sites.parseSample None "https://example.com/" = Some start
            /\ In page (Crawler.reports run)
            /\ Frontier.admitted Sites.parseSample (Crawler.hostname start) page
                 (PageAnalysis.url r).
Proof.
  cbn zeta. split.
  - erewrite (crawlSite_steps Sites.mixed _ _ _ _ 6);
      [|reflexivity|reflexivity|reflexivity|vm_compute; reflexivity].
    vm_compute. reflexivity.
  - exact (proj1 (proj2 (domain_confinement Sites.mixed "https://example.com/"
                           (CrawlOptions.mk 20 2)))).
Defined.



End CrawlSamples.


(* ===================================================================== *)
(** ** Further properties of the scores *)
(* ===================================================================== *)

Section ScoreFacts.

Lemma structureScore_threshold c :
  (Content.structureScore c >? 70) = (5 <=? c).
Proof.
  unfold Content.structureScore.
  destruct (Z.gtb_spec (Z.min 100 (50 + c * 5)) 70), (Z.leb_spec 5 c); lia.
Qed.

(** The AI score lies in [0, 100] and is the plain sum of its parts: the
    largest sum is exactly 100, so the final cap never removes anything.
    Without structured data, question headings, author and date signal,
    only structure (at least five structural containers) and readability
    (above 60) contribute, 15 points each. *)
Theorem aiScore_parts (sa : StaticAnalysis.t) :
  0 <= Content.aiScore sa <= 100
  /\ Content.aiScore sa
     = (if StaticAnalysis.hasSchema sa then
          if existsb (fun t => existsb (String.eqb t) Content.valuableSchemas)
                     (StaticAnalysis.schemaTypes sa)
          then 40 else 20
        else 0)
       + (if 5 <=? StaticAnalysis.structureCount sa then 15 else 0)
       + (if Num.gt (Content.readabilityScore (StaticAnalysis.textContent sa)) 60
          then 15 else 0)
       + (if Content.questionHeadings (StaticAnalysis.headings sa) >? 0
          then 15 else 0)
       + (if StaticAnalysis.hasAuthor sa then 10 else 0)
       + (if StaticAnalysis.hasDate sa then 5 else 0)
  /\ (StaticAnalysis.hasSchema sa = false ->
      Content.questionHeadings (StaticAnalysis.headings sa) = 0 ->
      StaticAnalysis.hasAuthor sa = false ->
      StaticAnalysis.hasDate sa = false ->
      Content.aiScore sa
      = (if 5 <=? StaticAnalysis.structureCount sa then 15 else 0)
        + (if Num.gt (Content.readabilityScore (StaticAnalysis.textContent sa)) 60
           then 15 else 0)).
Proof.
  assert (Hsum : Content.aiScore sa
     = (if StaticAnalysis.hasSchema sa then
          if existsb (fun t => existsb (String.eqb t) Content.valuableSchemas)
                     (StaticAnalysis.schemaTypes sa)
          then 40 else 20
        else 0)
       + (if 5 <=? StaticAnalysis.structureCount sa then 15 else 0)
       + (if Num.gt (Content.readabilityScore (StaticAnalysis.textContent sa)) 60
          then 15 else 0)
       + (if Content.questionHeadings (StaticAnalysis.headings sa) >? 0
          then 15 else 0)
       + (if StaticAnalysis.hasAuthor sa then 10 else 0)
       + (if StaticAnalysis.hasDate sa then 5 else 0)).
  { unfold Content.aiScore. rewrite structureScore_threshold.
    repeat match goal with
           | |- context [if ?b then _ else _] => destruct b
           end; reflexivity. }
  split; [|split; [exact Hsum|]].
  - rewrite Hsum.
    repeat match goal with
           | |- context [if ?b then _ else _] => destruct b
           end; lia.
  - intros Hs Hq Ha Hd. rewrite Hsum, Hs, Hq, Ha, Hd. cbn. lia.
Qed.

Lemma aiScore_parts_plain_document :
  let sa := Samples.document [] in
  StaticAnalysis.hasSchema sa = false
  /\ Content.questionHeadings (StaticAnalysis.headings sa) = 0
  /\ Content.aiScore sa
     = (if 5 <=? StaticAnalysis.structureCount sa then 15 else 0)
       + (if Num.gt (Content.readabilityScore (StaticAnalysis.textContent sa)) 60
          then 15 else 0)
  /\ Content.aiScore sa = 15.
Proof.
  cbn zeta. split; [reflexivity|]. split; [reflexivity|]. split.
  - exact (proj2 (proj2 (aiScore_parts (Samples.document [])))
             eq_refl eq_refl eq_refl eq_refl).
  - vm_compute. reflexivity.
Defined.

Lemma seoScore_base_range sa :
  0 <= Content.seoScore_base sa <= 100.
Proof.
  unfold Content.seoScore_base.
  repeat match goal with
         | |- context [if ?b then _ else _] => destruct b
         | |- context [match ?o with Some _ => _ | None => _ end] => destruct o
         end; lia.
Qed.

Lemma keywordsInHeadings_nil kws : Content.keywordsInHeadings kws [] = 0.
Proof.
  unfold Content.keywordsInHeadings.
  induction kws as [|k kws IH]; cbn in *; [reflexivity|exact IH].
Qed.

(** The SEO score lies in [0, 100]; the two bonuses add at most 20 to
    the sum of the five base rules; and a page without any heading gets
    no bonus at all. *)
Theorem seoScore_bonuses (sa : StaticAnalysis.t) :
  0 <= Content.seoScore sa <= 100
  /\ Content.seoScore_base sa <= Content.seoScore sa
  /\ Content.seoScore sa <= Content.seoScore_base sa + 20
  /\ (StaticAnalysis.headings sa = [] ->
      Content.seoScore sa = Content.seoScore_base sa).
Proof.
  pose proof (seoScore_base_range sa) as Hb.
  unfold Content.seoScore.
  repeat split.
  1-4: destruct (Content.keywordsInHeadings _ _ >? 0);
       destruct (_ && _); lia.
  intros ->. rewrite keywordsInHeadings_nil. reflexivity.
Qed.

Lemma seoScore_bonuses_no_heading :
  let sa := MoreSamples.plainText in
  StaticAnalysis.headings sa = []
  /\ Content.seoScore sa = Content.seoScore_base sa.
Proof.
  cbn zeta. split; [reflexivity|].
  exact (proj2 (proj2 (proj2 (seoScore_bonuses MoreSamples.plainText)))
               eq_refl).
Defined.

End ScoreFacts.


Section HeadingOutline.

Import Outline.

Lemma hierarchy_fold_ge hs st :
  snd st <= snd (fold_left Content.hierarchy_step hs st).
Proof.
  revert st; induction hs as [|h hs IH]; intros st; cbn [fold_left]; [lia|].
  etransitivity; [|apply IH].
  destruct st as [prev n]. unfold Content.hierarchy_step.
  destruct (Js.parseInt _) as [l|], prev as [p|]; cbn; try lia.
  destruct (l >? p + 1); cbn; lia.
Qed.

Lemma hierarchy_fold_no_skip hs levels p n :
  Forall2 (fun h l => level h = Some l) hs levels ->
  snd (fold_left Content.hierarchy_step hs (Some p, n)) = n <-> no_skip p levels.
Proof.
  intros Hl. revert p n.
  induction Hl as [|h l hs levels Hh _ IH]; intros p n; cbn [fold_left no_skip].
  - cbn. tauto.
  - unfold Content.hierarchy_step at 2. unfold level in Hh. rewrite Hh.
    destruct (Z.gtb_spec l (p + 1)) as [Hgt|Hle].
    + pose proof (hierarchy_fold_ge hs (Some l, n + 1)) as Hge. cbn in Hge.
      split; [intros Heq; rewrite Heq in Hge; lia|intros [Hc _]; lia].
    + rewrite IH. split; [auto|tauto].
Qed.

(** For headings whose tags carry a level, the hierarchy check finds no
    issue exactly when the first heading has level at most 1 and every
    later heading is at most one level deeper than its predecessor. In
    particular a page whose first heading is deeper than an H1 has an
    issue, and so never earns the hierarchy bonus. *)
Theorem hierarchyIssues_no_skip (hs : list Heading.t) (levels : list Z) :
  Forall2 (fun h l => level h = Some l) hs levels ->
  (Content.hierarchyIssues hs = 0 <-> no_skip 0 levels)
  /\ (forall l ls, levels = l :: ls -> 1 < l -> 0 < Content.hierarchyIssues hs).
Proof.
  intros Hl. split.
  - apply (hierarchy_fold_no_skip hs levels 0 0 Hl).
  - intros l ls -> Hdeep.
    pose proof (hierarchy_fold_ge hs (Some 0, 0)) as Hge. cbn in Hge.
    fold (Content.hierarchyIssues hs) in Hge.
    destruct (Z.eq_dec (Content.hierarchyIssues hs) 0) as [Hz|]; [|lia].
    apply (hierarchy_fold_no_skip hs (l :: ls) 0 0 Hl) in Hz as [Hc _]. lia.
Qed.

Lemma hierarchyIssues_no_skip_h2_first :
  let hs := [Heading.mk "H2" "Overview"; Heading.mk "H3" "Details"] in
  Forall2 (fun h l => level h = Some l) hs [2; 3]
  /\ 0 < Content.hierarchyIssues hs.
Proof.
  cbn zeta.
  assert (Hl : Forall2 (fun h l => level h = Some l)
                 [Heading.mk "H2" "Overview"; Heading.mk "H3" "Details"] [2; 3]).
  { repeat constructor. }
  split; [exact Hl|].
  apply (proj2 (hierarchyIssues_no_skip _ _ Hl) 2 [3] eq_refl). lia.
Defined.

End HeadingOutline.


Section TypoFacts.

Import Analyzer Outline.

Lemma set_add_NoDup x s : NoDup s -> NoDup (Content.set_add x s).
Proof.
  intros Hs. unfold Content.set_add.
  destruct (existsb (String.eqb x) s) eqn:E; [exact Hs|].
  apply NoDup_app. split; [exact Hs|]. split; [|apply NoDup_singleton].
  intros y Hy ->%list_elem_of_singleton.
  apply not_true_iff_false in E. apply E, existsb_exists.
  exists x. split; [apply list_elem_of_In, Hy|apply String.eqb_refl].
Qed.

Lemma set_add_In x s y : In y (Content.set_add x s) -> y = x \/ In y s.
Proof.
  unfold Content.set_add. destruct (existsb (String.eqb x) s); [auto|].
  intros [H|[<-|[]]]%in_app_or; auto.
Qed.

Lemma scan_words_fold spell ws typos long :
  NoDup typos ->
  let '(typos', long') := fold_left (Content.scan_word spell) ws (typos, long) in
  NoDup typos'
  /\ (forall t, In t typos' ->
        In t typos \/ (suspect spell t /\ exists w, In w ws /\ t = Content.cleanWord w))
  /\ long <= long' <= long + Z.of_nat (length ws)
  /\ (spell = None -> typos' = typos).
Proof.
  revert spell typos long; induction ws as [|w ws IH]; intros spell typos long Hnd;
    cbn [fold_left].
  - repeat split; auto; cbn; lia.
  - destruct (Content.scan_word spell (typos, long) w) as [typos1 long1] eqn:Hstep.
    assert (Hone : NoDup typos1
              /\ (forall t, In t typos1 ->
                    In t typos \/ (suspect spell t /\ t = Content.cleanWord w))
              /\ long <= long1 <= long + 1
              /\ (spell = None -> typos1 = typos)).
    { unfold Content.scan_word in Hstep.
      destruct (negb (Js.truthy (Content.cleanWord w)));
        [injection Hstep as <- <-; repeat split; auto; lia|].
      injection Hstep as <- <-.
      assert (Hlong : long <= (if Js.len (Content.cleanWord w) >? 20
                               then long + 1 else long) <= long + 1)
        by (destruct (_ >? 20); lia).
      destruct spell as [correct|]; [|repeat split; auto; lia].
      destruct (Js.test_all_plus Js.is_alpha (Content.cleanWord w)) eqn:Ha;
        [|repeat split; auto; lia].
      destruct (Z.gtb_spec (Js.len (Content.cleanWord w)) 3) as [Hlen|];
        [|repeat split; auto; lia].
      cbn [andb].
      destruct (correct (Content.cleanWord w)) eqn:Hc; cbn [negb];
        [repeat split; auto; lia|].
      split; [apply set_add_NoDup, Hnd|]. split; [|split; [exact Hlong|discriminate]].
      intros t [->|Hin]%set_add_In; [|auto].
      right. split; [|reflexivity]. exists correct. auto. }
    destruct Hone as (Hnd1 & Hin1 & Hlong1 & Hnone1).
    specialize (IH spell typos1 long1 Hnd1).
    destruct (fold_left (Content.scan_word spell) ws (typos1, long1))
      as [typos' long'].
    destruct IH as (Hnd' & Hin' & Hlong' & Hnone').
    split; [exact Hnd'|]. split; [|split].
    + intros t Ht. destruct (Hin' t Ht) as [Ht1|(Hs & w' & Hw' & ->)].
      * destruct (Hin1 t Ht1) as [|[Hs ->]]; [auto|].
        right. split; [exact Hs|]. exists w. cbn. auto.
      * right. split; [exact Hs|]. exists w'. cbn. auto.
    + cbn [length]. lia.
    + intros Hn. rewrite Hnone', Hnone1; auto.
Qed.

(** Every report of [analyzePage] lists at most five possible typos, all
    different; each is a cleaned word of letters only, longer than three
    characters, that the spell checker rejects. Without a spell checker
    the list is empty. The long-word count is never negative. *)
Theorem possibleTypos_bounded (spell : option (string -> bool))
    (page : Page) (url : string) :
  let report := analyzePage spell page url in
  (length (PageAnalysis.possibleTypos report) <= 5)%nat
  /\ NoDup (PageAnalysis.possibleTypos report)
  /\ (forall t, In t (PageAnalysis.possibleTypos report) -> suspect spell t)
  /\ (spell = None -> PageAnalysis.possibleTypos report = [])
  /\ 0 <= PageAnalysis.longWords report.
Proof.
  cbn zeta. unfold analyzePage, analyzePage_traced.
  destruct (analyzePage_try spell page url) as [[e|report] log] eqn:H; cbn [fst].
  - cbn; repeat split; try (intros t []); try constructor; try lia.
  - apply analyzePage_try_returns in H
      as [(resp & _ & _ & ->)|(sa & issues & _ & ->)].
    + cbn; repeat split; try (intros t []); try constructor; try lia.
    + unfold fullReport, Content.scan_words.
      pose proof (scan_words_fold spell
                    (Content.words (StaticAnalysis.textContent sa)) [] 0
                    NoDup_nil_2) as Hscan.
      destruct (fold_left _ _ _) as [typos long].
      destruct Hscan as (Hnd & Hin & Hlong & Hnone). cbn.
      split; [rewrite length_take; lia|].
      split; [eapply sublist_NoDup; [exact Hnd|apply sublist_take]|].
      split; [|split; [|lia]].
      * intros t Ht%list_elem_of_In.
        eapply elem_of_sublist in Ht; [|apply sublist_take].
        apply list_elem_of_In, Hin in Ht as [[]|[Hs _]]. exact Hs.
      * intros Hn. rewrite (Hnone Hn). reflexivity.
Qed.

End TypoFacts.


Section KeywordFacts.

Import Outline.

Local Open Scope list_scope.

Lemma keep_all p s : Js.all p (Js.keep p s) = true.
Proof.
  induction s as [|c s IH]; cbn; [reflexivity|].
  destruct (p c) eqn:E; cbn; [rewrite E|]; exact IH.
Qed.

Lemma set_keys o key v :
  map fst (Content.set o key v)
  = if existsb (String.eqb key) (map fst o) then map fst o
    else map fst o ++ [key].
Proof.
  induction o as [|[k w] o IH]; cbn; [reflexivity|].
  rewrite (String.eqb_sym key k).
  destruct (String.eqb k key); cbn; [reflexivity|].
  rewrite IH. destruct (existsb _ _); reflexivity.
Qed.

Lemma wordFreq_keys ws o :
  NoDup (map fst o) ->
  NoDup (map fst (fold_left Content.count_word ws o))
  /\ forall k, In k (map fst (fold_left Content.count_word ws o)) ->
       In k (map fst o) \/ keyword_of ws k.
Proof.
  revert o; induction ws as [|w ws IH]; intros o Hnd; cbn [fold_left];
    [auto|].
  assert (Hstep : NoDup (map fst (Content.count_word o w))
            /\ forall k, In k (map fst (Content.count_word o w)) ->
                 In k (map fst o) \/ keyword_of [w] k).
  { unfold Content.count_word.
    destruct (Z.gtb_spec (Js.len (Content.normalize w)) 3) as [Hlen|]; [|auto].
    destruct (Content.is_stop (Content.normalize w)) eqn:Hstop; [auto|].
    cbn [andb negb]. rewrite set_keys.
    destruct (existsb _ (map fst o)) eqn:E; [auto|]. split.
    - apply NoDup_app. split; [exact Hnd|]. split; [|apply NoDup_singleton].
      intros y Hy ->%list_elem_of_singleton.
      apply not_true_iff_false in E. apply E, existsb_exists.
      exists (Content.normalize w).
      split; [apply list_elem_of_In, Hy|apply String.eqb_refl].
    - intros k [Hk|[<-|[]]]%in_app_or; [auto|]. right.
      split; [exact Hlen|]. split; [apply keep_all|]. split; [exact Hstop|].
      exists w. cbn. auto. }
  destruct Hstep as [Hnd1 Hin1].
  destruct (IH _ Hnd1) as [Hnd' Hin']. split; [exact Hnd'|].
  intros k Hk. destruct (Hin' k Hk) as [Hk1|(H1 & H2 & H3 & w' & Hw' & Hn)].
  - destruct (Hin1 k Hk1) as [|(H1 & H2 & H3 & w' & [<-|[]] & Hn)]; [auto|].
    right. repeat split; auto. exists w. cbn. auto.
  - right. repeat split; auto. exists w'. cbn. auto.
Qed.

Section SortFacts.

Context {A : Type} (cmp : A -> A -> option Z).

Lemma insert_In x l y : In y (Content.insert cmp x l) <-> y = x \/ In y l.
Proof.
  induction l as [|z l IH]; cbn; [intuition|].
  destruct (Content.after cmp x z); cbn; rewrite ?IH; intuition.
Qed.

Lemma sort_cons x l :
  Content.sort cmp (x :: l) = Content.insert cmp x (Content.sort cmp l).
Proof. reflexivity. Qed.

Lemma sort_In l y : In y (Content.sort cmp l) <-> In y l.
Proof.
  induction l as [|x l IH]; [cbn; tauto|].
  rewrite sort_cons, insert_In, IH. cbn. intuition.
Qed.

Lemma insert_NoDup {B} (f : A -> B) x l :
  ~ In (f x) (map f l) -> NoDup (map f l) ->
  NoDup (map f (Content.insert cmp x l)).
Proof.
  induction l as [|z l IH]; cbn; intros Hx Hnd.
  - apply NoDup_singleton.
  - apply NoDup_cons in Hnd as [Hz Hnd].
    destruct (Content.after cmp x z); cbn.
    + apply NoDup_cons. split; [|apply IH; tauto].
      intros Hin%list_elem_of_In%in_map_iff. destruct Hin as (a & Ha & Hin).
      apply insert_In in Hin as [->|Hin]; [apply Hx; left; congruence|].
      apply Hz, list_elem_of_In, in_map_iff. exists a. split; assumption.
    + apply NoDup_cons. split.
      * intros Hin%list_elem_of_In. apply Hx. cbn in Hin. tauto.
      * apply NoDup_cons. tauto.
Qed.

Lemma sort_NoDup {B} (f : A -> B) l :
  NoDup (map f l) -> NoDup (map f (Content.sort cmp l)).
Proof.
  induction l as [|x l IH]; intros Hnd; [exact Hnd|].
  cbn [map] in Hnd. apply NoDup_cons in Hnd as [Hx Hnd].
  rewrite sort_cons. apply insert_NoDup; [|apply IH, Hnd].
  intros (a & Ha & Hin)%in_map_iff. apply (proj1 (sort_In l a)) in Hin.
  apply Hx, list_elem_of_In, in_map_iff. exists a. split; assumption.
Qed.

End SortFacts.

(** For every body text, the keywords are at most five, their words are
    all different, and each word is the lowercased, letters-only form of
    a word of the text, longer than three characters and not a stop
    word. *)
Theorem keywords_wellformed (text : string) :
  let ks := Content.keywords text in
  (length ks <= 5)%nat
  /\ NoDup (map Keyword.word ks)
  /\ forall k, In k ks -> keyword_of (Content.words text) (Keyword.word k).
Proof.
  cbn zeta. unfold Content.keywords, Content.keywords_of, Content.wordFreq.
  set (ws := Content.words text).
  destruct (wordFreq_keys ws [] (NoDup_nil_2)) as [Hnd Hin].
  set (o := fold_left Content.count_word ws []) in *.
  assert (Hsub : take 5 (Content.sort Content.by_count_desc o)
                 `sublist_of` Content.sort Content.by_count_desc o)
    by apply sublist_take.
  split; [rewrite length_map, length_take; lia|]. split.
  - rewrite map_map. cbn.
    change (fun x : string * jsval => x.1) with (@fst string jsval).
    rewrite <- firstn_map.
    eapply sublist_NoDup; [apply (sort_NoDup Content.by_count_desc fst), Hnd|].
    apply sublist_take.
  - intros k (e & <- & He)%in_map_iff. cbn.
    apply list_elem_of_In in He. eapply elem_of_sublist in He; [|exact Hsub].
    apply list_elem_of_In, sort_In in He.
    destruct (Hin (fst e)) as [[]|Hk]; [|exact Hk].
    apply in_map, He.
Qed.

End KeywordFacts.


(* ===================================================================== *)
(** ** Further properties of the page analyzer *)
(* ===================================================================== *)

Section SweepFacts.

Import Analyzer Outline.

Context (spell : option (string -> bool)) (page : Page) (url : string).

Local Abbreviation recorded := (Outline.recorded page url).

Lemma measure_records vp issue log :
  measure page url vp = (inr issue, log) -> recorded vp issue.
Proof.
  unfold measure, call, bind, catch, ret, Outline.recorded, flagged.
  destruct (setViewport page vp) as [e|[]]; [discriminate|].
  destruct (evaluate_viewport page vp) as [e|i]; [discriminate|].
  destruct (horizontalScroll i || (overflowingElements i >? 0)) eqn:Hf.
  - destruct (screenshot page _) as [e|[]] eqn:Hs; intros [= <- _];
      exists i; (split; [reflexivity|]); rewrite Hf; reflexivity.
  - intros [= <- _]; exists i; (split; [reflexivity|]); rewrite Hf; reflexivity.
Qed.

Lemma sweep_records vps issues log :
  sweep page url vps = (inr issues, log) -> Forall2 recorded vps issues.
Proof.
  revert issues log; induction vps as [|vp vps IH]; intros issues log;
    cbn [sweep].
  - intros [= <- _]. constructor.
  - unfold bind at 1.
    destruct (measure page url vp) as [[e|issue] l1] eqn:Hm; [discriminate|].
    unfold bind at 1.
    destruct (sweep page url vps) as [[e|rest] l2]; [discriminate|].
    cbn. intros [= <- _]. constructor; [eapply measure_records, Hm|].
    eapply IH. reflexivity.
Qed.

Lemma analyzePage_try_full report log :
  analyzePage_try spell page url = (inr report, log) ->
  PageAnalysis.error report = None ->
  exists sa issues log',
    evaluate_static page = inr sa
    /\ sweep page url viewports = (inr issues, log')
    /\ PageAnalysis.viewportIssues report = issues.
Proof.
  assert (Hview : forall responseTime statusCode sa issues,
            PageAnalysis.viewportIssues
              (fullReport spell url responseTime statusCode sa issues) = issues).
  { intros. unfold fullReport. destruct (Content.scan_words _ _). reflexivity. }
  unfold analyzePage_try, load, call, catch, bind, ret, throw.
  destruct (setViewport_initial page) as [e|[]]; [discriminate|].
  destruct (goto page url) as [e|[resp|]].
  - destruct (isTimeout e); [|discriminate].
    destruct (evaluate_static page) as [e'|sa]; [discriminate|].
    destruct (sweep page url viewports) as [[e'|issues] l]; [discriminate|].
    intros [= <- _] _. exists sa, issues, l. auto.
  - destruct (ok resp); cbn [negb].
    + destruct (evaluate_static page) as [e'|sa]; [discriminate|].
      destruct (sweep page url viewports) as [[e'|issues] l]; [discriminate|].
      intros [= <- _] _. exists sa, issues, l. auto.
    + intros [= <- _]. discriminate.
  - destruct (evaluate_static page) as [e'|sa]; [discriminate|].
    destruct (sweep page url viewports) as [[e'|issues] l]; [discriminate|].
    intros [= <- _] _. exists sa, issues, l. auto.
Qed.

(** A report without [error] lists one viewport issue per viewport, in
    the order Desktop, Tablet, Mobile, each with the values measured at
    that viewport; a report with [error] lists none. An entry has a
    screenshot path only if the measurement showed horizontal scroll or
    overflowing elements and the screenshot was written, and the path is
    then [/screenshots/] followed by the file name. *)
Theorem viewportIssues_sweep :
  let report := analyzePage spell page url in
  (PageAnalysis.error report = None ->
   Forall2 recorded viewports (PageAnalysis.viewportIssues report)
   /\ map ViewportIssue.viewport (PageAnalysis.viewportIssues report)
      = [Desktop; Tablet; Mobile])
  /\ (PageAnalysis.error report <> None -> PageAnalysis.viewportIssues report = [])
  /\ (forall issue path,
        In issue (PageAnalysis.viewportIssues report) ->
        ViewportIssue.screenshotPath issue = Some path ->
        (ViewportIssue.horizontalScroll issue = true
         \/ 0 < ViewportIssue.overflowingElements issue)
        /\ screenshot page (screenshotName page url (ViewportIssue.viewport issue))
           = inr tt
        /\ path = "/screenshots/"
                  +:+ screenshotName page url (ViewportIssue.viewport issue)).
Proof.
  cbn zeta. unfold analyzePage, analyzePage_traced.
  destruct (analyzePage_try spell page url) as [[e|report] log] eqn:H; cbn [fst].
  - cbn. split; [discriminate|]. split; [reflexivity|]. intros issue path [].
  - destruct (PageAnalysis.error report) as [msg|] eqn:Herr.
    + apply analyzePage_try_returns in H
        as [(resp & _ & _ & ->)|(sa & issues & _ & ->)].
      * cbn. split; [discriminate|]. split; [reflexivity|]. intros issue path [].
      * pose proof (fullReport_fields spell url
                      (now_loaded page - now_start page)
                      (match goto page url with inr (Some r) => status r | _ => 0 end)
                      sa issues) as (_ & _ & He & _).
        congruence.
    + destruct (analyzePage_try_full report log H Herr)
        as (sa & issues & log' & _ & Hsweep & ->).
      apply sweep_records in Hsweep.
      assert (Hnames : map ViewportIssue.viewport issues = viewports).
      { clear -Hsweep. induction Hsweep as [|vp issue vps issues (i & _ & ->) _ IH];
          cbn; [reflexivity|]. rewrite IH. reflexivity. }
      split; [auto|]. split; [congruence|].
      intros issue path Hin Hpath. clear -Hsweep Hin Hpath.
      induction Hsweep as [|vp issue' vps issues (i & Hi & ->) _ IH];
        [destruct Hin|].
      destruct Hin as [<-|Hin]; [|auto]. cbn in *.
      unfold flagged in Hpath.
      destruct (horizontalScroll i) eqn:Hh; cbn [orb] in Hpath.
      * destruct (screenshot page _) as [|[]]; [discriminate|].
        injection Hpath as <-. auto.
      * destruct (Z.gtb_spec (overflowingElements i) 0); [|discriminate].
        destruct (screenshot page _) as [|[]]; [discriminate|].
        injection Hpath as <-. auto.
Qed.

End SweepFacts.


(* ===================================================================== *)
(** ** Further properties of the crawl *)
(* ===================================================================== *)

Section TraversalFacts.

Import Analyzer Crawler Frontier Traversal.

Context (parse : Parser) (spell : option (string -> bool))
        (browser : Browser) (options : CrawlOptions.t)
        (allowedDomain : string) (startUrl : string).

Local Abbreviation iteration := (iteration parse spell browser options allowedDomain).
Local Abbreviation crawl_loop := (crawl_loop parse spell browser options allowedDomain).
Local Abbreviation reached := (reached parse spell browser options allowedDomain startUrl).

Lemma enqueue_links_appends e seen analysis q :
  exists pushed,
    enqueue_links parse options allowedDomain e seen analysis q
    = (q ++ pushed)%list
    /\ forall e', In e' pushed -> depth e' = depth e + 1.
Proof.
  unfold enqueue_links.
  destruct (depth e <? CrawlOptions.maxDepth options).
  - generalize (PageAnalysis.links analysis) as links. intros links.
    revert q; induction links as [|link links IH]; intros q; cbn [fold_left].
    + exists []. rewrite app_nil_r. split; [reflexivity|intros e' []].
    + destruct (enqueue_link_pushes parse allowedDomain (url e) (depth e) seen q link)
        as [Heq|(v & _ & Heq)]; rewrite Heq.
      * apply IH.
      * destruct (IH (q ++ [mkEntry v (depth e + 1)])%list) as (pushed & -> & Hp).
        exists (mkEntry v (depth e + 1) :: pushed). rewrite <- app_assoc.
        split; [reflexivity|]. intros e' [<-|Hin]; [reflexivity|auto].
  - exists []. rewrite app_nil_r. split; [reflexivity|intros e' []].
Qed.

Lemma layered_tail e rest : layered (e :: rest) -> layered rest.
Proof.
  intros (d & front & back & Hq & Hf & Hb).
  destruct front as [|f front]; cbn in Hq.
  - destruct back as [|b back]; [discriminate|]. injection Hq as -> ->.
    exists d, [], back. cbn. repeat split; [intros ? []|]. intros e' He'.
    apply Hb. right. exact He'.
  - injection Hq as -> ->. exists d, front, back.
    repeat split; [|exact Hb]. intros e' He'. apply Hf. right. exact He'.
Qed.

Lemma layered_push e rest pushed :
  layered (e :: rest) ->
  (forall e', In e' pushed -> depth e' = depth e + 1) ->
  layered (rest ++ pushed).
Proof.
  intros (d & front & back & Hq & Hf & Hb) Hp.
  destruct front as [|f front]; cbn in Hq.
  - destruct back as [|b back]; [discriminate|]. injection Hq as -> ->.
    exists (d + 1), back, pushed. repeat split.
    + intros e' He'. apply Hb. right. exact He'.
    + intros e' He'. rewrite (Hp e' He'), (Hb b); [lia|left; reflexivity].
  - injection Hq as -> ->. exists d, front, (back ++ pushed)%list.
    rewrite app_assoc. repeat split.
    + intros e' He'. apply Hf. right. exact He'.
    + intros e' [He'|He']%in_app_or; [auto|].
      rewrite (Hp e' He'), (Hf f); [lia|left; reflexivity].
Qed.

Lemma layered_next st st' :
  layered (queue st) -> iteration st = Next st' -> layered (queue st').
Proof.
  intros Hl H.
  apply iteration_next in H
    as (e & rest & Hq & _ & [[_ ->]|[_ (page & _ & ->)]]); cbn;
    rewrite Hq in Hl.
  - eapply layered_tail, Hl.
  - destruct (enqueue_links_appends e ({[url e]} ∪ visited st)
                (analyzePage spell page (url e)) rest) as (pushed & -> & Hp).
    eapply layered_push; eauto.
Qed.

Lemma layered_head_le e rest e' :
  layered (e :: rest) -> In e' rest -> depth e <= depth e' <= depth e + 1.
Proof.
  intros (d & front & back & Hq & Hf & Hb) Hin.
  destruct front as [|f front]; cbn in Hq.
  - destruct back as [|b back]; [discriminate|]. injection Hq as -> ->.
    rewrite (Hb b), (Hb e'); [lia|right; exact Hin|left; reflexivity].
  - injection Hq as -> ->. rewrite (Hf f) by (left; reflexivity).
    apply in_app_or in Hin as [Hin|Hin].
    + rewrite (Hf e') by (right; exact Hin). lia.
    + rewrite (Hb e') by exact Hin. lia.
Qed.

(** Breadth-first order. At the head of every loop pass the queue holds
    entries of one depth followed by entries of the next depth; so the
    entry dequeued in a pass is never deeper than the one dequeued in
    the next pass, and at most one level shallower. *)
Theorem crawl_is_breadth_first (st : State) :
  reached st ->
  layered (queue st)
  /\ forall st' e e',
       iteration st = Next st' ->
       head (queue st) = Some e ->
       head (queue st') = Some e' ->
       depth e <= depth e' <= depth e + 1.
Proof.
  intros Hr.
  assert (Hl : layered (queue st)).
  { induction Hr as [|st0 st1 _ IH Hit].
    - exists 0, [mkEntry startUrl 0], []. cbn. repeat split.
      + intros e [<-|[]]. reflexivity.
      + intros e [].
    - eapply layered_next; eauto. }
  split; [exact Hl|].
  intros st' e e' Hit He He'.
  pose proof (layered_next st st' Hl Hit) as Hl'.
  apply iteration_next in Hit
    as (e0 & rest & Hq & _ & [[_ ->]|[_ (page & _ & ->)]]);
    rewrite Hq in He, Hl; injection He as ->; cbn in He', Hl'.
  - destruct rest as [|r rest]; [discriminate|]. injection He' as ->.
    eapply layered_head_le; [exact Hl|left; reflexivity].
  - destruct (enqueue_links_appends e ({[url e]} ∪ visited st)
                (analyzePage spell page (url e)) rest) as (pushed & Heq & Hp).
    rewrite Heq in He'.
    destruct rest as [|r rest]; cbn in He'.
    + destruct pushed as [|p pushed]; [discriminate|]. injection He' as ->.
      rewrite (Hp e') by (left; reflexivity). lia.
    + injection He' as ->.
      eapply layered_head_le; [exact Hl|left; reflexivity].
Qed.

End TraversalFacts.


Section CrawlEnds.

Import Analyzer Crawler Frontier.

Lemma crawl_loop_ends parse spell browser options dom st :
  let run := crawl_loop parse spell browser options dom st in
  (raised run = None ->
   queue (final run) = []
   \/ CrawlOptions.maxPages options <= pagesCrawled (final run))
  /\ (forall e, raised run = Some e ->
        exists n, newPage browser n = inl e \/ closePage browser n = inl e).
Proof.
  cbn zeta.
  funelim (crawl_loop parse spell browser options dom st); cbn [raised final].
  - split; [intros _|discriminate].
    match goal with H : iteration _ _ _ _ _ ?s = Exit |- _ =>
      generalize H; unfold iteration end.
    destruct (queue st) as [|e0 rest]; [auto|].
    destruct (Z.ltb_spec (pagesCrawled st) (CrawlOptions.maxPages options));
      [|intros _; right; lia].
    destruct (decide (url e0 ∈ visited st)); [discriminate|].
    destruct (newPage browser (pagesCrawled st)); [discriminate|].
    destruct (closePage browser (pagesCrawled st)); discriminate.
  - assumption.
  - split; [discriminate|]. intros e' [= <-].
    match goal with H : iteration _ _ _ _ _ ?s = Raise _ _ |- _ =>
      generalize H; unfold iteration end.
    destruct (queue st) as [|e0 rest]; [discriminate|].
    destruct (pagesCrawled st <? CrawlOptions.maxPages options); [|discriminate].
    destruct (decide (url e0 ∈ visited st)); [discriminate|].
    destruct (newPage browser (pagesCrawled st)) as [err|page] eqn:Hn.
    + intros [= <- _]. exists (pagesCrawled st). auto.
    + destruct (closePage browser (pagesCrawled st)) as [err|] eqn:Hc;
        [|discriminate].
      intros [= <- _]. exists (pagesCrawled st). auto.
Qed.

Context (w : World) (startUrl : string) (options : CrawlOptions.t).


(** With [maxPages = 1] the crawl delivers exactly one report, the one
    for the start URL, however many links that page lists, provided the
    browser launches, the start URL parses and the page opens and
    closes. It then ends normally, unless closing the browser fails. *)
Theorem crawlSite_single_page (browser : Browser) (start : URL) (page : Page) :
  CrawlOptions.maxPages options = 1 ->
  launch w = inr browser ->
  Crawler.parse w None startUrl = Some start ->
  newPage browser 0 = inr page ->
  closePage browser 0 = inr tt ->
  let run := crawlSite w startUrl options in
  reports run = [analyzePage (spell w) page startUrl]
  /\ raised run = match close browser with
                  | inl e => Some e
                  | inr _ => None
                  end
  /\ map PageAnalysis.url (reports run) = [startUrl].
Proof.
  intros Hmax Hl Hp Hn Hc run.
  set (analysis := analyzePage (spell w) page startUrl).
  set (seen := ({[startUrl]} ∪ ∅ : gset string)).
  assert (Hrun : run
                 = mkRun (mkState seen
                            (enqueue_links (Crawler.parse w) options (hostname start)
                               (mkEntry startUrl 0) seen analysis [])
                            (0 + 1) ([] ++ [analysis])%list)
                         (match close browser with
                          | inl e => Some e
                          | inr _ => None
                          end)).
  { subst run. unfold crawlSite, crawl_try. rewrite Hl, Hp.
    rewrite crawl_loop_eqn. unfold iteration.
    cbn [initial queue pagesCrawled visited yielded url depth].
    rewrite Hmax. change (0 <? 1) with true. cbv iota.
    destruct (decide (startUrl ∈ (∅ : gset string))) as [Hin|_]; [set_solver|].
    rewrite Hn, Hc.
    rewrite crawl_loop_eqn. unfold iteration.
    cbn [queue pagesCrawled visited yielded].
    rewrite Hmax. change (0 + 1 <? 1) with false.
    destruct (enqueue_links _ _ _ _ _ _ _); destruct (close browser);
      reflexivity. }
  rewrite Hrun. unfold reports. cbn. unfold analysis.
  rewrite analyzePage_url. auto.
Qed.

End CrawlEnds.

Section MoreCrawlSamples.

Import Analyzer Crawler Traversal.

Lemma crawlSite_single_page_mixed_site :
  let options := CrawlOptions.mk 1 2 in
  let run := crawlSite Sites.mixed "https://example.com/" options in
  CrawlOptions.maxPages options = 1
  /\ raised run = None
  /\ map PageAnalysis.url (reports run) = ["https://example.com/"].
Proof.
  cbn zeta. split; [reflexivity|].
  refine (proj2 (crawlSite_single_page Sites.mixed "https://example.com/"
                   (CrawlOptions.mk 1 2) MoreSamples.mixedBrowser
                   (Sites.example_com "https://example.com/")
                   _ _ _ _ _ _));
    reflexivity.
Defined.

Lemma crawl_is_breadth_first_mixed_site :
  let options := CrawlOptions.mk 20 2 in
  let step := iteration Sites.parseSample None MoreSamples.mixedBrowser options
                "example.com" in
  exists st,
    step (initial "https://example.com/") = Next st
    /\ map depth (queue st) = [1; 1]
    /\ layered (queue st).
Proof.
  cbn zeta.
  destruct (iteration Sites.parseSample None MoreSamples.mixedBrowser
              (CrawlOptions.mk 20 2) "example.com"
              (initial "https://example.com/")) as [|st|e st] eqn:Hit;
    [exfalso; vm_compute in Hit; discriminate| |exfalso; vm_compute in Hit; discriminate].
  exists st. split; [reflexivity|]. split.
  - assert (Hq : option_map (fun s => map depth (queue s))
                   (match iteration Sites.parseSample None MoreSamples.mixedBrowser
                            (CrawlOptions.mk 20 2) "example.com"
                            (initial "https://example.com/") with
                    | Next s => Some s | _ => None end) = Some [1; 1])
      by (vm_compute; reflexivity).
    rewrite Hit in Hq. cbn in Hq. congruence.
  - refine (proj1 (crawl_is_breadth_first Sites.parseSample None
                     MoreSamples.mixedBrowser (CrawlOptions.mk 20 2)
                     "example.com" "https://example.com/" st _)).
    eapply reached_next; [apply reached_initial|exact Hit].
Defined.

End MoreCrawlSamples.


(* ===================================================================== *)
(** ** Properties of the in-page viewport check *)
(* ===================================================================== *)

Section ViewportCheck.

Import Analyzer Dom.

Lemma substring0_length n s : (String.length (Js.substring0 n s) <= n)%nat.
Proof.
  unfold Js.substring0. revert s; induction n as [|n IH]; intros s.
  - destruct s; cbn; lia.
  - destruct s as [|c s]; cbn; [lia|]. specialize (IH s). lia.
Qed.

Lemma getIdentifier_length el : Js.len (getIdentifier el) <= 50.
Proof.
  unfold getIdentifier, Js.len.
  pose proof (substring0_length 50
    (let id := Js.toLowerCase (tagName el) in
     let id := if Js.truthy (Dom.id el) then id +:+ "#" +:+ Dom.id el else id in
     match className el with
     | Some c => if Js.truthy c
                 then id +:+ "." +:+ Text.join "." (Text.split_on " " c) else id
     | None => id
     end)) as H.
  cbn zeta in *. lia.
Qed.

Lemma distinct_fold xs acc :
  NoDup acc ->
  NoDup (fold_left (fun s x => Content.set_add x s) xs acc)
  /\ forall y, In y (fold_left (fun s x => Content.set_add x s) xs acc) ->
       In y acc \/ In y xs.
Proof.
  revert acc; induction xs as [|x xs IH]; intros acc Hnd; cbn [fold_left].
  - split; [exact Hnd|auto].
  - destruct (IH (Content.set_add x acc) (set_add_NoDup x acc Hnd)) as [H1 H2].
    split; [exact H1|]. intros y Hy.
    destruct (H2 y Hy) as [[->|H]%set_add_In|H]; cbn; auto.
Qed.

Lemma pushed_examined (f : list string -> Element -> list string) els :
  (forall acc el, f acc el = acc \/ f acc el = (acc ++ [getIdentifier el])%list) ->
  forall acc s, In s (fold_left f els acc) ->
    In s acc \/ exists el, In el els /\ s = getIdentifier el.
Proof.
  intros Hf. induction els as [|el els IH]; intros acc s; cbn [fold_left].
  - auto.
  - intros [Hin|(el' & Hel & ->)]%IH.
    + destruct (Hf acc el) as [Heq|Heq]; rewrite Heq in Hin; [auto|].
      apply in_app_or in Hin as [Hin|[<-|[]]]; [auto|].
      right. exists el. split; [left; reflexivity|reflexivity].
    + right. exists el'. split; [right; exact Hel|reflexivity].
Qed.

Lemma check_control_pushes acc el :
  check_control acc el = acc
  \/ check_control acc el = (acc ++ [getIdentifier el])%list.
Proof.
  unfold check_control.
  destruct (_ >? _); [|auto]. destruct (isVisible _ _); auto.
Qed.

Lemma check_image_pushes w acc el :
  check_image w acc el = acc
  \/ check_image w acc el = (acc ++ [getIdentifier el])%list.
Proof. unfold check_image. destruct (_ && _); auto. Qed.

Lemma check_block_pushes w acc el :
  check_block w acc el = acc
  \/ check_block w acc el = (acc ++ [getIdentifier el])%list.
Proof.
  unfold check_block. destruct (_ && _); [|auto].
  destruct (negb _); [|auto]. destruct (gt _ _); auto.
Qed.

Lemma check_tap_fold els n :
  n <= fold_left check_tap els n <= n + Z.of_nat (length els).
Proof.
  revert n; induction els as [|el els IH]; intros n; cbn [fold_left length].
  - lia.
  - assert (H : n <= check_tap n el <= n + 1).
    { unfold check_tap. destruct (_ || _); [lia|].
      destruct (_ || _); [|lia]. destruct (_ || _); [lia|].
      destruct (_ || _); lia. }
    specialize (IH (check_tap n el)). lia.
Qed.

(** The in-page check of one viewport. The count of overflowing elements
    is the number of distinct identifiers kept, at most five; each kept
    identifier is that of an element one of the three overflow checks
    examined and has at most 50 characters; tap targets are counted only
    below a window width of 768 and never beyond the number of
    candidates; horizontal scroll is reported only when the root is more
    than ten pixels wider than the window. *)
Theorem viewport_check_bounds (doc : Document) :
  let issues := check doc in
  overflowingElements issues = Z.of_nat (length (offendingElements issues))
  /\ overflowingElements issues <= 5
  /\ NoDup (offendingElements issues)
  /\ (forall s, In s (offendingElements issues) ->
        Js.len s <= 50
        /\ exists el, In el (examined doc) /\ s = getIdentifier el)
  /\ 0 <= smallTapTargets issues <= Z.of_nat (length (tapTargets doc))
  /\ (768 <= innerWidth doc -> smallTapTargets issues = 0)
  /\ (horizontalScroll issues = true ->
        innerWidth doc + 10 < rootScrollWidth doc
        /\ rootClientWidth doc + 10 < rootScrollWidth doc).
Proof.
  cbn zeta. unfold check.
  cbn [overflowingElements offendingElements smallTapTargets horizontalScroll].
  set (pushed := fold_left (check_block (innerWidth doc)) (blocks doc)
                   (fold_left (check_image (innerWidth doc)) (images doc)
                      (fold_left check_control (controls doc) []))).
  destruct (distinct_fold pushed [] (NoDup_nil_2)) as [Hnd Hin].
  fold (distinct pushed) in Hnd, Hin.
  split; [reflexivity|]. split.
  { rewrite length_take. lia. }
  split.
  { eapply sublist_NoDup; [exact Hnd|apply sublist_take]. }
  split.
  { intros s Hs.
    assert (Hd : In s (distinct pushed)).
    { apply list_elem_of_In. eapply elem_of_sublist; [|apply sublist_take].
      apply list_elem_of_In. exact Hs. }
    destruct (Hin s Hd) as [[]|Hp].
    assert (Hel : exists el, In el (examined doc) /\ s = getIdentifier el).
    { unfold examined. subst pushed.
      apply (pushed_examined _ _ (check_block_pushes _)) in Hp
        as [Hp|(el & Hel & ->)];
        [|exists el; split; [rewrite !in_app_iff; auto|reflexivity]].
      apply (pushed_examined _ _ (check_image_pushes _)) in Hp
        as [Hp|(el & Hel & ->)];
        [|exists el; split; [rewrite !in_app_iff; auto|reflexivity]].
      apply (pushed_examined _ _ check_control_pushes) in Hp
        as [[]|(el & Hel & ->)].
      exists el; split; [rewrite !in_app_iff; auto|reflexivity]. }
    split; [|exact Hel]. destruct Hel as (el & _ & ->).
    apply getIdentifier_length. }
  split.
  { destruct (innerWidth doc <? 768); [|lia].
    pose proof (check_tap_fold (tapTargets doc) 0). lia. }
  split.
  { intros Hw. destruct (Z.ltb_spec (innerWidth doc) 768); [lia|reflexivity]. }
  intros [H1 H2]%andb_prop. lia.
Qed.

End ViewportCheck.

Section RatioFacts.

(** The text-to-code ratio is a finite, non-negative number whatever the
    page reports: a zero or negative HTML size gives 0 instead of a
    division by zero. It is 0 exactly when the size is not positive or
    the text is empty, and at most 1 when the text is no longer than the
    HTML. *)
Theorem textToCodeRatio_finite (sa : StaticAnalysis.t) :
  exists q : Q,
    Content.textToCodeRatio sa = Num.Fin q
    /\ (0 <= q)%Q
    /\ ((q == 0)%Q <->
        StaticAnalysis.htmlSize sa <= 0 \/ StaticAnalysis.textContent sa = EmptyString)
    /\ (0 < StaticAnalysis.htmlSize sa ->
        Js.len (StaticAnalysis.textContent sa) <= StaticAnalysis.htmlSize sa ->
        (q <= 1)%Q).
Proof.
  unfold Content.textToCodeRatio, Num.div, Num.of_Z.
  assert (Hlen : 0 <= Js.len (StaticAnalysis.textContent sa)) by (unfold Js.len; lia).
  assert (Hempty : Js.len (StaticAnalysis.textContent sa) = 0
                   <-> StaticAnalysis.textContent sa = EmptyString).
  { unfold Js.len. destruct (StaticAnalysis.textContent sa); cbn; split;
      intros; try reflexivity; try lia; discriminate. }
  destruct (Z.gtb_spec (StaticAnalysis.htmlSize sa) 0) as [Hpos|Hneg].
  - destruct (Z.eqb_spec (StaticAnalysis.htmlSize sa) 0); [lia|].
    destruct (StaticAnalysis.htmlSize sa) as [|p|p] eqn:Hs; try lia.
    eexists. split; [reflexivity|].
    unfold Qdiv, Qinv, Qmult, Qle, Qeq, inject_Z. cbn [Qnum Qden].
    split; [lia|]. split; [|intros _ Hle; nia].
    rewrite <- Hempty. split; [intros H; right; lia|intros [H|H]; lia].
  - exists (inject_Z 0). split; [reflexivity|]. split; [apply Qle_refl|].
    split; [split; [intros _; left; lia|reflexivity]|lia].
Qed.

End RatioFacts.


(* ===================================================================== *)
(** ** Properties of the streaming endpoint *)
(* ===================================================================== *)

Section RouteFacts.

Import Analyzer Crawler Frontier Route.

Context (w : World) (stringify : PageAnalysis.t -> string)
        (controller : Controller).

Local Abbreviation line := (fun r : PageAnalysis.t => stringify r +:+ Text.newline).

Lemma crawlSite_counted startUrl options :
  Z.of_nat (length (reports (crawlSite w startUrl options)))
  <= Z.max 0 (CrawlOptions.maxPages options).
Proof.
  unfold reports.
  destruct (crawlSite_cases w startUrl options)
    as [->|(browser & start & _ & _ & ->)]; [cbn; lia|].
  assert (Hc : counted options
                 (final (crawl_loop (Crawler.parse w) (spell w) browser options
                           (hostname start) (initial startUrl)))).
  { apply crawl_loop_invariant;
      [intros; eapply counted_next; eauto
      |intros; eapply counted_raise; eauto|].
    split; cbn; lia. }
  destruct Hc as [Hc Hle]. lia.
Qed.

(** An exception that ends the crawl of a start URL that parses comes
    from the browser. *)
Lemma crawlSite_raised startUrl options start e :
  Crawler.parse w None startUrl = Some start ->
  raised (crawlSite w startUrl options) = Some e ->
  launch w = inl e
  \/ exists browser,
       launch w = inr browser
       /\ (close browser = inl e
           \/ exists n, newPage browser n = inl e \/ closePage browser n = inl e).
Proof.
  intros Hp. unfold crawlSite, crawl_try. rewrite Hp.
  destruct (launch w) as [err|browser]; [intros [= <-]; auto|].
  destruct (close browser) as [err|[]] eqn:Hclose.
  - intros [= <-]. right. exists browser. auto.
  - intros He. right. exists browser. split; [reflexivity|]. right.
    exact (proj2 (crawl_loop_ends (Crawler.parse w) (spell w) browser options
                    (hostname start) (initial startUrl)) e He).
Qed.

Lemma maxPages_range p :
  match maxPages p with
  | Some n => 1 <= n <= 100
  | None => Text.parseInt10 (or_default p "20") = None
  end.
Proof.
  unfold maxPages.
  destruct (Text.parseInt10 (or_default p "20")) as [n|]; cbn; [lia|reflexivity].
Qed.

(** The loop enqueues the lines of a prefix of the reports: of all of
    them unless an [enqueue] throws. *)
Lemma pump_spec i results :
  let '(sent, thrown) := pump stringify controller i results in
  (exists rest, map line results = (sent ++ rest)%list)
  /\ (thrown = None -> sent = map line results)
  /\ (forall e, thrown = Some e -> exists j, enqueue controller j = inl e)
  /\ ((forall j, enqueue controller j = inr tt) -> thrown = None).
Proof.
  revert i; induction results as [|r rs IH]; intros i; cbn [pump map].
  - split; [exists []; reflexivity|]. split; [reflexivity|].
    split; [discriminate|reflexivity].
  - destruct (enqueue controller i) as [err|[]] eqn:Hi.
    + split; [eexists; reflexivity|]. split; [discriminate|].
      split; [intros e [= <-]; eauto|].
      intros H. rewrite H in Hi. discriminate.
    + specialize (IH (S i)).
      destruct (pump stringify controller (S i) rs) as [sent thrown].
      destruct IH as ((rest & Hrest) & Hnone & Hsome & Hall).
      split; [exists rest; cbn; rewrite Hrest; reflexivity|].
      split; [intros H; rewrite (Hnone H); reflexivity|].
      split; assumption.
Qed.

Lemma start_spec run chunks failure :
  Route.start stringify controller run = Ndjson chunks failure ->
  (exists rest, map line (reports run) = (chunks ++ rest)%list)
  /\ (failure = None -> chunks = map line (reports run))
  /\ ((forall j, enqueue controller j = inr tt) -> chunks = map line (reports run))
  /\ (forall e, failure = Some e ->
        (exists j, enqueue controller j = inl e)
        \/ raised run = Some e
        \/ closeStream controller = inl e).
Proof.
  unfold Route.start.
  pose proof (pump_spec 0 (reports run)) as H.
  destruct (pump stringify controller 0 (reports run)) as [sent thrown].
  destruct H as (Hpre & Hnone & Hsome & Hall).
  intros [= <- <-]. split; [exact Hpre|].
  split; [|split].
  - destruct thrown; [discriminate|]. auto.
  - intros H. apply Hnone, Hall, H.
  - intros e He. destruct thrown as [e'|].
    + injection He as <-. left. apply Hsome. reflexivity.
    + destruct (raised run) as [e'|]; [injection He as <-; auto|].
      destruct (closeStream controller) as [e'|]; [injection He as <-; auto|].
      discriminate.
Qed.

Lemma GET_started url maxPagesParam chunks failure :
  GET w stringify controller url maxPagesParam = Ndjson chunks failure ->
  exists u parsed,
    url = Some u
    /\ parse w None (targetUrl u) = Some parsed
    /\ Route.start stringify controller
         (crawlSite w (targetUrl u)
            (CrawlOptions.mk (limit (maxPages maxPagesParam)) 2))
       = Ndjson chunks failure.
Proof.
  unfold GET. destruct url as [u|]; [|discriminate].
  destruct (negb (Js.truthy u)); [discriminate|].
  destruct (parse w None (targetUrl u)) as [parsed|] eqn:Hp; [|discriminate].
  cbn zeta. intros H. exists u, parsed. auto.
Qed.

(** When the endpoint refuses. The answer is a plain response exactly
    when the [url] parameter is missing or empty, or the target URL (the
    parameter, prefixed with [https://] unless it starts with [http])
    does not parse; its status is then 400 and its text says which of
    the two it was. The [maxPages] parameter never causes a refusal. *)
Theorem GET_refusals (url maxPagesParam : option string) :
  let response := GET w stringify controller url maxPagesParam in
  (response = Plain 400 "URL is required" <-> url = None \/ url = Some EmptyString)
  /\ (response = Plain 400 "Invalid URL" <->
        exists u, url = Some u /\ u <> EmptyString
                  /\ parse w None (targetUrl u) = None)
  /\ (forall status text, response = Plain status text ->
        status = 400 /\ (text = "URL is required" \/ text = "Invalid URL"))
  /\ (forall u, url = Some u -> u <> EmptyString ->
        (Js.startsWith "http" u = true -> targetUrl u = u)
        /\ (Js.startsWith "http" u = false -> targetUrl u = "https://" +:+ u)
        /\ Js.startsWith "http" (targetUrl u) = true).
Proof.
  cbn zeta. unfold GET.
  destruct url as [u|].
  - unfold Js.truthy. rewrite negb_involutive.
    destruct (String.eqb_spec u EmptyString) as [->|Hne].
    + split; [split; auto|]. split.
      * split; [discriminate|]. intros (u & [= <-] & Hu & _). congruence.
      * split; [intros ? ? [= <- <-]; auto|].
        intros u [= <-] Hu. congruence.
    + destruct (parse w None (targetUrl u)) as [start|] eqn:Hp.
      * cbn zeta. unfold Route.start.
        destruct (pump stringify controller 0 _) as [sent thrown].
        split; [split; [discriminate|intros [|[= ->]]; congruence]|].
        split; [split; [discriminate|]|].
        { intros (u' & [= <-] & _ & Hp'). congruence. }
        split; [discriminate|].
        intros u' [= <-] _. unfold targetUrl.
        destruct (Js.startsWith "http" u) eqn:Hs; cbn [negb];
          repeat split; auto; discriminate.
      * split; [split; [discriminate|intros [|[= ->]]; congruence]|].
        split; [split; [intros _; exists u; auto|reflexivity]|].
        split; [intros ? ? [= <- <-]; auto|].
        intros u' [= <-] _. unfold targetUrl.
        destruct (Js.startsWith "http" u) eqn:Hs; cbn [negb];
          repeat split; auto; discriminate.
  - split; [split; auto|]. split.
    + split; [discriminate|]. intros (u & [=] & _).
    + split; [intros ? ? [= <- <-]; auto|]. intros u [=].
Qed.

(** What the endpoint streams. Once the target URL is accepted, the
    chunks enqueued are the lines (the serialized report followed by a
    line feed) of the first reports of the crawl of that URL to depth 2,
    in order: of all its reports when no [enqueue] throws, and whenever
    no error is passed to the stream. There are at most 100 chunks
    whatever [maxPages] says, and none at all when [maxPages] is not a
    number in the sense of [parseInt] (the limit is then [NaN], not the
    default). An error is passed to the stream only when the browser
    fails to launch, to open or close a page or to close itself, when an
    [enqueue] throws, or when closing the stream throws; never for the
    URL, which was checked before. *)
Theorem GET_stream (url maxPagesParam : option string)
    (chunks : list string) (failure : option Thrown) :
  GET w stringify controller url maxPagesParam = Ndjson chunks failure ->
  exists u,
    url = Some u
    /\ (let run := crawlSite w (targetUrl u)
                     (CrawlOptions.mk (limit (maxPages maxPagesParam)) 2) in
        let lines := map (fun r => stringify r +:+ Text.newline) (reports run) in
        (exists rest, lines = (chunks ++ rest)%list)
        /\ (failure = None -> chunks = lines)
        /\ ((forall i, enqueue controller i = inr tt) -> chunks = lines))
    /\ Z.of_nat (length chunks) <= 100
    /\ (maxPages maxPagesParam = None -> chunks = [])
    /\ (forall n, maxPages maxPagesParam = Some n ->
          1 <= n <= 100 /\ Z.of_nat (length chunks) <= n)
    /\ (forall e, failure = Some e ->
          launch w = inl e
          \/ (exists browser,
                launch w = inr browser
                /\ (close browser = inl e
                    \/ exists n, newPage browser n = inl e
                                 \/ closePage browser n = inl e))
          \/ (exists i, enqueue controller i = inl e)
          \/ closeStream controller = inl e).
Proof.
  intros (u & parsed & -> & Hp & Hstart)%GET_started.
  apply start_spec in Hstart as ((rest & Hpre) & Hnone & Hall & Hfail).
  exists u. split; [reflexivity|].
  split; [cbn zeta; split; [exists rest; exact Hpre|split; assumption]|].
  pose proof (crawlSite_counted (targetUrl u)
                (CrawlOptions.mk (limit (maxPages maxPagesParam)) 2)) as Hc.
  cbn [CrawlOptions.maxPages] in Hc.
  pose proof (maxPages_range maxPagesParam) as Hr.
  assert (Hlen : Z.of_nat (length chunks)
                 <= Z.of_nat (length (reports (crawlSite w (targetUrl u)
                      (CrawlOptions.mk (limit (maxPages maxPagesParam)) 2))))).
  { apply (f_equal (@length string)) in Hpre.
    rewrite length_map, length_app in Hpre. lia. }
  split; [destruct (maxPages maxPagesParam); cbn [limit] in *; lia|].
  split.
  { intros Hn. rewrite Hn in *. cbn [limit] in *.
    destruct chunks; [reflexivity|cbn in Hlen; lia]. }
  split.
  { intros n Hn. rewrite Hn in *. cbn [limit] in *. lia. }
  intros e He.
  destruct (Hfail e He) as [Hq|[Hraised|Hclose]]; [auto|..|auto].
  destruct (crawlSite_raised _ _ _ _ Hp Hraised) as [Hl|Hb]; auto.
Qed.

End RouteFacts.


(* ===================================================================== *)
(** ** Properties of the form *)
(* ===================================================================== *)

Section SplitFacts.

Import Text.

Lemma append_assoc (a b c : string) : (a +:+ b) +:+ c = a +:+ (b +:+ c).
Proof.
  induction a as [|x a IH]; [reflexivity|].
  change (String x ((a +:+ b) +:+ c) = String x (a +:+ (b +:+ c))).
  rewrite IH. reflexivity.
Qed.

Lemma append_nil_r (a : string) : a +:+ EmptyString = a.
Proof.
  induction a as [|x a IH]; [reflexivity|].
  change (String x (a +:+ EmptyString) = String x a). rewrite IH. reflexivity.
Qed.

Lemma split_on_nonempty sep s : split_on sep s <> [].
Proof.
  destruct s as [|c s]; cbn; [discriminate|].
  destruct (Ascii.eqb c sep); [discriminate|].
  destruct (split_on sep s); discriminate.
Qed.

(** Splitting a concatenation: the last field of the first text and the
    first field of the second are one field. *)
Lemma split_on_app sep a b :
  split_on sep (a +:+ b)
  = (removelast (split_on sep a)
     ++ (List.last (split_on sep a) EmptyString +:+ hd EmptyString (split_on sep b))
        :: tl (split_on sep b))%list.
Proof.
  induction a as [|c a IH].
  - change (EmptyString +:+ b) with b. cbn [split_on removelast List.last app].
    pose proof (split_on_nonempty sep b).
    destruct (split_on sep b); [congruence|reflexivity].
  - change (String c a +:+ b) with (String c (a +:+ b)).
    cbn [split_on]. rewrite IH.
    pose proof (split_on_nonempty sep a) as Ha.
    destruct (split_on sep a) as [|f fs]; [congruence|].
    destruct (Ascii.eqb c sep).
    + destruct fs; reflexivity.
    + destruct fs as [|g gs]; reflexivity.
Qed.

(** A field holds no separator. *)
Lemma split_on_field sep s f :
  In f (split_on sep s) -> split_on sep f = [f].
Proof.
  revert f; induction s as [|c s IH]; intros f; cbn [split_on].
  - intros [<-|[]]. reflexivity.
  - pose proof (split_on_nonempty sep s) as Hs.
    destruct (Ascii.eqb c sep) eqn:Hc.
    + intros [<-|Hin]; [reflexivity|auto].
    + destruct (split_on sep s) as [|g gs]; [congruence|].
      intros [<-|Hin].
      * cbn [split_on]. rewrite Hc, (IH g) by (left; reflexivity). reflexivity.
      * apply IH. right. exact Hin.
Qed.

Lemma last_In {A} (l : list A) d : l <> [] -> In (List.last l d) l.
Proof.
  induction l as [|x l IH]; [congruence|]. intros _.
  destruct l as [|y l]; [left; reflexivity|].
  right. apply IH. discriminate.
Qed.

Lemma split_on_join_lines sep (lines : list string) rest :
  Forall (fun l => split_on sep l = [l]) lines ->
  split_on sep (fold_right (fun l t => l +:+ String sep EmptyString +:+ t) rest lines)
  = (lines ++ split_on sep rest)%list.
Proof.
  induction 1 as [|l lines Hl _ IH]; cbn [fold_right app]; [reflexivity|].
  rewrite split_on_app, Hl. cbn [removelast List.last app].
  change (String sep EmptyString +:+ ?t) with (String sep t).
  cbn [split_on]. rewrite Ascii.eqb_refl. cbn [hd tl].
  rewrite IH, append_nil_r. reflexivity.
Qed.

End SplitFacts.

Section ClientFacts.

Import Analyzer Client Text.

Context {R : Type} (JSON_parse : string -> option R).

Local Abbreviation take_line := (take_line JSON_parse).
Local Abbreviation read_chunk := (read_chunk JSON_parse).
Local Abbreviation line_results := (line_results JSON_parse).
Local Abbreviation text_results := (text_results JSON_parse).
Local Abbreviation handleSubmit := (handleSubmit JSON_parse).

Lemma take_line_app rs line : take_line rs line = (rs ++ line_results line)%list.
Proof.
  unfold Client.line_results, Client.take_line.
  destruct (negb _); [rewrite app_nil_r; reflexivity|].
  destruct (JSON_parse line); [reflexivity|rewrite app_nil_r; reflexivity].
Qed.

Lemma fold_take_line lines rs :
  fold_left take_line lines rs = (rs ++ flat_map line_results lines)%list.
Proof.
  revert rs; induction lines as [|l lines IH]; intros rs; cbn [fold_left flat_map].
  - rewrite app_nil_r. reflexivity.
  - rewrite IH, take_line_app, <- app_assoc. reflexivity.
Qed.

Lemma concat_strings_app (a : string) (cs : list string) :
  fold_right String.append EmptyString (a :: cs)
  = a +:+ fold_right String.append EmptyString cs.
Proof. reflexivity. Qed.

(** The read loop, whatever the chunks: what it leaves, with the final
    buffer taken as a line, is what the lines of the whole text give. *)
Lemma read_loop cs buffer rs :
  split_on LF buffer = [buffer] ->
  let '(buffer', rs') := fold_left read_chunk cs (buffer, rs) in
  take_line rs' buffer'
  = (rs ++ text_results (buffer +:+ fold_right String.append EmptyString cs))%list
  /\ exists lines,
       (removelast (split_on LF (buffer +:+ fold_right String.append EmptyString cs)))
       = lines /\ rs' = (rs ++ flat_map line_results lines)%list.
Proof.
  revert buffer rs; induction cs as [|c cs IH]; intros buffer rs Hb;
    cbn [fold_left fold_right].
  - rewrite append_nil_r. unfold Client.text_results. rewrite Hb.
    cbn [flat_map removelast]. rewrite app_nil_r, take_line_app.
    split; [reflexivity|]. exists []. cbn. rewrite app_nil_r. auto.
  - unfold Client.read_chunk at 2. cbn zeta.
    set (lines := split_on LF (buffer +:+ c)).
    assert (Hlast : split_on LF (List.last lines EmptyString)
                    = [List.last lines EmptyString]).
    { eapply split_on_field, last_In, split_on_nonempty. }
    specialize (IH (List.last lines EmptyString)
                   (fold_left take_line (removelast lines) rs) Hlast).
    destruct (fold_left read_chunk cs _) as [buffer' rs'].
    destruct IH as (IH & lines' & Hl' & Hrs').
    assert (Hsplit :
      split_on LF (buffer +:+ c +:+ fold_right String.append EmptyString cs)
      = (removelast lines
         ++ split_on LF (List.last lines EmptyString
                         +:+ fold_right String.append EmptyString cs))%list).
    { rewrite <- append_assoc, split_on_app. fold lines.
      rewrite (split_on_app LF (List.last lines EmptyString)), Hlast.
      reflexivity. }
    split.
    + rewrite IH, fold_take_line. unfold Client.text_results.
      rewrite Hsplit, flat_map_app, app_assoc. reflexivity.
    + eexists. split; [reflexivity|].
      rewrite Hrs', fold_take_line, Hsplit, <- Hl', <- app_assoc, <- flat_map_app.
      f_equal. f_equal.
      pose proof (split_on_nonempty LF
                    (List.last lines EmptyString
                     +:+ fold_right String.append EmptyString cs)) as Hne.
      rewrite removelast_app by exact Hne. reflexivity.
Qed.

End ClientFacts.

Section FormFacts.

Import Analyzer Client Text.

Context {R : Type} (JSON_parse : string -> option R).

Local Abbreviation line_results := (line_results JSON_parse).
Local Abbreviation text_results := (text_results JSON_parse).
Local Abbreviation handleSubmit := (handleSubmit JSON_parse).

(** Reading the stream. Once the response is accepted and has a body, the
    results do not depend on how the text arrives in chunks. When the
    stream ends normally they are what the lines of the whole text give,
    the text after the last line feed included; when it fails they are
    what the lines before the last line feed give, the rest is dropped
    and the error message is shown. The form is no longer loading. *)
Theorem handleSubmit_reads_lines
    (fetch : string -> Z -> Thrown + HttpResponse) (url : string)
    (maxPages : Z) (response : HttpResponse) (stream : Stream) :
  url <> EmptyString ->
  fetch url maxPages = inr response ->
  ok response = true ->
  body response = Some stream ->
  let text := fold_right String.append EmptyString (chunks stream) in
  let view := handleSubmit fetch (Some url) maxPages in
  isLoading view = false
  /\ match failure stream with
     | None => results view = text_results text /\ error view = None
     | Some err =>
         results view = flat_map line_results (removelast (split_on LF text))
         /\ error view = Some (message err)
     end.
Proof.
  intros Hu Hf Hok Hb. cbn zeta. unfold Client.handleSubmit.
  assert (Ht : Js.truthy url = true).
  { unfold Js.truthy. destruct (String.eqb_spec url EmptyString); [congruence|reflexivity]. }
  rewrite Ht, Hf, Hok, Hb. cbn [negb].
  pose proof (read_loop JSON_parse (chunks stream) EmptyString [] eq_refl) as H.
  destruct (fold_left _ (chunks stream) _) as [buffer rs].
  destruct H as (Hall & lines & Hlines & Hrs).
  change (EmptyString +:+ ?t) with t in Hall, Hlines.
  destruct (failure stream) as [err|]; cbn [isLoading results error].
  - split; [reflexivity|]. split; [|reflexivity].
    rewrite Hrs, Hlines. reflexivity.
  - split; [reflexivity|]. split; [|reflexivity]. exact Hall.
Qed.

(** The loading flag and the error. A submission without a URL returns
    before the [try], so the form stays loading, with no result and no
    error; every other submission ends not loading. An error is shown
    together with results only when the stream failed after delivering
    complete lines. *)
Theorem handleSubmit_loading
    (fetch : string -> Z -> Thrown + HttpResponse) (url : option string)
    (maxPages : Z) :
  let view := handleSubmit fetch url maxPages in
  (isLoading view = true <-> url = None \/ url = Some EmptyString)
  /\ (isLoading view = true -> results view = [] /\ error view = None)
  /\ (forall m, error view = Some m -> results view <> [] ->
        exists u response stream err,
          url = Some u
          /\ fetch u maxPages = inr response
          /\ ok response = true
          /\ body response = Some stream
          /\ failure stream = Some err
          /\ m = message err).
Proof.
  cbn zeta. unfold Client.handleSubmit.
  destruct url as [u|]; cbn [negb].
  - unfold Js.truthy. rewrite negb_involutive.
    destruct (String.eqb_spec u EmptyString) as [->|Hne]; cbn [isLoading results error].
    + split; [split; auto|]. split; [auto|discriminate].
    + assert (Hno : ~ (Some u = None \/ Some u = Some EmptyString))
        by (intros [|[= ->]]; congruence).
      destruct (fetch u maxPages) as [err|response] eqn:Hf;
        cbn [isLoading results error].
      { split; [split; [discriminate|tauto]|]. split; [discriminate|].
        intros m _ H; congruence. }
      destruct (ok response) eqn:Hok; cbn [negb].
      * destruct (body response) as [stream|] eqn:Hb; cbn [isLoading results error].
        -- destruct (fold_left _ (chunks stream) _) as [buffer rs].
           destruct (failure stream) as [err|] eqn:Hfail;
             cbn [isLoading results error].
           ++ split; [split; [discriminate|tauto]|]. split; [discriminate|].
              intros m [= <-] _. exists u, response, stream, err. auto 10.
           ++ split; [split; [discriminate|tauto]|]. split; discriminate.
        -- split; [split; [discriminate|tauto]|]. split; discriminate.
      * destruct (text response); cbn [isLoading results error];
          (split; [split; [discriminate|tauto]|]; split; [discriminate|]);
          intros m _ H; congruence.
  - cbn [isLoading results error].
    split; [split; auto|]. split; [auto|discriminate].
Qed.

End FormFacts.

Section RoundTrip.

Import Analyzer Crawler Route Client Text.

Context (w : World) (stringify : PageAnalysis.t -> string)
        (controller : Controller)
        (JSON_parse : string -> option PageAnalysis.t).

Local Abbreviation line_results := (line_results JSON_parse).
Local Abbreviation text_results := (text_results JSON_parse).
Local Abbreviation handleSubmit := (handleSubmit JSON_parse).

(** Every value of the page slider reaches the crawl unchanged. *)
Lemma maxPages_slider n :
  1 <= n <= 100 -> maxPages (Some (Js.of_int n)) = Some n.
Proof.
  intros Hn.
  assert (H : forallb (fun k => match maxPages (Some (Js.of_int (Z.of_nat k))) with
                                | Some m => m =? Z.of_nat k
                                | None => false
                                end) (seq 1 100) = true)
    by (vm_compute; reflexivity).
  rewrite forallb_forall in H. specialize (H (Z.to_nat n)).
  rewrite Z2Nat.id in H by lia.
  destruct (maxPages (Some (Js.of_int n))) as [m|].
  - f_equal. apply Z.eqb_eq, H, in_seq. lia.
  - discriminate H. apply in_seq. lia.
Qed.

(** A stream to which no error was passed holds every line. *)
Lemma GET_accepted url maxPagesParam sent :
  GET w stringify controller url maxPagesParam = Ndjson sent None ->
  exists u,
    url = Some u
    /\ sent = map (fun r => stringify r +:+ newline)
                  (reports (crawlSite w (targetUrl u)
                              (CrawlOptions.mk (limit (maxPages maxPagesParam)) 2))).
Proof.
  intros (u & parsed & -> & _ & Hstart)%GET_started.
  apply start_spec in Hstart as (_ & Hnone & _).
  exists u. split; [reflexivity|]. apply Hnone. reflexivity.
Qed.

Lemma sent_text (rs : list PageAnalysis.t) :
  fold_right String.append EmptyString (map (fun r => stringify r +:+ newline) rs)
  = fold_right (fun l t => l +:+ String LF EmptyString +:+ t) EmptyString
               (map stringify rs).
Proof.
  induction rs as [|r rs IH]; cbn [map fold_right]; [reflexivity|].
  rewrite IH, append_assoc. reflexivity.
Qed.

Lemma lines_results (rs : list PageAnalysis.t) :
  (forall r, In r rs ->
     JSON_parse (stringify r) = Some r /\ trim (stringify r) <> EmptyString) ->
  flat_map line_results (map stringify rs) = rs.
Proof.
  induction rs as [|r rs IH]; intros H; cbn [map flat_map]; [reflexivity|].
  rewrite IH by (intros; apply H; right; assumption).
  destruct (H r (or_introl eq_refl)) as [Hp Ht].
  unfold Client.line_results, Client.take_line, Js.truthy.
  rewrite Hp. destruct (String.eqb_spec (trim (stringify r)) EmptyString);
    [congruence|reflexivity].
Qed.

(** From the crawl to the form. Suppose the page slider is at [n], the
    endpoint answers the form's request with a stream that ends
    normally, the text arrives complete, in whatever chunks, and every
    report survives serialization: its serialized form parses back to
    it, holds no line feed and is not blank. Then the form ends with
    exactly the reports of the crawl of the target URL, in order, at most
    [n] of them, and with no error. *)
Theorem form_shows_the_reports
    (fetch : string -> Z -> Thrown + HttpResponse) (url : string) (n : Z)
    (response : HttpResponse) (stream : Stream) (sent : list string) :
  let run := crawlSite w (targetUrl url) (CrawlOptions.mk n 2) in
  url <> EmptyString ->
  1 <= n <= 100 ->
  GET w stringify controller (Some url) (Some (Js.of_int n)) = Ndjson sent None ->
  fetch url n = inr response ->
  ok response = true ->
  body response = Some stream ->
  failure stream = None ->
  fold_right String.append EmptyString (chunks stream)
  = fold_right String.append EmptyString sent ->
  (forall r, In r (reports run) ->
     JSON_parse (stringify r) = Some r
     /\ split_on LF (stringify r) = [stringify r]
     /\ trim (stringify r) <> EmptyString) ->
  let view := handleSubmit fetch (Some url) n in
  results view = reports run
  /\ error view = None
  /\ isLoading view = false
  /\ Z.of_nat (length (results view)) <= n.
Proof.
  intros run Hu Hn Hget Hf Hok Hb Hfail Htext Hjson view.
  apply GET_accepted in Hget as (u & [= <-] & ->).
  rewrite (maxPages_slider n Hn) in Htext. cbn [limit] in Htext. fold run in Htext.
  assert (Hres : results view = reports run).
  { subst view. unfold Client.handleSubmit.
    assert (Ht : Js.truthy url = true).
    { unfold Js.truthy.
      destruct (String.eqb_spec url EmptyString); [congruence|reflexivity]. }
    rewrite Ht, Hf, Hok, Hb, Hfail. cbn [negb].
    pose proof (read_loop JSON_parse (chunks stream) EmptyString [] eq_refl) as H.
    destruct (fold_left _ (chunks stream) _) as [buffer rs].
    destruct H as (Hall & _). cbn [results]. rewrite Hall.
    change (EmptyString +:+ ?t) with t. rewrite Htext, sent_text.
    unfold Client.text_results. rewrite split_on_join_lines.
    - rewrite flat_map_app, lines_results by (intros r Hr; split; apply Hjson, Hr).
      cbn. rewrite app_nil_r. reflexivity.
    - apply List.Forall_forall. intros l (r & <- & Hr)%in_map_iff. apply Hjson, Hr. }
  split; [exact Hres|].
  split; [|split].
  - subst view. unfold Client.handleSubmit.
    assert (Ht : Js.truthy url = true).
    { unfold Js.truthy.
      destruct (String.eqb_spec url EmptyString); [congruence|reflexivity]. }
    rewrite Ht, Hf, Hok, Hb, Hfail. cbn [negb].
    destruct (fold_left _ (chunks stream) _). reflexivity.
  - subst view. unfold Client.handleSubmit.
    assert (Ht : Js.truthy url = true).
    { unfold Js.truthy.
      destruct (String.eqb_spec url EmptyString); [congruence|reflexivity]. }
    rewrite Ht, Hf, Hok, Hb, Hfail. cbn [negb].
    destruct (fold_left _ (chunks stream) _). reflexivity.
  - rewrite Hres.
    pose proof (crawlSite_counted w (targetUrl url) (CrawlOptions.mk n 2)) as Hc.
    cbn [CrawlOptions.maxPages] in Hc. fold run in Hc. lia.
Qed.

End RoundTrip.


(* ===================================================================== *)
(** ** Properties of the summary *)
(* ===================================================================== *)

Section DisplayFacts.

Import Analyzer Display.

Lemma viewport_issues_fold vps n :
  n <= fold_left viewport_issues vps n <= n + 3 * Z.of_nat (length vps)
  /\ (fold_left viewport_issues vps n = n <->
      existsb (fun vp =>
                 ViewportIssue.horizontalScroll vp
                 || (ViewportIssue.overflowingElements vp >? 0)
                 || (ViewportIssue.smallTapTargets vp >? 0)) vps = false).
Proof.
  revert n; induction vps as [|vp vps IH]; intros n; cbn [fold_left length existsb].
  - split; [lia|]. split; auto.
  - assert (Hone : n <= viewport_issues n vp <= n + 3
                   /\ (viewport_issues n vp = n <->
                       ViewportIssue.horizontalScroll vp
                       || (ViewportIssue.overflowingElements vp >? 0)
                       || (ViewportIssue.smallTapTargets vp >? 0) = false)).
    { unfold viewport_issues, positive.
      destruct (ViewportIssue.horizontalScroll vp);
        destruct (Z.gtb_spec (ViewportIssue.overflowingElements vp) 0);
        destruct (Z.gtb_spec (ViewportIssue.smallTapTargets vp) 0);
        destruct (Z.eqb_spec (ViewportIssue.smallTapTargets vp) 0);
        cbn [negb andb orb]; split; try lia; split; intros; try lia;
        try discriminate; try reflexivity. }
    destruct Hone as [Hb Hz].
    destruct (IH (viewport_issues n vp)) as [IHb IHz].
    split; [lia|].
    rewrite orb_false_iff, <- Hz, <- IHz.
    pose proof (proj1 (IH (viewport_issues n vp))). lia.
Qed.

(** The issue count of a page against its badges. For a page with a
    non-negative H1 count, the summary counts no issue for it exactly
    when its status is below 400, it has no error text, and none of the
    three badges of its entry is raised. The count is never negative and
    at most seven plus three per viewport entry. *)
Theorem page_issues_badges (r : PageAnalysis.t) :
  0 <= PageAnalysis.h1Count r ->
  (page_issues r = 0 <->
     PageAnalysis.statusCode r < 400
     /\ has_error r = false
     /\ hasUxIssues r = false
     /\ hasVisualIssues r = false
     /\ hasContentIssues r = false)
  /\ 0 <= page_issues r
       <= 7 + 3 * Z.of_nat (length (PageAnalysis.viewportIssues r)).
Proof.
  intros Hh1.
  unfold page_issues, hasUxIssues, hasVisualIssues, hasViewportIssues,
    hasContentIssues.
  set (base :=
         let issues := 0 in
         let issues :=
           if (PageAnalysis.statusCode r >=? 400) || has_error r
           then issues + 1 else issues in
         let issues := if PageAnalysis.missingAltTags r >? 0 then issues + 1 else issues in
         let issues := if negb (PageAnalysis.hasViewport r) then issues + 1 else issues in
         let issues :=
           if (PageAnalysis.h1Count r =? 0) || (PageAnalysis.h1Count r >? 1)
           then issues + 1 else issues in
         let issues :=
           if PageAnalysis.imagesMissingDimensions r >? 0 then issues + 1 else issues in
         if PageAnalysis.longWords r >? 0 then issues + 1 else issues).
  cbn zeta. fold base.
  destruct (viewport_issues_fold (PageAnalysis.viewportIssues r) base) as [Hb Hz].
  set (total := fold_left viewport_issues (PageAnalysis.viewportIssues r) base) in *.
  set (vps := existsb _ (PageAnalysis.viewportIssues r)) in *.
  clearbody total vps.
  assert (Hbase : 0 <= base <= 6
            /\ (base = 0 <->
                PageAnalysis.statusCode r < 400 /\ has_error r = false
                /\ (PageAnalysis.missingAltTags r >? 0)
                   || negb (PageAnalysis.hasViewport r)
                   || negb (PageAnalysis.h1Count r =? 1) = false
                /\ (PageAnalysis.imagesMissingDimensions r >? 0)
                   || (PageAnalysis.longWords r >? 0) = false)).
  { subst base. cbn zeta.
    destruct (Z.geb_spec (PageAnalysis.statusCode r) 400);
      destruct (has_error r);
      destruct (Z.gtb_spec (PageAnalysis.missingAltTags r) 0);
      destruct (PageAnalysis.hasViewport r);
      destruct (Z.eqb_spec (PageAnalysis.h1Count r) 0);
      destruct (Z.gtb_spec (PageAnalysis.h1Count r) 1);
      destruct (Z.eqb_spec (PageAnalysis.h1Count r) 1);
      destruct (Z.gtb_spec (PageAnalysis.imagesMissingDimensions r) 0);
      destruct (Z.gtb_spec (PageAnalysis.longWords r) 0);
      cbn [negb andb orb]; try lia;
      (split; [lia|]); split;
      try (intros H; exfalso; lia);
      try (intros (? & ? & ? & ?); first [lia|discriminate]);
      try (intros _; repeat split; first [lia|reflexivity]);
      try reflexivity. }
  destruct Hbase as [Hbr Hbz]. clearbody base.
  split.
  - destruct (Z.gtb_spec (Z.of_nat (length (PageAnalysis.possibleTypos r))) 0)
      as [Ht|Ht].
    + split; [lia|]. intros (_ & _ & _ & _ & H). discriminate.
    + split.
      * intros H0. assert (Hb0 : base = 0) by lia.
        destruct (proj1 Hbz Hb0) as (H1 & H2 & H3 & H4).
        repeat split; auto.
        rewrite H4. cbn [orb]. apply (proj1 Hz). cbv iota in H0. lia.
      * intros (H1 & H2 & H3 & H4 & _).
        apply orb_false_iff in H4 as [H4 H5].
        assert (Hb0 : base = 0) by (apply Hbz; auto).
        apply (proj2 Hz) in H5. cbv iota. congruence.
  - destruct (Z.of_nat (length (PageAnalysis.possibleTypos r)) >? 0); lia.
Qed.

End DisplayFacts.

Section SummaryFacts.

Import Analyzer Display.

Lemma emptyReport_issues url responseTime statusCode m :
  let r := emptyReport url responseTime statusCode m in
  page_issues r
  = (if (statusCode >=? 400) || Js.truthy m then 3 else 2)
  /\ hasUxIssues r = true
  /\ hasVisualIssues r = false
  /\ hasContentIssues r = false.
Proof.
  cbn zeta. unfold page_issues, has_error, hasUxIssues, hasVisualIssues,
    hasViewportIssues, hasContentIssues, emptyReport. cbn.
  destruct ((statusCode >=? 400) || Js.truthy m); auto.
Qed.

(** How a failed page counts. A report of [analyzePage] that carries an
    error text counts three issues in the summary (the failure, the
    missing viewport tag and the missing H1 of its empty extraction
    fields), or two when the text is empty, which only an [Error] thrown
    with an empty message produces; its entry raises the UX badge and
    neither of the other two. *)
Theorem failed_page_issues (spell : option (string -> bool)) (page : Page)
    (url m : string) :
  let report := analyzePage spell page url in
  PageAnalysis.error report = Some m ->
  page_issues report = (if Js.truthy m then 3 else 2)
  /\ (Js.truthy m = false ->
        exists name, analyzePage_try spell page url
                     = (inl (ErrorObject name EmptyString),
                        snd (analyzePage_try spell page url)))
  /\ hasUxIssues report = true
  /\ hasVisualIssues report = false
  /\ hasContentIssues report = false.
Proof.
  cbn zeta. unfold analyzePage, analyzePage_traced.
  destruct (analyzePage_try spell page url) as [[e|report] log] eqn:H; cbn [fst snd].
  - unfold failureReport. intros [= <-].
    destruct (emptyReport_issues url 0 0 (message_of e)) as (Hi & Hrest).
    cbn [orb] in Hi. change (0 >=? 400) with false in Hi. cbn [orb] in Hi.
    split; [exact Hi|]. split; [|exact Hrest].
    intros Ht. destruct e as [name msg|]; [|discriminate Ht].
    cbn in Ht. unfold Js.truthy in Ht.
    destruct (String.eqb_spec msg EmptyString) as [->|]; [|discriminate Ht].
    exists name. reflexivity.
  - apply analyzePage_try_returns in H
      as [(resp & _ & _ & ->)|(sa & issues & _ & ->)].
    + unfold httpErrorReport. intros [= <-].
      destruct (emptyReport_issues url (now_loaded page - now_start page)
                  (status resp) ("HTTP " +:+ Js.of_int (status resp)))
        as (Hi & Hrest).
      change (Js.truthy ("HTTP " +:+ Js.of_int (status resp))) with true in *.
      rewrite orb_true_r in Hi.
      split; [exact Hi|]. split; [discriminate|exact Hrest].
    + intros He.
      pose proof (fullReport_fields spell url (now_loaded page - now_start page)
                    (match goto page url with inr (Some r) => status r | _ => 0 end)
                    sa issues) as (_ & _ & Hnone & _).
      cbn zeta in Hnone. congruence.
Qed.

Lemma sum_bounds (f : PageAnalysis.t -> Z) results lo hi acc :
  (forall r, In r results -> lo <= f r <= hi) ->
  acc + lo * Z.of_nat (length results)
  <= fold_left (fun acc curr => acc + f curr) results acc
  <= acc + hi * Z.of_nat (length results).
Proof.
  revert acc; induction results as [|r results IH]; intros acc H;
    cbn [fold_left length].
  - lia.
  - specialize (IH (acc + f r) (fun r' Hr' => H r' (or_intror Hr'))).
    pose proof (H r (or_introl eq_refl)). lia.
Qed.

Lemma fold_add_map (f : PageAnalysis.t -> Z) results acc :
  fold_left (fun acc curr => acc + f curr) results acc
  = fold_left Z.add (map f results) acc.
Proof.
  revert acc; induction results as [|r rs IH]; intros acc; cbn;
    [reflexivity|apply IH].
Qed.

Lemma round_div s n :
  0 < n ->
  Num.round (Num.div s n) = Num.of_Z ((2 * s + n) / (2 * n)).
Proof.
  intros Hn. unfold Num.div, Num.round, Num.of_Z.
  destruct (Z.eqb_spec n 0); [lia|].
  destruct n as [|p|p]; try lia.
  f_equal. f_equal. unfold Qfloor, Qdiv, Qinv, Qmult, Qplus, inject_Z.
  cbn [Qnum Qden]. f_equal; lia.
Qed.

(** The summary figures. Nothing is rendered for an empty result list,
    so the average never divides by zero; otherwise the page count is
    the number of results, the average response time is the integer
    nearest to the mean (halves go up) and lies between any two bounds
    of the response times, and the issue total is the sum of the page
    counts, never negative. *)
Theorem summary_figures (results : list PageAnalysis.t) (lo hi : Z) :
  (forall r, In r results -> lo <= PageAnalysis.responseTime r <= hi) ->
  (summary results = None <-> results = [])
  /\ (results <> [] ->
      exists avg total : Z,
        summary results
        = Some (mkSummary (Z.of_nat (length results)) (Num.of_Z avg) total)
        /\ lo <= avg <= hi
        /\ (let n := Z.of_nat (length results) in
            let sum := fold_left Z.add (map PageAnalysis.responseTime results) 0 in
            2 * n * avg <= 2 * sum + n < 2 * n * (avg + 1))
        /\ total = fold_left Z.add (map page_issues results) 0
        /\ 0 <= total).
Proof.
  intros Hb. unfold summary. split.
  - destruct results; cbn; [tauto|]. split; discriminate.
  - intros Hne.
    assert (Hn : 0 < Z.of_nat (length results)).
    { destruct results; [congruence|cbn; lia]. }
    destruct (Z.eqb_spec (Z.of_nat (length results)) 0) as [|_]; [lia|].
    set (n := Z.of_nat (length results)) in *.
    set (sum := fold_left (fun acc curr => acc + PageAnalysis.responseTime curr)
                  results 0).
    assert (Hsum : fold_left Z.add (map PageAnalysis.responseTime results) 0 = sum)
      by (symmetry; apply fold_add_map).
    exists ((2 * sum + n) / (2 * n)), (totalIssues results).
    split.
    { unfold avgResponseTime. fold n. fold sum. rewrite round_div by exact Hn.
      reflexivity. }
    pose proof (sum_bounds PageAnalysis.responseTime results lo hi 0 Hb) as Hs.
    fold sum in Hs. fold n in Hs.
    pose proof (Z.div_mod (2 * sum + n) (2 * n) ltac:(lia)) as Hdm.
    pose proof (Z.mod_pos_bound (2 * sum + n) (2 * n) ltac:(lia)) as Hmod.
    set (avg := (2 * sum + n) / (2 * n)) in *. clearbody avg sum n.
    split; [nia|].
    split; [cbn zeta; rewrite Hsum; nia|].
    split.
    + apply fold_add_map.
    + pose proof (sum_bounds page_issues results 0
                    (7 + 3 * Z.of_nat (length results)) 0) as Ht.
      unfold totalIssues.
      assert (Hpos : forall acc, 0 <= acc ->
                0 <= fold_left (fun acc curr => acc + page_issues curr) results acc).
      { clear. induction results as [|r rs IH]; intros acc Ha; cbn; [exact Ha|].
        apply IH.
        assert (0 <= page_issues r); [|lia].
        unfold page_issues.
        pose proof (proj1 (viewport_issues_fold (PageAnalysis.viewportIssues r)
          (let issues := 0 in
           let issues :=
             if (PageAnalysis.statusCode r >=? 400) || has_error r
             then issues + 1 else issues in
           let issues := if PageAnalysis.missingAltTags r >? 0 then issues + 1 else issues in
           let issues := if negb (PageAnalysis.hasViewport r) then issues + 1 else issues in
           let issues :=
             if (PageAnalysis.h1Count r =? 0) || (PageAnalysis.h1Count r >? 1)
             then issues + 1 else issues in
           let issues :=
             if PageAnalysis.imagesMissingDimensions r >? 0 then issues + 1 else issues in
           if PageAnalysis.longWords r >? 0 then issues + 1 else issues))) as Hv.
        cbn zeta in *.
        destruct (Z.of_nat (length (PageAnalysis.possibleTypos r)) >? 0);
          destruct ((PageAnalysis.statusCode r >=? 400) || has_error r);
          destruct (PageAnalysis.missingAltTags r >? 0);
          destruct (negb (PageAnalysis.hasViewport r));
          destruct ((PageAnalysis.h1Count r =? 0) || (PageAnalysis.h1Count r >? 1));
          destruct (PageAnalysis.imagesMissingDimensions r >? 0);
          destruct (PageAnalysis.longWords r >? 0); lia. }
      apply Hpos. lia.
Qed.

End SummaryFacts.


(* ===================================================================== *)
(** ** Properties of the single-page action *)
(* ===================================================================== *)

Section TrimFacts.

Import Text.

Lemma rev_app_append a b : String.rev_app a b = String.rev a +:+ b.
Proof.
  unfold String.rev. revert b; induction a as [|c a IH]; intros b; cbn [String.rev_app].
  - reflexivity.
  - rewrite (IH (String c b)), (IH (String c EmptyString)), append_assoc.
    reflexivity.
Qed.

Lemma rev_cons c s : String.rev (String c s) = String.rev s +:+ String c EmptyString.
Proof. unfold String.rev at 1. cbn [String.rev_app]. apply rev_app_append. Qed.

Lemma rev_append a b : String.rev (a +:+ b) = String.rev b +:+ String.rev a.
Proof.
  induction a as [|c a IH].
  - change (EmptyString +:+ b) with b. rewrite append_nil_r. reflexivity.
  - change (String c a +:+ b) with (String c (a +:+ b)).
    rewrite !rev_cons, IH, append_assoc. reflexivity.
Qed.

Lemma rev_involutive s : String.rev (String.rev s) = s.
Proof.
  induction s as [|c s IH]; [reflexivity|].
  rewrite rev_cons, rev_append, IH. reflexivity.
Qed.

Lemma trimStart_headed s : headed (trimStart s).
Proof.
  induction s as [|c s IH]; cbn [trimStart]; [exact I|].
  destruct (Js.is_space c) eqn:Hc; [exact IH|exact Hc].
Qed.

Lemma headed_trimStart s : headed s -> trimStart s = s.
Proof. destruct s as [|c s]; cbn; [reflexivity|]. intros ->. reflexivity. Qed.

Lemma trimStart_suffix s : exists sp, s = sp +:+ trimStart s.
Proof.
  induction s as [|c s [sp IH]]; cbn [trimStart]; [exists EmptyString; reflexivity|].
  destruct (Js.is_space c).
  - exists (String c sp). change (String c sp +:+ ?t) with (String c (sp +:+ t)).
    rewrite <- IH. reflexivity.
  - exists EmptyString. reflexivity.
Qed.

Lemma headed_prefix a b : headed (a +:+ b) -> a <> EmptyString -> headed a.
Proof. destruct a as [|c a]; [congruence|]. intros H _. exact H. Qed.

(** [trim] yields a text that neither starts nor ends with white space,
    so trimming it again changes nothing. *)
Lemma trim_trimmed s :
  headed (trim s) /\ headed (String.rev (trim s)) /\ trim (trim s) = trim s.
Proof.
  unfold trim at 1 2.
  set (a := trimStart s).
  set (b := trimStart (String.rev a)).
  assert (Ha : headed a) by apply trimStart_headed.
  assert (Hb : headed b) by apply trimStart_headed.
  destruct (trimStart_suffix (String.rev a)) as [sp Hsp]. fold b in Hsp.
  assert (Hpre : a = String.rev b +:+ String.rev sp).
  { rewrite <- rev_append, <- Hsp, rev_involutive. reflexivity. }
  assert (Hh : headed (String.rev b)).
  { destruct (String.rev b) as [|c t] eqn:Hr; [exact I|].
    rewrite Hpre in Ha. exact Ha. }
  split; [exact Hh|]. rewrite rev_involutive. split; [exact Hb|].
  unfold trim. fold a. fold b.
  rewrite (headed_trimStart _ Hh), rev_involutive, (headed_trimStart _ Hb).
  reflexivity.
Qed.

End TrimFacts.

Section ActionFacts.

Import Analyzer Action.

(** The result of the single-page action. A result with an error has
    empty extraction fields, status 0 and response time 0. The reported
    URL is empty exactly when no URL was submitted, and otherwise starts
    with [http]. The title carries no surrounding white space, and the
    H1 is either absent or a non-empty text without surrounding white
    space: a heading of white space only is reported as absent. *)
Theorem analyzeUrl_result (env : Env) (url : option string) :
  let r := analyzeUrl env url in
  (error r <> None ->
     title r = EmptyString /\ metaDescription r = EmptyString /\ h1 r = None
     /\ responseTime r = 0 /\ statusCode r = 0)
  /\ (Action.url r = EmptyString <-> url = None \/ url = Some EmptyString)
  /\ (Action.url r = EmptyString \/ Js.startsWith "http" (Action.url r) = true)
  /\ Text.trim (title r) = title r
  /\ (forall t, h1 r = Some t -> t <> EmptyString /\ Text.trim t = t)
  /\ (error r = None ->
      exists response html,
        fetch env (Action.url r) = inr response
        /\ text response = inr html
        /\ statusCode r = status response
        /\ responseTime r = endTime env - startTime env).
Proof.
  cbn zeta. unfold analyzeUrl.
  assert (Hfailed : forall u m,
            (Action.url (failed u m) = EmptyString <-> u = EmptyString)
            /\ (error (failed u m) <> None ->
                title (failed u m) = EmptyString
                /\ metaDescription (failed u m) = EmptyString
                /\ h1 (failed u m) = None
                /\ responseTime (failed u m) = 0 /\ statusCode (failed u m) = 0)
            /\ Text.trim (title (failed u m)) = title (failed u m)
            /\ (forall t, h1 (failed u m) = Some t ->
                  t <> EmptyString /\ Text.trim t = t)
            /\ (error (failed u m) = None ->
                exists response html,
                  fetch env (Action.url (failed u m)) = inr response
                  /\ text response = inr html
                  /\ statusCode (failed u m) = status response
                  /\ responseTime (failed u m) = endTime env - startTime env)).
  { intros u m. cbn. repeat split; auto; try discriminate. }
  destruct url as [u|]; cbn [negb].
  2:{ destruct (Hfailed EmptyString "URL is required") as (H1 & H2 & H3 & H4 & H5).
      split; [exact H2|]. split; [split; auto|].
      split; [left; reflexivity|]. split; [exact H3|]. split; [exact H4|exact H5]. }
  destruct (Js.truthy u) eqn:Htr; cbn [negb].
  2:{ assert (u = EmptyString) as ->.
      { unfold Js.truthy in Htr.
        destruct (String.eqb_spec u EmptyString); [assumption|discriminate]. }
      destruct (Hfailed EmptyString "URL is required") as (H1 & H2 & H3 & H4 & H5).
      split; [exact H2|]. split; [split; auto|].
      split; [left; reflexivity|]. split; [exact H3|]. split; [exact H4|exact H5]. }
  assert (Hne : u <> EmptyString) by (intros ->; discriminate Htr).
  set (targetUrl := if Js.startsWith "http" u then u else "https://" +:+ u).
  assert (Ht : targetUrl <> EmptyString /\ Js.startsWith "http" targetUrl = true).
  { subst targetUrl. destruct (Js.startsWith "http" u) eqn:Hs.
    - split; [exact Hne|exact Hs].
    - split; [discriminate|reflexivity]. }
  destruct Ht as [Htne Hts].
  assert (Hno : ~ (Some u = None \/ Some u = Some EmptyString))
    by (intros [|[= ->]]; congruence).
  destruct (fetch env targetUrl) as [e|response] eqn:Hf.
  { destruct (Hfailed targetUrl (message e)) as (H1 & H2 & H3 & H4 & H5).
    split; [exact H2|].
    split; [split; [intros Hu; apply (proj1 H1) in Hu; contradiction|intros H; contradiction]|].
    split; [right; exact Hts|]. split; [exact H3|]. split; [exact H4|exact H5]. }
  destruct (text response) as [e|html] eqn:Htext.
  { destruct (Hfailed targetUrl (message e)) as (H1 & H2 & H3 & H4 & H5).
    split; [exact H2|].
    split; [split; [intros Hu; apply (proj1 H1) in Hu; contradiction|intros H; contradiction]|].
    split; [right; exact Hts|]. split; [exact H3|]. split; [exact H4|exact H5]. }
  cbn [Action.url title metaDescription h1 responseTime statusCode error].
  split; [congruence|]. split; [tauto|]. split; [right; exact Hts|].
  split; [apply trim_trimmed|]. split.
  - intros t. unfold Js.truthy.
    destruct (String.eqb_spec (Text.trim (firstH1Text env html)) EmptyString);
      cbn [negb]; [discriminate|].
    intros [= <-]. split; [assumption|apply trim_trimmed].
  - intros _. exists response, html. auto.
Qed.

End ActionFacts.


(* ===================================================================== *)
(** ** The properties on sample pages, sites and streams *)
(* ===================================================================== *)

Section MoreExamples.

Import Analyzer Crawler Frontier Route Client Display.

Lemma mixedRun_is_the_crawl :
  crawlSite Sites.mixed "https://example.com/" (CrawlOptions.mk 2 2)
  = MoreSamples.mixedRun.
Proof.
  eapply (crawlSite_steps Sites.mixed _ _ _ _ 5);
    [reflexivity|reflexivity|reflexivity|vm_compute; reflexivity].
Qed.

Lemma page_issues_badges_clean_page :
  let r := MoreSamples.cleanReport in
  0 <= PageAnalysis.h1Count r
  /\ page_issues r = 0
  /\ 0 <= page_issues r <= 7 + 3 * Z.of_nat (length (PageAnalysis.viewportIssues r)).
Proof.
  cbn zeta.
  assert (H : 0 <= PageAnalysis.h1Count MoreSamples.cleanReport)
    by (vm_compute; discriminate).
  split; [exact H|].
  destruct (page_issues_badges MoreSamples.cleanReport H) as [Hiff Hb].
  split; [|exact Hb].
  apply Hiff. vm_compute. repeat split.
Defined.

Lemma failed_page_issues_not_found :
  let report := analyzePage None Samples.missing "https://example.com/gone" in
  PageAnalysis.error report = Some "HTTP 404"
  /\ page_issues report = 3.
Proof.
  cbn zeta.
  assert (H : PageAnalysis.error
                (analyzePage None Samples.missing "https://example.com/gone")
              = Some "HTTP 404") by reflexivity.
  split; [exact H|].
  exact (proj1 (failed_page_issues None Samples.missing
                  "https://example.com/gone" "HTTP 404" H)).
Defined.

Lemma summary_figures_two_pages :
  let results := [MoreSamples.cleanReport; MoreSamples.notFoundReport] in
  (forall r, In r results -> 100 <= PageAnalysis.responseTime r <= 250)
  /\ summary results = Some (mkSummary 2 (Num.of_Z 175) 3).
Proof.
  cbn zeta.
  assert (H : forall r, In r [MoreSamples.cleanReport; MoreSamples.notFoundReport] ->
                100 <= PageAnalysis.responseTime r <= 250).
  { intros r [<-|[<-|[]]]; vm_compute; split; discriminate. }
  split; [exact H|].
  destruct (proj2 (summary_figures _ 100 250 H) ltac:(discriminate))
    as (avg & total & -> & _ & Havg & -> & _).
  cbn zeta in Havg.
  change (Z.of_nat (length [MoreSamples.cleanReport; MoreSamples.notFoundReport]))
    with 2 in *.
  change (fold_left Z.add
            (map PageAnalysis.responseTime
               [MoreSamples.cleanReport; MoreSamples.notFoundReport]) 0)
    with 350 in Havg.
  replace avg with 175 by lia.
  reflexivity.
Defined.

Lemma handleSubmit_reads_lines_three_chunks :
  let view := handleSubmit Example.braced Example.answers (Some "example.com") 20 in
  results view = ["{a}"; "{b}"; "{c}"] /\ error view = None /\ isLoading view = false.
Proof.
  cbn zeta.
  destruct (handleSubmit_reads_lines Example.braced Example.answers "example.com" 20
              (mkHttpResponse true (inr EmptyString) (Some Example.threeChunks))
              Example.threeChunks ltac:(discriminate) eq_refl eq_refl eq_refl)
    as (Hl & Hr & He).
  split; [rewrite Hr; reflexivity|]. split; assumption.
Defined.

Lemma GET_stream_mixed_site :
  let sent := map (fun r => PageAnalysis.url r +:+ Text.newline)
                  (reports MoreSamples.mixedRun) in
  GET Sites.mixed PageAnalysis.url steady (Some "example.com/") (Some "2")
  = Ndjson sent None
  /\ Z.of_nat (length sent) <= 2.
Proof.
  cbn zeta.
  assert (H : GET Sites.mixed PageAnalysis.url steady (Some "example.com/")
                  (Some "2")
              = Ndjson (map (fun r => PageAnalysis.url r +:+ Text.newline)
                            (reports MoreSamples.mixedRun)) None).
  { change (GET Sites.mixed PageAnalysis.url steady (Some "example.com/")
              (Some "2"))
      with (Route.start PageAnalysis.url steady
              (crawlSite Sites.mixed "https://example.com/"
                 (CrawlOptions.mk 2 2))).
    rewrite mixedRun_is_the_crawl. reflexivity. }
  split; [exact H|].
  destruct (GET_stream Sites.mixed PageAnalysis.url steady _ _ _ _ H)
    as (u & _ & _ & _ & _ & Hn & _).
  exact (proj2 (Hn 2 eq_refl)).
Defined.

Lemma form_shows_the_reports_mixed_site :
  let view := handleSubmit (MoreSamples.byUrl (reports MoreSamples.mixedRun))
                Example.mixedAnswers (Some "example.com/") 2 in
  map PageAnalysis.url (results view)
  = ["https://example.com/"; "https://example.com/about"]
  /\ error view = None.
Proof.
  cbn zeta.
  assert (Hget : GET Sites.mixed PageAnalysis.url steady (Some "example.com/")
                     (Some (Js.of_int 2))
                 = Ndjson (map (fun r => PageAnalysis.url r +:+ Text.newline)
                               (reports MoreSamples.mixedRun)) None).
  { change (GET Sites.mixed PageAnalysis.url steady (Some "example.com/")
              (Some (Js.of_int 2)))
      with (Route.start PageAnalysis.url steady
              (crawlSite Sites.mixed "https://example.com/"
                 (CrawlOptions.mk 2 2))).
    rewrite mixedRun_is_the_crawl. reflexivity. }
  assert (Hjson : forall r,
            In r (reports (crawlSite Sites.mixed (targetUrl "example.com/")
                             (CrawlOptions.mk 2 2))) ->
            MoreSamples.byUrl (reports MoreSamples.mixedRun) (PageAnalysis.url r)
            = Some r
            /\ Text.split_on Text.LF (PageAnalysis.url r) = [PageAnalysis.url r]
            /\ Text.trim (PageAnalysis.url r) <> EmptyString).
  { change (targetUrl "example.com/") with "https://example.com/".
    rewrite mixedRun_is_the_crawl.
    intros r [<-|[<-|[]]]; (split; [reflexivity|]);
      (split; [reflexivity|vm_compute; discriminate]). }
  destruct (form_shows_the_reports Sites.mixed PageAnalysis.url steady
              (MoreSamples.byUrl (reports MoreSamples.mixedRun))
              Example.mixedAnswers "example.com/" 2
              (mkHttpResponse true (inr EmptyString) (Some Example.mixedChunks))
              Example.mixedChunks
              (map (fun r => PageAnalysis.url r +:+ Text.newline)
                   (reports MoreSamples.mixedRun))
              ltac:(discriminate) ltac:(lia) Hget eq_refl eq_refl eq_refl eq_refl
              eq_refl Hjson)
    as (Hres & Herr & _).
  split; [|exact Herr].
  rewrite Hres.
  change (targetUrl "example.com/") with "https://example.com/".
  rewrite mixedRun_is_the_crawl. reflexivity.
Defined.

(** A browser that cannot be closed: the crawl delivers its reports and
    then ends with the exception of [browser.close()]. *)
Example crawl_ends_with_close_failure :
  let run := crawlSite MoreSamples.stuck "https://example.com/"
               (CrawlOptions.mk 2 2) in
  map PageAnalysis.url (reports run)
  = ["https://example.com/"; "https://example.com/about"]
  /\ raised run = Some MoreSamples.targetClosed.
Proof.
  cbn zeta.
  erewrite (crawlSite_steps_closing MoreSamples.stuck _ _ _ _ 5);
    [|reflexivity|reflexivity|vm_compute; reflexivity].
  vm_compute. split; reflexivity.
Qed.

(** A stream cancelled after its first chunk: the second [enqueue]
    throws, the loop is left, and that exception goes to the stream. *)
Example cancelled_stream :
  GET Sites.mixed PageAnalysis.url (cancelledAfter 1) (Some "example.com/")
      (Some "2")
  = Ndjson ["https://example.com/" +:+ Text.newline] (Some invalidState).
Proof.
  change (GET Sites.mixed PageAnalysis.url (cancelledAfter 1)
            (Some "example.com/") (Some "2"))
    with (Route.start PageAnalysis.url (cancelledAfter 1)
            (crawlSite Sites.mixed "https://example.com/"
               (CrawlOptions.mk 2 2))).
  rewrite mixedRun_is_the_crawl. reflexivity.
Qed.

End MoreExamples.

